(** * ISC-Multiplex: the path-addressed JSON merge engine of [json_modifier.py]

    A shallow embedding of [src/src/json_modifier.py] and the properties its
    specification states about it.

    Conventions of the embedding.
    - A Python [str] is a [string]; each character stands for one code point
      below 256.
    - A Python [int] is a [Z]; a Python [float] is an IEEE-754 binary64 value,
      a [spec_float] with precision 53 and maximal exponent 1024.
    - Python's [None] and JSON's [null] are the same object, [JNull].
    - A [dict] is an association list in insertion order.  Its keys are the
      keys a Python dict holds while the program runs: strings for everything
      [json.load] builds, and the two kinds of key the path library itself can
      put into a dict (an integer, and its private list marker).
    - Mutation in place is state passing: a function that mutates its
      argument returns the argument's new state.
    - An exception that leaves a function is the constructor [Raised] of the
      result, carrying the state reached when it was raised. *)

From Stdlib Require Import ZArith List String Ascii Bool Lia.
From Stdlib Require Import Floats.SpecFloat.
Import ListNotations.

Local Open Scope string_scope.
Local Open Scope list_scope.
Local Open Scope Z_scope.

Set Warnings "-register-all".

(* ================================================================== *)
(** * Values *)

Definition pyfloat := spec_float.

(** Keys of a Python dict. [KList] is [LIST_KEY], the private object under
    which the path library parks a list it is building inside a dict. *)
Inductive pykey : Type :=
| KStr (s : string)
| KInt (i : Z)
| KList.

Inductive json : Type :=
| JNull
| JBool (b : bool)
| JInt (n : Z)
| JFloat (f : pyfloat)
| JStr (s : string)
| JList (l : list json)
| JDict (d : list (pykey * json)).

Definition pydict := list (pykey * json).

Definition pykey_eqb (a b : pykey) : bool :=
  match a, b with
  | KStr s, KStr t => String.eqb s t
  | KInt i, KInt j => Z.eqb i j
  | KList, KList => true
  | _, _ => false
  end.

(** The runtime types [type(value)] can return on these values. *)
Inductive pytype : Type :=
| TNone | TBool | TInt | TFloat | TStr | TList | TDict.

Definition pytype_eqb (a b : pytype) : bool :=
  match a, b with
  | TNone, TNone | TBool, TBool | TInt, TInt | TFloat, TFloat
  | TStr, TStr | TList, TList | TDict, TDict => true
  | _, _ => false
  end.

(** ** Results of code that can raise *)

(** The state of the mutated object after a call: left normally ([Done]) or
    by an exception ([Raised]). *)
Inductive effect : Type :=
| Done (v : json)
| Raised (v : json).

Definition state_of (e : effect) : json :=
  match e with Done v | Raised v => v end.

(** A computation without side effect that may raise. *)
Inductive outcome (A : Type) : Type :=
| Ok (a : A)
| Raise.
Arguments Ok {A} a.
Arguments Raise {A}.

(* ================================================================== *)
(** * Python containers *)

Module Py.

(** [d.get(k)] / [k in d]. *)
Fixpoint dict_get (k : pykey) (d : pydict) : option json :=
  match d with
  | [] => None
  | (k', v) :: d' => if pykey_eqb k k' then Some v else dict_get k d'
  end.

(** [d[k] = v]: an existing key keeps its place, a new one goes last. *)
Fixpoint dict_set (k : pykey) (v : json) (d : pydict) : pydict :=
  match d with
  | [] => [(k, v)]
  | (k', v') :: d' =>
      if pykey_eqb k k' then (k', v) :: d' else (k', v') :: dict_set k v d'
  end.

(** [del d[k]]. *)
Fixpoint dict_del (k : pykey) (d : pydict) : pydict :=
  match d with
  | [] => []
  | (k', v') :: d' =>
      if pykey_eqb k k' then dict_del k d' else (k', v') :: dict_del k d'
  end.

Definition len {A} (l : list A) : Z := Z.of_nat (List.length l).

(** Position addressed by a Python index in a sequence of length [n];
    [None] is [IndexError]. *)
Definition position (n i : Z) : option nat :=
  if (0 <=? i) && (i <? n) then Some (Z.to_nat i)
  else if (i <? 0) && (- n <=? i) then Some (Z.to_nat (n + i))
  else None.

Definition list_get {A} (l : list A) (i : Z) : option A :=
  match position (len l) i with
  | Some n => nth_error l n
  | None => None
  end.

Fixpoint set_nth {A} (n : nat) (x : A) (l : list A) : list A :=
  match l, n with
  | [], _ => []
  | _ :: l', O => x :: l'
  | y :: l', S n' => y :: set_nth n' x l'
  end.

Fixpoint del_nth {A} (n : nat) (l : list A) : list A :=
  match l, n with
  | [], _ => []
  | _ :: l', O => l'
  | y :: l', S n' => y :: del_nth n' l'
  end.

(** [l[i] = x]; [None] is [IndexError]. *)
Definition list_set {A} (l : list A) (i : Z) (x : A) : option (list A) :=
  match position (len l) i with
  | Some n => Some (set_nth n x l)
  | None => None
  end.

(** [del l[i]]; [None] is [IndexError]. *)
Definition list_del {A} (l : list A) (i : Z) : option (list A) :=
  match position (len l) i with
  | Some n => Some (del_nth n l)
  | None => None
  end.

Definition chars (s : string) : list ascii := list_ascii_of_string s.

(** [s[i]]: the one-character string at index [i]. *)
Definition str_get (s : string) (i : Z) : option string :=
  match list_get (chars s) i with
  | Some c => Some (String c EmptyString)
  | None => None
  end.

Definition float_is_zero (f : pyfloat) : bool :=
  match f with S754_zero _ => true | _ => false end.

(** [bool(v)]. *)
Definition truthy (v : json) : bool :=
  match v with
  | JNull => false
  | JBool b => b
  | JInt n => negb (n =? 0)
  | JFloat f => negb (float_is_zero f)
  | JStr s => negb (String.eqb s "")
  | JList l => match l with [] => false | _ => true end
  | JDict d => match d with [] => false | _ => true end
  end.

(** [len(v)]; [Raise] is the [TypeError] of a value without length. *)
Definition length_of (v : json) : outcome Z :=
  match v with
  | JStr s => Ok (len (chars s))
  | JList l => Ok (len l)
  | JDict d => Ok (len d)
  | _ => Raise
  end.

(** [v[i]] for an integer [i]; [Raise] is [IndexError], [KeyError] or
    [TypeError]. *)
Definition item (v : json) (i : Z) : outcome json :=
  match v with
  | JStr s => match str_get s i with Some c => Ok (JStr c) | None => Raise end
  | JList l => match list_get l i with Some x => Ok x | None => Raise end
  | JDict d => match dict_get (KInt i) d with Some x => Ok x | None => Raise end
  | _ => Raise
  end.

End Py.

(* ================================================================== *)
(** * The path library

    The program addresses the document through the third-party package
    [jsonpath_ng], which is not part of the repository: [parse], [find] and
    [update_or_create] are the whole of the specification's PathResolver
    behind [get_value_by_path] and [set_value_by_path], and the first half
    of it behind [remove_value_by_path].  This section follows the package
    (release 1.6, the one whose [Index] has the attribute [index] that
    [remove_value_by_path] reads) on the addressing forms the specification
    names: the root anchor [$], a field name [.name] and a bracketed integer
    [[n]].  The parser turns [$.a[0].b] into
    [Child(Child(Child(Root(), Fields('a')), Index(0)), Fields('b'))]; such
    a left-nested chain anchored at [Root()] is the list of its steps, and
    [$] alone is the empty list.  A field name is one plain name; the
    wildcard [*] is outside the fragment. *)

Inductive step : Type :=
| Fields (f : string)
| Index (i : Z).

Definition jsonpath := list step.

(** What [parse(path)] gives on the path text of a mapping or a directive:
    a path of the fragment, or an exception. *)
Inductive parsed : Type :=
| Parsed (p : jsonpath)
| ParseError.

Module JsonPath.
Import Py.

Definition empty_dict : json := JDict [].

(** [Fields.find] / [Index.find] on the datum holding [v]: the first
    match, if any.
    - [Fields.get_field_datum] reads [datum.value.get(field, NOT_SET)] and
      turns [TypeError], [AttributeError] and [KeyError] into no match, so
      anything but a dict has no fields.
    - [Index.find] is
      [if datum.value and len(datum.value) > self.index: return [DatumInContext(datum.value[self.index], ...)]]
      and [[]] otherwise; [len] and the subscript can raise. *)
Definition find_step (s : step) (v : json) : outcome (option json) :=
  match s with
  | Fields f =>
      match v with
      | JDict d => Ok (dict_get (KStr f) d)
      | _ => Ok None
      end
  | Index i =>
      if truthy v then
        match length_of v with
        | Raise => Raise
        | Ok n =>
            if n >? i then
              match item v i with
              | Ok x => Ok (Some x)
              | Raise => Raise
              end
            else Ok None
        end
      else Ok None
  end.

(** [expr.find(obj)] for the chain [p]: [Child.find] feeds every match of
    its left side to its right side. *)
Fixpoint find (p : jsonpath) (v : json) : outcome (option json) :=
  match p with
  | [] => Ok (Some v)
  | s :: p' =>
      match find_step s v with
      | Raise => Raise
      | Ok None => Ok None
      | Ok (Some x) => find p' x
      end
  end.

(** [_pad_value(value)] of [Index]:
    [if len(value) <= self.index: value += [{} for __ in range(pad)]].
    Only a list accepts the [+=]. *)
Definition pad_value (i : Z) (v : json) : outcome json :=
  match length_of v with
  | Raise => Raise
  | Ok n =>
      if n <=? i then
        match v with
        | JList l => Ok (JList (l ++ repeat empty_dict (Z.to_nat (i - n + 1))))
        | _ => Raise
        end
      else Ok v
  end.

(** [data[self.index] = val] on the padded value. *)
Definition store_item (i : Z) (val v : json) : outcome json :=
  match v with
  | JList l =>
      match list_set l i val with
      | Some l' => Ok (JList l')
      | None => Raise
      end
  | JDict d => Ok (JDict (dict_set (KInt i) val d))
  | _ => Raise
  end.

Definition map_effect (f : json -> json) (e : effect) : effect :=
  match e with
  | Done v => Done (f v)
  | Raised v => Raised (f v)
  end.

(** The list or dict [w] that [Index] works on, after
    [self._pad_value(w)] and the guarded [w[self.index] = val]. *)
Definition update_index (i : Z) (val w : json) : effect :=
  match pad_value i w with
  | Raise => Raised w
  | Ok padded =>
      match length_of padded with
      | Raise => Raised padded
      | Ok n =>
          if n >? i then
            match store_item i val padded with
            | Ok w' => Done w'
            | Raise => Raised padded
            end
          else Done padded
      end
  end.

(** [_create_list_key(dict_)] leaves the empty dict holding the list [w]
    under [LIST_KEY]. *)
Definition list_key (w : json) : json := JDict [(KList, w)].

(** [Fields.update_or_create(data, val)] and
    [Index.update_or_create(data, val)]: the state of [data] afterwards.
<<
    # Fields._update_base, create=True
    if data is not None:
        for field in self.reified_fields(DatumInContext.wrap(data)):
            if create and field not in data:
                data[field] = {}
            if type(data) is not bool and field in data:
                data[field] = val
    # Index._update_base, create=True
    if data == {}:
        data = _create_list_key(data)      # dict_[LIST_KEY] = new_list = [{}]
    self._pad_value(data)
    if len(data) > self.index:
        data[self.index] = val
>>
    On a list or a string [field in data] is a membership test, and both
    subscript assignments that can follow raise [TypeError]. *)
Definition update_step (s : step) (val data : json) : effect :=
  match s with
  | Fields f =>
      match data with
      | JNull => Done data
      | JDict d => Done (JDict (dict_set (KStr f) val d))
      | _ => Raised data
      end
  | Index i =>
      match data with
      | JDict [] => map_effect list_key (update_index i val (JList [empty_dict]))
      | _ => update_index i val data
      end
  end.

(** Put the new state [c] of the child reached through [s] back into its
    parent [v].  A one-character string read out of a string is a fresh
    immutable object: nothing done below it reaches the parent. *)
Definition plug (s : step) (c v : json) : json :=
  match s, v with
  | Fields f, JDict d => JDict (dict_set (KStr f) c d)
  | Index i, JList l =>
      match list_set l i c with Some l' => JList l' | None => v end
  | Index i, JDict d => JDict (dict_set (KInt i) c d)
  | _, _ => v
  end.

(** [Fields.find_or_create] / [Index.find_or_create] on the datum holding
    [v]: the state of [v] after the creation, and the child to go on
    with, if any.
<<
    # Fields.get_field_datum, create=True
    field_value = datum.value.get(field, NOT_SET)
    if field_value is NOT_SET:
        datum.value[field] = field_value = {}
    # Index._find_base, create=True
    if datum.value == {}:
        datum.value = _create_list_key(datum.value)
    self._pad_value(datum.value)
    if datum.value and len(datum.value) > self.index:
        return [DatumInContext(datum.value[self.index], path=self, context=datum)]
    return []
>> *)
Definition create_index (i : Z) (w : json) : json * outcome (option json) :=
  match pad_value i w with
  | Raise => (w, Raise)
  | Ok padded =>
      if truthy padded then
        match length_of padded with
        | Raise => (padded, Raise)
        | Ok n =>
            if n >? i then
              match item padded i with
              | Ok x => (padded, Ok (Some x))
              | Raise => (padded, Raise)
              end
            else (padded, Ok None)
        end
      else (padded, Ok None)
  end.

(** The chain below a step: [rest] are the remaining steps of the left
    side ([find_or_create]) and [last] is the right side of the outermost
    [Child] ([update_or_create]). *)
Fixpoint update_chain (rest : list step) (last : step) (val v : json)
  : effect :=
  match rest with
  | [] => update_step last val v
  | Fields f :: rest' =>
      match v with
      | JDict d =>
          match dict_get (KStr f) d with
          | Some x =>
              map_effect (fun c => JDict (dict_set (KStr f) c d))
                         (update_chain rest' last val x)
          | None =>
              map_effect (fun c => JDict (dict_set (KStr f) c d))
                         (update_chain rest' last val empty_dict)
          end
      | _ => Done v
      end
  | Index i :: rest' =>
      match v with
      | JDict [] =>
          match create_index i (JList [empty_dict]) with
          | (w, Raise) => Raised (list_key w)
          | (w, Ok None) => Done (list_key w)
          | (w, Ok (Some x)) =>
              map_effect (fun c => list_key (plug (Index i) c w))
                         (update_chain rest' last val x)
          end
      | _ =>
          match create_index i v with
          | (w, Raise) => Raised w
          | (w, Ok None) => Done w
          | (w, Ok (Some x)) =>
              map_effect (fun c => plug (Index i) c w)
                         (update_chain rest' last val x)
          end
      end
  end.

(** [_clean_list_keys(struct_)]: its return value ([cleaned]) and the
    state it leaves [struct_] in ([clean_in_place]).
<<
    if isinstance(struct_, list):
        for ind, value in enumerate(struct_):
            struct_[ind] = _clean_list_keys(value)
    elif isinstance(struct_, dict):
        if LIST_KEY in struct_:
            return _clean_list_keys(struct_[LIST_KEY])
        else:
            for key, value in struct_.items():
                struct_[key] = _clean_list_keys(value)
    return struct_
>>
    The values of a dict are cleaned before its marker is looked up; the
    return value is the same either way. *)
Fixpoint cleaned (v : json) : json :=
  match v with
  | JList l => JList (map cleaned l)
  | JDict d =>
      let d' := map (fun kv => (fst kv, cleaned (snd kv))) d in
      match dict_get KList d' with
      | Some l => l                    (* [_clean_list_keys(struct_[LIST_KEY])] *)
      | None => JDict d'
      end
  | _ => v
  end.

Definition clean_in_place (v : json) : json :=
  match v with
  | JDict d =>
      match dict_get KList d with
      | Some l => JDict (dict_set KList (cleaned l) d)
      | None => cleaned v
      end
  | _ => cleaned v
  end.

(** [expr.update_or_create(obj, value)], the state of [obj] afterwards.
    [Root.update] returns [val] and leaves its argument alone;
<<
    # Child.update_or_create
    for datum in self.left.find_or_create(data):
        self.right.update_or_create(datum.value, val)
    return _clean_list_keys(data)
>> *)
Definition update_or_create (p : jsonpath) (obj val : json) : effect :=
  match p with
  | [] => Done obj
  | s :: p' =>
      match update_chain (removelast p) (last p s) val obj with
      | Done obj' => Done (clean_in_place obj')
      | Raised obj' => Raised obj'
      end
  end.

End JsonPath.

(* ================================================================== *)
(** * Built-in conversions of the language

    [int], [float], [str] and [str.lower] as the interpreter defines them,
    on text over the characters below 256. *)

Module Builtin.

(** ** Text *)

Definition code (c : ascii) : Z := Z.of_N (N_of_ascii c).

Definition chr (n : Z) : ascii := ascii_of_N (Z.to_N n).

(** The whitespace that [int] and [float] skip around a number: tab to
    carriage return, the space, and the two spaces of Latin-1. *)
Definition is_space (c : ascii) : bool :=
  let n := code c in
  ((9 <=? n) && (n <=? 13)) || (n =? 32) || (n =? 133) || (n =? 160).

Definition is_digit (c : ascii) : bool :=
  let n := code c in (48 <=? n) && (n <=? 57).

Definition digit_value (c : ascii) : Z := code c - 48.

Definition digit_char (d : Z) : ascii := chr (48 + d).

(** [c.lower()]: the letters A-Z and the accented capitals of Latin-1. *)
Definition lower_char (c : ascii) : ascii :=
  let n := code c in
  if ((65 <=? n) && (n <=? 90))
     || ((192 <=? n) && (n <=? 222) && negb (n =? 215))
  then chr (n + 32) else c.

(** [s.lower()]. *)
Fixpoint lower (s : string) : string :=
  match s with
  | EmptyString => EmptyString
  | String c s' => String (lower_char c) (lower s')
  end.

Fixpoint lstrip (l : list ascii) : list ascii :=
  match l with
  | c :: l' => if is_space c then lstrip l' else l
  | [] => []
  end.

Definition strip (l : list ascii) : list ascii :=
  rev (lstrip (rev (lstrip l))).

(** Digits with single underscores between them, the way [int] and
    [float] read them: the value, the number of digits read and the rest.
    [prev] tells whether the character before was a digit. *)
Fixpoint digits (l : list ascii) (prev : bool) (acc : Z) (n : Z)
  : option (Z * Z * list ascii) :=
  match l with
  | c :: l' =>
      if is_digit c then digits l' true (10 * acc + digit_value c) (n + 1)
      else if Ascii.eqb c "_" then
        match l' with
        | d :: _ => if prev && is_digit d then digits l' false acc n else None
        | [] => None
        end
      else Some (acc, n, l)
  | [] => Some (acc, n, [])
  end.

Definition split_sign (l : list ascii) : bool * list ascii :=
  match l with
  | c :: l' =>
      if Ascii.eqb c "-" then (true, l')
      else if Ascii.eqb c "+" then (false, l')
      else (false, l)
  | [] => (false, [])
  end.

(** A signed run of one or more digits that ends the text. *)
Definition signed_digits (l : list ascii) : option Z :=
  let '(neg, l') := split_sign l in
  match digits l' false 0 0 with
  | Some (v, n, []) => if 0 <? n then Some (if neg then - v else v) else None
  | _ => None
  end.

(** [int(s)]; [None] is [ValueError].  (The cap on the number of digits
    that recent interpreters put on the conversion is a runtime setting
    and is left out.) *)
Definition int (s : string) : option Z :=
  signed_digits (strip (list_ascii_of_string s)).

(** ** Floats: IEEE-754 binary64 *)

Definition prec : Z := 53.
Definition emax : Z := 1024.

(** Number of decimal digits of a positive integer. *)
Fixpoint count_digits (fuel : nat) (n : Z) : Z :=
  match fuel with
  | O => 0
  | S fuel' => if n <=? 0 then 0 else 1 + count_digits fuel' (n / 10)
  end.

Definition ndigits (n : Z) : Z := count_digits (S (Z.to_nat (Z.log2 n))) n.

(** The binary64 value nearest to [d * 10^e], ties to even, for [d > 0].
    A value of 10^400 or more is beyond the largest float and one below
    10^-400 is below half the smallest; in between, the quotient is taken
    with more than 53 bits and rounded once, from the remainder. *)
Definition nearest (neg : bool) (d e : Z) : pyfloat :=
  let adj := e + ndigits d in
  if 400 <? adj then S754_infinity neg
  else if adj <? -400 then S754_zero neg
  else if 0 <=? e then binary_round prec emax neg (Z.to_pos (d * 10 ^ e)) 0
  else
    let t := 10 ^ (- e) in
    let k := Z.max 1080 (Z.log2 t - Z.log2 d + 56) in
    let n := d * 2 ^ k in
    let q := n / t in
    let r := n mod t in
    let l := if r =? 0 then loc_Exact else loc_Inexact (2 * r ?= t) in
    binary_round_aux prec emax neg q (- k) l.

(** The exponent [e+5], [E-12], ... that may end a float literal. *)
Definition exponent_part (l : list ascii) : option Z :=
  match l with
  | [] => Some 0
  | c :: l' =>
      if Ascii.eqb (lower_char c) "e" then signed_digits l' else None
  end.

(** [float(s)]; [None] is [ValueError].  Too large a value is an infinity
    and too small a value is a zero, as in the interpreter. *)
Definition float (s : string) : option pyfloat :=
  let '(neg, l) := split_sign (strip (list_ascii_of_string s)) in
  let word := lower (string_of_list_ascii l) in
  if String.eqb word "inf" || String.eqb word "infinity"
  then Some (S754_infinity neg)
  else if String.eqb word "nan" then Some S754_nan
  else
    match digits l false 0 0 with
    | None => None
    | Some (ip, ni, rest) =>
        let fraction :=
          match rest with
          | c :: rest' =>
              if Ascii.eqb c "." then digits rest' false ip 0
              else Some (ip, 0, rest)
          | [] => Some (ip, 0, [])
          end in
        match fraction with
        | None => None
        | Some (d, nf, rest') =>
            if 0 <? ni + nf then
              match exponent_part rest' with
              | Some x =>
                  Some (if d =? 0 then S754_zero neg
                        else nearest neg d (x - nf))
              | None => None
              end
            else None
        end
    end.

(** ** [str] *)

Fixpoint decimal (fuel : nat) (n : Z) (acc : string) : string :=
  match fuel with
  | O => acc
  | S fuel' =>
      let acc' := String (digit_char (n mod 10)) acc in
      if n <? 10 then acc' else decimal fuel' (n / 10) acc'
  end.

(** The decimal numeral of a natural number. *)
Definition numeral (n : Z) : string :=
  decimal (S (Z.to_nat (Z.log2 n))) n "".



(** [floor (m * 2^e / 10^k)], and whether the division is exact. *)
Definition scaled (m : positive) (e k : Z) : Z * bool :=
  let num := Zpos m * (if 0 <=? e then 2 ^ e else 1)
             * (if k <? 0 then 10 ^ (- k) else 1) in
  let den := (if 0 <=? e then 1 else 2 ^ (- e))
             * (if k <? 0 then 1 else 10 ^ k) in
  (num / den, num mod den =? 0).

(** The largest [k] with [10^k <= m * 2^e], searched downwards from an
    estimate that is not below it. *)
Fixpoint magnitude (fuel : nat) (m : positive) (e k : Z) : Z :=
  match fuel with
  | O => k
  | S fuel' =>
      if 1 <=? fst (scaled m e k) then k else magnitude fuel' m e (k - 1)
  end.

Definition same_float (a b : pyfloat) : bool :=
  match a, b with
  | S754_finite s m e, S754_finite s' m' e' =>
      Bool.eqb s s' && Pos.eqb m m' && Z.eqb e e'
  | _, _ => false
  end.

(** The digits of [repr]: the shortest decimal [d * 10^k] that [float]
    reads back as [x = m * 2^e], and the nearest to [x] among the shortest.
    [n] is the number of digits tried; seventeen always identify a
    binary64 value. *)
Fixpoint shortest (fuel : nat) (n : Z) (m : positive) (e mag : Z) : Z * Z :=
  let k := mag - n + 1 in
  let '(lo, exact) := scaled m e k in
  let hi := if exact then lo else lo + 1 in
  let next := fst (scaled m e (k - 1)) - 10 * lo in   (* the digit after [lo] *)
  let half := snd (scaled m e (k - 1)) in             (* nothing after it *)
  let up := (5 <? next) || ((next =? 5) && (negb half || Z.odd lo)) in
  let x := S754_finite false m e in
  let ok_lo := same_float (nearest false lo k) x in
  let ok_hi := same_float (nearest false hi k) x in
  match fuel with
  | O => (if up then hi else lo, k)
  | S fuel' =>
      if ok_lo && ok_hi then (if up then hi else lo, k)
      else if ok_lo then (lo, k)
      else if ok_hi then (hi, k)
      else shortest fuel' (n + 1) m e mag
  end.

Fixpoint strip_zeros (fuel : nat) (d k : Z) : Z * Z :=
  match fuel with
  | O => (d, k)
  | S fuel' =>
      if (d mod 10 =? 0) && negb (d =? 0)
      then strip_zeros fuel' (d / 10) (k + 1)
      else (d, k)
  end.

Definition zeros (n : Z) : string :=
  string_of_list_ascii (repeat "0"%char (Z.to_nat n)).

Definition substr_from (n : Z) (s : string) : string :=
  String.substring (Z.to_nat n) (String.length s - Z.to_nat n) s.

Definition substr_to (n : Z) (s : string) : string :=
  String.substring 0 (Z.to_nat n) s.

Definition two_digits (n : Z) : string :=
  if n <? 10 then String "0" (numeral n) else numeral n.

(** The layout of [repr]: the digits [ds] with the decimal point after
    [decpt] of them; exponent form when [decpt] is below -3 or above 16. *)
Definition layout (ds : string) (decpt : Z) : string :=
  let nd := Z.of_nat (String.length ds) in
  if (decpt <=? -4) || (16 <? decpt) then
    let mant :=
      if nd =? 1 then ds
      else (substr_to 1 ds ++ "." ++ substr_from 1 ds)%string in
    let x := decpt - 1 in
    let sign := if x <? 0 then "-" else "+" in
    (mant ++ "e" ++ sign ++ two_digits (Z.abs x))%string
  else if decpt <=? 0 then ("0." ++ zeros (- decpt) ++ ds)%string
  else if nd <=? decpt then (ds ++ zeros (decpt - nd) ++ ".0")%string
  else (substr_to decpt ds ++ "." ++ substr_from decpt ds)%string.

(** [str(x)] of a [float], which is its [repr]. *)
Definition str_float (x : pyfloat) : string :=
  match x with
  | S754_nan => "nan"
  | S754_infinity s => if s then "-inf" else "inf"
  | S754_zero s => if s then "-0.0" else "0.0"
  | S754_finite s m e =>
      let estimate := (Z.log2 (Zpos m) + e) * 30103 / 100000 + 2 in
      let mag := magnitude 8 m e estimate in
      let '(d0, k0) := shortest 16 1 m e mag in
      let '(d, k) := strip_zeros 20 d0 k0 in
      let ds := numeral d in
      let decpt := Z.of_nat (String.length ds) + k in
      ((if s then "-" else "") ++ layout ds decpt)%string
  end.

End Builtin.

(* ================================================================== *)
(** * The program: [json_modifier.py] *)

(** One table row, as [csv.DictReader] yields it: column name to text. *)
Definition csv_row_t := list (string * string).

(** The mapping file: column name to path text, in file order.  The path
    text is kept as what [parse] makes of it. *)
Definition mapping_t := list (string * parsed).

(** One entry of the static configuration.
    - [e_path] is [entry.get("path")]: [None] when the key is missing or its
      value is falsy, otherwise what [parse] makes of it.
    - [e_operation] is [entry.get("operation")], [JNull] when missing.
    - [e_value] is [entry["value"]] when the key is there. *)
Record entry : Type := {
  e_path : option parsed;
  e_operation : json;
  e_value : option json
}.

Fixpoint row_get (k : string) (r : csv_row_t) : option string :=
  match r with
  | [] => None
  | (k', v) :: r' => if String.eqb k k' then Some v else row_get k r'
  end.

(** [get_value_by_path], lines 46-53: the first match's value, [None] when
    there is no match or anything raised. *)
Definition get_value_by_path (obj : json) (path : parsed) : json :=
  match path with
  | ParseError => JNull
  | Parsed expr =>
      match JsonPath.find expr obj with
      | Ok (Some v) => v
      | Ok None => JNull
      | Raise => JNull
      end
  end.

(** [set_value_by_path], lines 55-58: no [try] here, so a failing [parse]
    and whatever [update_or_create] raises leave the function. *)
Definition set_value_by_path (obj : json) (path : parsed) (value : json)
  : effect :=
  match path with
  | ParseError => Raised obj
  | Parsed expr => JsonPath.update_or_create expr obj value
  end.

(** The body of [remove_value_by_path] below [matches = expr.find(obj)] for
    the match reached through the steps [p] from [v]; [None] when nothing is
    deleted (no match, an exception, or the warning branch).
<<
    parent = match.context.value if match.context else obj
    final_key = match.path.fields[-1] if hasattr(match.path, 'fields') else match.path.index
    if isinstance(parent, dict) and isinstance(final_key, str):
        del parent[final_key]
    elif isinstance(parent, list) and isinstance(final_key, int):
        del parent[final_key]
    else:
        logging.warning(...)
>>
    [parent] is the value the steps before the last one lead to; deleting
    in it in place is rebuilding the values above it. *)
Fixpoint remove_match (p : jsonpath) (v : json) : option json :=
  match p with
  | [] => None
  | [final] =>
      match JsonPath.find_step final v with
      | Ok (Some _) =>
          match v, final with
          | JDict parent, Fields final_key =>
              Some (JDict (Py.dict_del (KStr final_key) parent))
          | JList parent, Index final_key =>
              match Py.list_del parent final_key with
              | Some parent' => Some (JList parent')
              | None => None
              end
          | _, _ => None
          end
      | _ => None
      end
  | s :: p' =>
      match JsonPath.find_step s v with
      | Ok (Some x) =>
          match remove_match p' x with
          | Some x' => Some (JsonPath.plug s x' v)
          | None => None
          end
      | _ => None
      end
  end.

(** [remove_value_by_path], lines 60-81: everything is inside [try], and
    for [$] itself [match.path] is [Root()], which has neither [fields] nor
    [index]. *)
Definition remove_value_by_path (obj : json) (path : parsed) : json :=
  match path with
  | ParseError => obj
  | Parsed expr =>
      match remove_match expr obj with
      | Some obj' => obj'
      | None => obj
      end
  end.

(** [get_type_from_value], lines 83-87. *)
Definition get_type_from_value (value : json) : pytype :=
  match value with
  | JNull => TNone
  | JBool _ => TBool
  | JInt _ => TInt
  | JFloat _ => TFloat
  | JStr _ => TStr
  | JList _ => TList
  | JDict _ => TDict
  end.

Definition is_container (v : json) : bool :=
  match v with JList _ | JDict _ => true | _ => false end.

Definition string_in (s : string) (l : list string) : bool :=
  existsb (String.eqb s) l.

Section Program.

(** [json.loads] on a text token; [None] is any exception it raises. *)
Variable json_loads : string -> option json.

(** The [try] block of [cast_value], lines 92-104; [Raise] is any
    exception of a conversion ([ValueError] from [int] and [float],
    whatever [json.loads] raises). *)
Definition conversion (value : string) (target_type : pytype)
  : outcome json :=
  match target_type with
  | TStr => Ok (JStr value)
  | TInt =>
      match Builtin.int value with
      | Some n => Ok (JInt n)
      | None => Raise
      end
  | TFloat =>
      match Builtin.float value with
      | Some x => Ok (JFloat x)
      | None => Raise
      end
  | TBool => Ok (JBool (string_in (Builtin.lower value) ["true"; "1"; "yes"]))
  | TList =>
      if String.eqb value "" then Ok (JList [])
      else match json_loads value with
           | Some v => Ok v
           | None => Raise
           end
  | TDict =>
      if String.eqb value "" then Ok (JDict [])
      else match json_loads value with
           | Some v => Ok v
           | None => Raise
           end
  | TNone => Ok (JStr value)
  end.

(** [cast_value], lines 89-107: the handler of the [try] block logs a
    warning and returns [value]. *)
Definition cast_value (value : string) (target_type : pytype) : json :=
  match conversion value target_type with
  | Ok casted => casted
  | Raise => JStr value
  end.

(** One turn of the loop of [update_from_csv], lines 113-133. *)
Definition update_field (json_obj : json) (csv_row : csv_row_t)
           (csv_key : string) (json_path : parsed) : effect :=
  match row_get csv_key csv_row with
  | None => Done json_obj
  | Some new_value =>
      if String.eqb csv_key "ID" then Done json_obj
      else
        let current_value := get_value_by_path json_obj json_path in
        match current_value with
        | JNull =>
            let inferred_value := cast_value new_value TStr in
            set_value_by_path json_obj json_path inferred_value
        | _ =>
            let target_type := get_type_from_value current_value in
            let casted_value := cast_value new_value target_type in
            if is_container current_value
               && negb (pytype_eqb (get_type_from_value casted_value)
                                   (get_type_from_value current_value))
            then Done json_obj
            else
              (* except Exception: a warning, and the loop goes on *)
              Done (state_of (set_value_by_path json_obj json_path casted_value))
        end
  end.

(** [update_from_csv], lines 110-133. *)
Fixpoint update_from_csv (json_obj : json) (csv_row : csv_row_t)
         (mapping : mapping_t) : effect :=
  match mapping with
  | [] => Done json_obj
  | (csv_key, json_path) :: mapping' =>
      match update_field json_obj csv_row csv_key json_path with
      | Done json_obj' => update_from_csv json_obj' csv_row mapping'
      | Raised json_obj' => Raised json_obj'
      end
  end.

End Program.

(** One turn of the loop of [update_from_static_config], lines 139-170. *)
Definition apply_entry (json_obj : json) (e : entry) : effect :=
  match e_path e with
  | None => Done json_obj
  | Some path =>
      let operation := e_operation e in
      if negb (Py.truthy operation) then Done json_obj
      else
        match operation with
        | JStr op =>
            if String.eqb op "update" then
              match e_value e with
              | None => Done json_obj
              | Some value =>
                  let current_value := get_value_by_path json_obj path in
                  match current_value with
                  | JNull => set_value_by_path json_obj path value
                  | _ =>
                      let current_type := get_type_from_value current_value in
                      let new_type := get_type_from_value value in
                      if negb (pytype_eqb current_type new_type)
                      then Done json_obj
                      else set_value_by_path json_obj path value
                  end
              end
            else if String.eqb op "remove" then
              Done (remove_value_by_path json_obj path)
            else Done json_obj
        | _ => Done json_obj
        end
  end.

(** [update_from_static_config], lines 136-170. *)
Fixpoint update_from_static_config (json_obj : json)
         (static_config : list entry) : effect :=
  match static_config with
  | [] => Done json_obj
  | e :: static_config' =>
      match apply_entry json_obj e with
      | Done json_obj' => update_from_static_config json_obj' static_config'
      | Raised json_obj' => Raised json_obj'
      end
  end.

(* ================================================================== *)
(** * Objects with identity

    [main] calls [update_from_static_config] on every object of a list
    document with the one [static_config].  The list or dict that an update
    entry carries is one Python object, and [data[field] = val] puts that
    very object into every document the entry is applied to: all of them
    hold it, and what a later entry changes inside it shows in each of
    them, and in what the next document gets.  A tree cannot say that.

    Here the lists and dicts live in a store and a value refers to one by
    its address.  The functions are those of the path library and of the
    program again, read on the store: a function that mutates returns the
    store it leaves, and [Raise] is an exception that leaves it. *)

Module Heap.

Definition addr := nat.

Inductive value : Type :=
| VNull
| VBool (b : bool)
| VInt (n : Z)
| VFloat (f : pyfloat)
| VStr (s : string)
| VRef (a : addr).                   (* a list or a dict *)

Inductive object : Type :=
| OList (l : list value)
| ODict (d : list (pykey * value)).

Definition store := list object.

Definition lookup (st : store) (a : addr) : option object := nth_error st a.

(** A new object: it gets the next free address. *)
Definition new (o : object) (st : store) : value * store :=
  (VRef (List.length st), st ++ [o]).

(** The object at [a] changes in place. *)
Definition assign (a : addr) (o : object) (st : store) : store :=
  Py.set_nth a o st.

(** [d.get(k)], [d[k] = v] and [del d[k]] on a dict of the store. *)
Fixpoint get (k : pykey) (d : list (pykey * value)) : option value :=
  match d with
  | [] => None
  | (k', v) :: d' => if pykey_eqb k k' then Some v else get k d'
  end.

Fixpoint set (k : pykey) (v : value) (d : list (pykey * value))
  : list (pykey * value) :=
  match d with
  | [] => [(k, v)]
  | (k', v') :: d' =>
      if pykey_eqb k k' then (k', v) :: d' else (k', v') :: set k v d'
  end.

Fixpoint del (k : pykey) (d : list (pykey * value)) : list (pykey * value) :=
  match d with
  | [] => []
  | (k', v') :: d' =>
      if pykey_eqb k k' then del k d' else (k', v') :: del k d'
  end.

(** [bool(v)]. *)
Definition truthy (v : value) (st : store) : bool :=
  match v with
  | VNull => false
  | VBool b => b
  | VInt n => negb (n =? 0)
  | VFloat f => negb (Py.float_is_zero f)
  | VStr s => negb (String.eqb s "")
  | VRef a =>
      match lookup st a with
      | Some (OList (_ :: _)) | Some (ODict (_ :: _)) => true
      | _ => false
      end
  end.

(** [len(v)]. *)
Definition length_of (v : value) (st : store) : outcome Z :=
  match v with
  | VStr s => Ok (Py.len (Py.chars s))
  | VRef a =>
      match lookup st a with
      | Some (OList l) => Ok (Py.len l)
      | Some (ODict d) => Ok (Py.len d)
      | None => Raise
      end
  | _ => Raise
  end.

(** [v[i]] for an integer [i]. *)
Definition item (v : value) (i : Z) (st : store) : outcome value :=
  match v with
  | VStr s =>
      match Py.str_get s i with Some c => Ok (VStr c) | None => Raise end
  | VRef a =>
      match lookup st a with
      | Some (OList l) =>
          match Py.list_get l i with Some x => Ok x | None => Raise end
      | Some (ODict d) =>
          match get (KInt i) d with Some x => Ok x | None => Raise end
      | None => Raise
      end
  | _ => Raise
  end.

(** [type(v)]. *)
Definition get_type_from_value (v : value) (st : store) : pytype :=
  match v with
  | VNull => TNone
  | VBool _ => TBool
  | VInt _ => TInt
  | VFloat _ => TFloat
  | VStr _ => TStr
  | VRef a =>
      match lookup st a with
      | Some (ODict _) => TDict
      | _ => TList
      end
  end.

(** ** The path library *)

(** [Fields.find] / [Index.find], as [JsonPath.find_step]. *)
Definition find_step (s : step) (v : value) (st : store)
  : outcome (option value) :=
  match s with
  | Fields f =>
      match v with
      | VRef a =>
          match lookup st a with
          | Some (ODict d) => Ok (get (KStr f) d)
          | _ => Ok None
          end
      | _ => Ok None
      end
  | Index i =>
      if truthy v st then
        match length_of v st with
        | Raise => Raise
        | Ok n =>
            if n >? i then
              match item v i st with
              | Ok x => Ok (Some x)
              | Raise => Raise
              end
            else Ok None
        end
      else Ok None
  end.

(** [expr.find(obj)], as [JsonPath.find]. *)
Fixpoint find (p : jsonpath) (v : value) (st : store)
  : outcome (option value) :=
  match p with
  | [] => Ok (Some v)
  | s :: p' =>
      match find_step s v st with
      | Raise => Raise
      | Ok None => Ok None
      | Ok (Some x) => find p' x st
      end
  end.

(** [[{} for __ in range(n)]]: [n] new empty dicts. *)
Fixpoint new_dicts (n : nat) (st : store) : list value * store :=
  match n with
  | O => ([], st)
  | S n' =>
      let '(x, st1) := new (ODict []) st in
      let '(xs, st2) := new_dicts n' st1 in
      (x :: xs, st2)
  end.

(** [_pad_value(value)] of [Index]:
    [if len(value) <= self.index: value += [{} for __ in range(pad)]].
    Only a list accepts the [+=]. *)
Definition pad_value (i : Z) (v : value) (st : store) : outcome store :=
  match length_of v st with
  | Raise => Raise
  | Ok n =>
      if n <=? i then
        match v with
        | VRef a =>
            match lookup st a with
            | Some (OList l) =>
                let '(pad, st1) := new_dicts (Z.to_nat (i - n + 1)) st in
                Ok (assign a (OList (l ++ pad)) st1)
            | _ => Raise
            end
        | _ => Raise
        end
      else Ok st
  end.

(** [data[self.index] = val]. *)
Definition store_item (i : Z) (val v : value) (st : store) : outcome store :=
  match v with
  | VRef a =>
      match lookup st a with
      | Some (OList l) =>
          match Py.list_set l i val with
          | Some l' => Ok (assign a (OList l') st)
          | None => Raise
          end
      | Some (ODict d) => Ok (assign a (ODict (set (KInt i) val d)) st)
      | None => Raise
      end
  | _ => Raise
  end.

(** [v == {}]. *)
Definition is_empty_dict (v : value) (st : store) : bool :=
  match v with
  | VRef a =>
      match lookup st a with
      | Some (ODict []) => true
      | _ => false
      end
  | _ => false
  end.

(** [_create_list_key(dict_)]: [dict_[LIST_KEY] = new_list = [{}]], and
    [new_list] is returned. *)
Definition create_list_key (v : value) (st : store) : value * store :=
  match v with
  | VRef a =>
      let '(x, st1) := new (ODict []) st in
      let '(new_list, st2) := new (OList [x]) st1 in
      (new_list, assign a (ODict [(KList, new_list)]) st2)
  | _ => (v, st)
  end.

(** The first two lines of [Index._find_base] and [Index._update_base]
    with [create=True]: the value the index is then taken in.
<<
    if data == {}:
        data = _create_list_key(data)
    self._pad_value(data)
>> *)
Definition padded (i : Z) (data : value) (st : store)
  : outcome (value * store) :=
  let '(data', st1) :=
    if is_empty_dict data st then create_list_key data st else (data, st) in
  match pad_value i data' st1 with
  | Ok st2 => Ok (data', st2)
  | Raise => Raise
  end.

(** [Fields.update_or_create(data, val)] and
    [Index.update_or_create(data, val)], as [JsonPath.update_step]. *)
Definition update_step (s : step) (val data : value) (st : store)
  : outcome store :=
  match s with
  | Fields f =>
      match data with
      | VNull => Ok st
      | VRef a =>
          match lookup st a with
          | Some (ODict d) => Ok (assign a (ODict (set (KStr f) val d)) st)
          | _ => Raise
          end
      | _ => Raise
      end
  | Index i =>
      match padded i data st with
      | Raise => Raise
      | Ok (data', st1) =>
          match length_of data' st1 with
          | Raise => Raise
          | Ok n => if n >? i then store_item i val data' st1 else Ok st1
          end
      end
  end.

(** [Fields.find_or_create] / [Index.find_or_create] on the datum holding
    [v]: the value to go on with, if any.
<<
    # Fields.get_field_datum, create=True
    field_value = datum.value.get(field, NOT_SET)
    if field_value is NOT_SET:
        datum.value[field] = field_value = {}
    # Index._find_base, create=True
    if datum.value == {}:
        datum.value = _create_list_key(datum.value)
    self._pad_value(datum.value)
    if datum.value and len(datum.value) > self.index:
        return [DatumInContext(datum.value[self.index], path=self, context=datum)]
    return []
>> *)
Definition find_or_create_step (s : step) (v : value) (st : store)
  : outcome (option value * store) :=
  match s with
  | Fields f =>
      match v with
      | VRef a =>
          match lookup st a with
          | Some (ODict d) =>
              match get (KStr f) d with
              | Some x => Ok (Some x, st)
              | None =>
                  let '(x, st1) := new (ODict []) st in
                  Ok (Some x, assign a (ODict (set (KStr f) x d)) st1)
              end
          | _ => Ok (None, st)
          end
      | _ => Ok (None, st)
      end
  | Index i =>
      match padded i v st with
      | Raise => Raise
      | Ok (w, st1) =>
          if truthy w st1 then
            match length_of w st1 with
            | Raise => Raise
            | Ok n =>
                if n >? i then
                  match item w i st1 with
                  | Ok x => Ok (Some x, st1)
                  | Raise => Raise
                  end
                else Ok (None, st1)
            end
          else Ok (None, st1)
      end
  end.

(** The chain below a step, as [JsonPath.update_chain]. *)
Fixpoint update_chain (rest : list step) (last : step) (val v : value)
         (st : store) : outcome store :=
  match rest with
  | [] => update_step last val v st
  | s :: rest' =>
      match find_or_create_step s v st with
      | Raise => Raise
      | Ok (None, st1) => Ok st1
      | Ok (Some x, st1) => update_chain rest' last val x st1
      end
  end.

(** The two loops of [_clean_list_keys], over the places of the list and
    over the items of the dict at [a]; [rec] is the recursive call. *)
Fixpoint clean_list (rec : value -> store -> outcome (value * store))
         (a : addr) (todo ind : nat) (st : store) : outcome store :=
  match todo with
  | O => Ok st
  | S todo' =>
      match lookup st a with
      | Some (OList l) =>
          match nth_error l ind with
          | Some x =>
              match rec x st with
              | Ok (x', st1) =>
                  match lookup st1 a with
                  | Some (OList l1) =>
                      clean_list rec a todo' (S ind)
                                 (assign a (OList (Py.set_nth ind x' l1)) st1)
                  | _ => Raise
                  end
              | Raise => Raise
              end
          | None => Ok st
          end
      | _ => Raise
      end
  end.

Fixpoint clean_dict (rec : value -> store -> outcome (value * store))
         (a : addr) (todo ind : nat) (st : store) : outcome store :=
  match todo with
  | O => Ok st
  | S todo' =>
      match lookup st a with
      | Some (ODict d) =>
          match nth_error d ind with
          | Some (k, x) =>
              match rec x st with
              | Ok (x', st1) =>
                  match lookup st1 a with
                  | Some (ODict d1) =>
                      clean_dict rec a todo' (S ind)
                                 (assign a (ODict (set k x' d1)) st1)
                  | _ => Raise
                  end
              | Raise => Raise
              end
          | None => Ok st
          end
      | _ => Raise
      end
  end.

(** [_clean_list_keys(struct_)]: what it returns and the store it leaves.
    [depth] bounds the nesting of the calls; a structure that contains
    itself exhausts it, which is the [RecursionError] of the
    interpreter. *)
Fixpoint clean_list_keys (depth : nat) (struct_ : value) (st : store)
  : outcome (value * store) :=
  match depth with
  | O => Raise
  | S depth' =>
      match struct_ with
      | VRef a =>
          match lookup st a with
          | Some (OList l) =>
              match clean_list (clean_list_keys depth') a (List.length l) 0 st with
              | Ok st1 => Ok (struct_, st1)
              | Raise => Raise
              end
          | Some (ODict d) =>
              match get KList d with
              | Some x => clean_list_keys depth' x st
              | None =>
                  match clean_dict (clean_list_keys depth') a (List.length d) 0 st with
                  | Ok st1 => Ok (struct_, st1)
                  | Raise => Raise
                  end
              end
          | None => Ok (struct_, st)
          end
      | _ => Ok (struct_, st)
      end
  end.

(** [expr.update_or_create(obj, value)], as [JsonPath.update_or_create].
    A chain of objects none of which contains itself is no longer than
    the store. *)
Definition update_or_create (p : jsonpath) (obj val : value) (st : store)
  : outcome store :=
  match p with
  | [] => Ok st
  | s :: p' =>
      match update_chain (removelast p) (last p s) val obj st with
      | Raise => Raise
      | Ok st1 =>
          match clean_list_keys (S (List.length st1)) obj st1 with
          | Ok (_, st2) => Ok st2
          | Raise => Raise
          end
      end
  end.

(** ** The program *)

(** [get_value_by_path], lines 46-53. *)
Definition get_value_by_path (obj : value) (path : parsed) (st : store)
  : value :=
  match path with
  | ParseError => VNull
  | Parsed expr =>
      match find expr obj st with
      | Ok (Some v) => v
      | Ok None => VNull
      | Raise => VNull
      end
  end.

(** [set_value_by_path], lines 55-58. *)
Definition set_value_by_path (obj : value) (path : parsed) (value : value)
           (st : store) : outcome store :=
  match path with
  | ParseError => Raise
  | Parsed expr => update_or_create expr obj value st
  end.

(** The body of [remove_value_by_path] below [matches = expr.find(obj)],
    lines 65-76, for the match that the steps [init] and then [final] lead
    to: [parent] is what [init] leads to. *)
Definition remove_match (init : jsonpath) (final : step) (obj : value)
           (st : store) : store :=
  match find init obj st with
  | Ok (Some parent) =>
      match find_step final parent st with
      | Ok (Some _) =>
          match parent, final with
          | VRef a, Fields final_key =>
              match lookup st a with
              | Some (ODict d) => assign a (ODict (del (KStr final_key) d)) st
              | _ => st
              end
          | VRef a, Index final_key =>
              match lookup st a with
              | Some (OList l) =>
                  match Py.list_del l final_key with
                  | Some l' => assign a (OList l') st
                  | None => st
                  end
              | _ => st
              end
          | _, _ => st
          end
      | _ => st
      end
  | _ => st
  end.

(** [remove_value_by_path], lines 60-81. *)
Definition remove_value_by_path (obj : value) (path : parsed) (st : store)
  : store :=
  match path with
  | ParseError => st
  | Parsed [] => st
  | Parsed (s :: p) => remove_match (removelast (s :: p)) (last p s) obj st
  end.

(** An entry of the static configuration with its value in the store. *)
Record entry_ref : Type := {
  r_path : option parsed;
  r_operation : json;
  r_value : option value
}.

(** One turn of the loop of [update_from_static_config], lines 139-170. *)
Definition apply_entry (json_obj : value) (e : entry_ref) (st : store)
  : outcome store :=
  match r_path e with
  | None => Ok st
  | Some path =>
      let operation := r_operation e in
      if negb (Py.truthy operation) then Ok st
      else
        match operation with
        | JStr op =>
            if String.eqb op "update" then
              match r_value e with
              | None => Ok st
              | Some value =>
                  let current_value := get_value_by_path json_obj path st in
                  match current_value with
                  | VNull => set_value_by_path json_obj path value st
                  | _ =>
                      let current_type := get_type_from_value current_value st in
                      let new_type := get_type_from_value value st in
                      if negb (pytype_eqb current_type new_type)
                      then Ok st
                      else set_value_by_path json_obj path value st
                  end
              end
            else if String.eqb op "remove" then
              Ok (remove_value_by_path json_obj path st)
            else Ok st
        | _ => Ok st
        end
  end.

(** [update_from_static_config], lines 136-170. *)
Fixpoint update_from_static_config (json_obj : value)
         (static_config : list entry_ref) (st : store) : outcome store :=
  match static_config with
  | [] => Ok st
  | e :: static_config' =>
      match apply_entry json_obj e st with
      | Ok st1 => update_from_static_config json_obj static_config' st1
      | Raise => Raise
      end
  end.

(** ** Between trees and the store *)

(** The objects of a value as [json.load] has built it, put into the
    store: every list and dict is an object of its own. *)
Fixpoint load (v : json) (st : store) : value * store :=
  match v with
  | JNull => (VNull, st)
  | JBool b => (VBool b, st)
  | JInt n => (VInt n, st)
  | JFloat f => (VFloat f, st)
  | JStr s => (VStr s, st)
  | JList l =>
      let '(xs, st1) :=
        (fix load_items (l : list json) (st : store) : list value * store :=
           match l with
           | [] => ([], st)
           | v' :: l' =>
               let '(x, st1) := load v' st in
               let '(xs, st2) := load_items l' st1 in
               (x :: xs, st2)
           end) l st in
      new (OList xs) st1
  | JDict d =>
      let '(xs, st1) :=
        (fix load_items (d : list (pykey * json)) (st : store)
           : list (pykey * value) * store :=
           match d with
           | [] => ([], st)
           | (k, v') :: d' =>
               let '(x, st1) := load v' st in
               let '(xs, st2) := load_items d' st1 in
               ((k, x) :: xs, st2)
           end) d st in
      new (ODict xs) st1
  end.

Fixpoint load_all (l : list json) (st : store) : list value * store :=
  match l with
  | [] => ([], st)
  | v :: l' =>
      let '(x, st1) := load v st in
      let '(xs, st2) := load_all l' st1 in
      (x :: xs, st2)
  end.

Definition load_entry (e : entry) (st : store) : entry_ref * store :=
  match e_value e with
  | None =>
      ({| r_path := e_path e; r_operation := e_operation e;
          r_value := None |}, st)
  | Some v =>
      let '(x, st1) := load v st in
      ({| r_path := e_path e; r_operation := e_operation e;
          r_value := Some x |}, st1)
  end.

Fixpoint load_config (static_config : list entry) (st : store)
  : list entry_ref * store :=
  match static_config with
  | [] => ([], st)
  | e :: static_config' =>
      let '(x, st1) := load_entry e st in
      let '(xs, st2) := load_config static_config' st1 in
      (x :: xs, st2)
  end.

(** What [json.dump] writes for [v]: an object is written out wherever a
    value refers to it.  [None] is the [ValueError] for a structure that
    contains itself. *)
Fixpoint dump (depth : nat) (v : value) (st : store) : option json :=
  match depth with
  | O => None
  | S depth' =>
      match v with
      | VNull => Some JNull
      | VBool b => Some (JBool b)
      | VInt n => Some (JInt n)
      | VFloat f => Some (JFloat f)
      | VStr s => Some (JStr s)
      | VRef a =>
          match lookup st a with
          | Some (OList l) =>
              option_map JList
                (fold_right (fun x acc =>
                               match dump depth' x st, acc with
                               | Some y, Some ys => Some (y :: ys)
                               | _, _ => None
                               end) (Some []) l)
          | Some (ODict d) =>
              option_map JDict
                (fold_right (fun kx acc =>
                               match dump depth' (snd kx) st, acc with
                               | Some y, Some ys => Some ((fst kx, y) :: ys)
                               | _, _ => None
                               end) (Some []) d)
          | None => None
          end
      end
  end.

Fixpoint dump_all (l : list value) (st : store) : option (list json) :=
  match l with
  | [] => Some []
  | v :: l' =>
      match dump (S (List.length st)) v st, dump_all l' st with
      | Some y, Some ys => Some (y :: ys)
      | _, _ => None
      end
  end.

End Heap.

(** How a run of [main] ends. *)
Inductive run : Type :=
| Saved (json_data : json)    (* [save_json(json_data, output_file)] is reached *)
| Uncaught                    (* an exception leaves [main] *)
| Exit1.                      (* [sys.exit(1)] *)

(** [row.get("ID") == obj.get("id")] for a dict [obj]: a missing column and
    a missing or null field are both [None]. *)
Definition same_id (row : csv_row_t) (obj : pydict) : bool :=
  match row_get "ID" row, Py.dict_get (KStr "id") obj with
  | None, None => true
  | None, Some JNull => true
  | Some a, Some (JStr b) => String.eqb a b
  | _, _ => false
  end.

Section Main.

Variable json_loads : string -> option json.
Variable mapping : mapping_t.
Variable static_config : list entry.

(** Lines 196-201: the first matching row is applied, then [break]. *)
Fixpoint csv_first_match (json_data : pydict) (csv_data : list csv_row_t)
  : effect :=
  match csv_data with
  | [] => Done (JDict json_data)
  | row :: csv_data' =>
      if same_id row json_data
      then update_from_csv json_loads (JDict json_data) row mapping
      else csv_first_match json_data csv_data'
  end.

(** Lines 209-211, the inner loop: one row against every object. *)
Fixpoint csv_row_over (row : csv_row_t) (json_data : list json)
  : outcome (list json) :=
  match json_data with
  | [] => Ok []
  | obj :: json_data' =>
      match obj with
      | JDict d =>
          let after :=
            if same_id row d
            then update_from_csv json_loads obj row mapping
            else Done obj in
          match after with
          | Raised _ => Raise
          | Done obj' =>
              match csv_row_over row json_data' with
              | Ok rest => Ok (obj' :: rest)
              | Raise => Raise
              end
          end
      | _ => Raise                       (* [obj.get]: AttributeError *)
      end
  end.

(** Lines 208-211, the outer loop. *)
Fixpoint csv_over (csv_data : list csv_row_t) (json_data : list json)
  : outcome (list json) :=
  match csv_data with
  | [] => Ok json_data
  | row :: csv_data' =>
      match csv_row_over row json_data with
      | Ok json_data' => csv_over csv_data' json_data'
      | Raise => Raise
      end
  end.

(** Lines 214-215 on the store: one call of [update_from_static_config]
    after the other, each on the store the one before has left. *)
Fixpoint static_loop (json_data : list Heap.value)
         (config : list Heap.entry_ref) (st : Heap.store)
  : outcome Heap.store :=
  match json_data with
  | [] => Ok st
  | obj :: json_data' =>
      match Heap.update_from_static_config obj config st with
      | Ok st1 => static_loop json_data' config st1
      | Raise => Raise
      end
  end.

(** Lines 214-215.  The objects of the list and the values of the entries
    are the objects that [json.load] has built; the result is the list as
    [json.dump] writes it afterwards. *)
Definition static_over (json_data : list json) : outcome (list json) :=
  let '(objs, st0) := Heap.load_all json_data [] in
  let '(config, st1) := Heap.load_config static_config st0 in
  match static_loop objs config st1 with
  | Ok st2 =>
      match Heap.dump_all objs st2 with
      | Some json_data' => Ok json_data'
      | None => Raise
      end
  | Raise => Raise
  end.

(** [main] from line 194 on, with the four files already loaded.

    The program inserts the value of an update entry by reference.  For
    one document that cannot be told apart from a copy: an entry is
    applied once, its value is in one place, and the document is a tree.
    In a list of objects the value goes into every object, and the
    override pass runs on the store ([Heap]). *)
Definition main (json_data : json) (csv_data : list csv_row_t) : run :=
  match json_data with
  | JDict d =>
      match csv_first_match d csv_data with
      | Raised _ => Uncaught
      | Done json_data' =>
          match update_from_static_config json_data' static_config with
          | Raised _ => Uncaught
          | Done json_data'' => Saved json_data''
          end
      end
  | JList l =>
      match csv_over csv_data l with
      | Raise => Uncaught
      | Ok l' =>
          match static_over l' with
          | Raise => Uncaught
          | Ok l'' => Saved (JList l'')
          end
      end
  | _ => Exit1
  end.

End Main.

(* ================================================================== *)
(** * Vocabulary of the properties *)

(** A value as [json.load] builds it: every key of every dict is a string. *)
Fixpoint is_json (v : json) : bool :=
  match v with
  | JList l => forallb is_json l
  | JDict d =>
      forallb (fun kv => match fst kv with
                         | KStr _ => is_json (snd kv)
                         | _ => false
                         end) d
  | _ => true
  end.

(** A JSON object written with its string keys. *)
Definition object (fields : list (string * json)) : json :=
  JDict (map (fun kv => (KStr (fst kv), snd kv)) fields).

(** The path [$.f1.f2...fn]. *)
Definition dotted (names : list string) : jsonpath := map Fields names.

(** The existing part of [$.f1...fn] in [v] is map-shaped: wherever a name
    has to be looked up, the value at hand is a dict. *)
Fixpoint map_shaped (names : list string) (v : json) : bool :=
  match names with
  | [] => true
  | f :: names' =>
      match v with
      | JDict d =>
          match Py.dict_get (KStr f) d with
          | Some x => map_shaped names' x
          | None => true
          end
      | _ => false
      end
  end.




(** The current value is a number and the text does not read as one: the
    case in which [cast_value] falls back to the text itself. *)
Definition unread_number (text : string) (cur : json) : bool :=
  match cur with
  | JInt _ => match Builtin.int text with None => true | Some _ => false end
  | JFloat _ => match Builtin.float text with None => true | Some _ => false end
  | _ => false
  end.

(** An update entry and a remove entry of the static configuration. *)
Definition update_entry (path : parsed) (value : json) : entry :=
  {| e_path := Some path; e_operation := JStr "update"; e_value := Some value |}.

Definition remove_entry (path : parsed) : entry :=
  {| e_path := Some path; e_operation := JStr "remove"; e_value := None |}.

(** A decoder that rejects every token, for closed examples whose tokens
    never reach [json.loads]. *)
Definition rejecting_loads : string -> option json := fun _ => None.

(** ** The run over a list of objects, in the words of the specification *)

Section ListRun.

Variable json_loads : string -> option json.
Variable mapping : mapping_t.
Variable static_config : list entry.





End ListRun.

(** ** Vocabulary of the further properties *)

(** The value is neither [None] nor a dict: a field cannot be written
    into it. *)
Definition rejects_fields (x : json) : bool :=
  match x with
  | JNull | JDict _ => false
  | _ => true
  end.

(** The document [v] with [c] in the place that the steps [p] lead to. *)
Fixpoint plug_path (p : jsonpath) (c v : json) : json :=
  match p with
  | [] => c
  | s :: p' =>
      match JsonPath.find_step s v with
      | Ok (Some x) => JsonPath.plug s (plug_path p' c x) v
      | _ => v
      end
  end.

(** The value a field step of [find_or_create] goes on with: the value of
    the field, or the empty dict it puts there. *)
Definition entered (g : string) (d : pydict) : json :=
  match Py.dict_get (KStr g) d with
  | Some x => x
  | None => JsonPath.empty_dict
  end.

Definition is_field (s : step) : bool :=
  match s with Fields _ => true | Index _ => false end.

(** The path text has no bracketed index: it does not parse, or it parses
    to [$] followed by field names. *)
Definition no_index (p : parsed) : bool :=
  match p with
  | Parsed l => forallb is_field l
  | ParseError => true
  end.

(** An update entry that is carried out writes a JSON value at a path
    without index. *)
Definition plain_entry (e : entry) : bool :=
  match e_operation e, e_path e, e_value e with
  | JStr op, Some p, Some v =>
      if String.eqb op "update" then no_index p && is_json v else true
  | _, _, _ => true
  end.

(** The mapping entry is one that [update_from_csv] goes on with: its
    column is in the row and is not the [ID] column (line 113). *)
Definition merged_column (row : csv_row_t) (kp : string * parsed) : bool :=
  match row_get (fst kp) row with
  | Some _ => negb (String.eqb (fst kp) "ID")
  | None => false
  end.

(** The entry is one that [update_from_static_config] carries out: it has a
    path, and its operation is [remove], or [update] with a value (lines
    143-154). *)
Definition carried_out (e : entry) : bool :=
  match e_path e, e_operation e with
  | Some _, JStr op =>
      (String.eqb op "update"
       && match e_value e with Some _ => true | None => false end)
      || String.eqb op "remove"
  | _, _ => false
  end.

Definition is_object (v : json) : bool :=
  match v with JDict _ => true | _ => false end.

(** The object has an [id] that is neither a string nor null: a number, a
    boolean, a list or an object. *)
Definition id_not_text (obj : json) : bool :=
  match obj with
  | JDict d =>
      match Py.dict_get (KStr "id") d with
      | Some (JStr _) | Some JNull | None => false
      | Some _ => true
      end
  | _ => false
  end.

(** What an empty cell makes of a field, by the type of the value the
    field holds. *)
Definition emptied (cur : json) : json :=
  match cur with
  | JBool _ => JBool false
  | JList _ => JList []
  | JDict _ => JDict []
  | _ => JStr ""
  end.

(* ================================================================== *)
(** * The embedding on known values *)

Example int_reads :
  map Builtin.int [" 12 "; "+5"; "-0"; "1_000"; "007"]
  = [Some 12; Some 5; Some 0; Some 1000; Some 7]
  /\ map Builtin.int [""; "abc"; "1.5"; "1__0"; "_1"; "1_"; "+ 5"; "0x10"]
     = [None; None; None; None; None; None; None; None].
Proof. split; reflexivity. Qed.

Example float_reads :
  map Builtin.float ["0.1"; "1e22"; "5e-324"; "-0.0"; " inf "; "1e400"; ".5"]
  = [Some (S754_finite false 7205759403792794 (-56));
     Some (S754_finite false 4768371582031250 21);
     Some (S754_finite false 1 (-1074));
     Some (S754_zero true);
     Some (S754_infinity false);
     Some (S754_infinity false);
     Some (S754_finite false 4503599627370496 (-53))]
  /\ map Builtin.float [""; "abc"; "."; "1e"; "1_e5"; "0x1p3"]
     = [None; None; None; None; None; None].
Proof. split; vm_compute; reflexivity. Qed.

(** [repr(float(s))] for a few literals. *)
Example float_prints :
  map (fun s => option_map Builtin.str_float (Builtin.float s))
      ["0.1"; "0.30000000000000004"; "1e16"; "1e15"; "1e-5"; "0.0001";
       "100"; "9007199254740993"; "1e23"; "5e-324";
       "1.7976931348623157e308"; "0.3333333333333333333"; "-2.5e-7"]
  = map Some
      ["0.1"; "0.30000000000000004"; "1e+16"; "1000000000000000.0"; "1e-05";
       "0.0001"; "100.0"; "9007199254740992.0"; "1e+23"; "5e-324";
       "1.7976931348623157e+308"; "0.3333333333333333"; "-2.5e-07"].
Proof. vm_compute. reflexivity. Qed.

(** [float(repr(x))] gives [x] back on a few floats. *)
Example float_reads_its_print :
  forallb (fun x => match Builtin.float (Builtin.str_float x) with
                    | Some y => Builtin.same_float x y
                    | None => false
                    end)
          [S754_finite false 7205759403792794 (-56);    (* 0.1 *)
           S754_finite true 6755399441055744 (-52);     (* -1.5 *)
           S754_finite false 4768371582031250 21;       (* 1e22 *)
           S754_finite false 1 (-1074);                 (* 5e-324 *)
           S754_finite false 9007199254740991 971;      (* the largest *)
           S754_finite false 4503599627370496 (-1074);  (* the least normal *)
           S754_finite false 6004799503160661 (-54)]    (* 1/3 *)
  = true.
Proof. vm_compute. reflexivity. Qed.

Example lower_text : Builtin.lower "TrUe" = "true".
Proof. reflexivity. Qed.

(** The library's own examples of [update_or_create]: [foo[5]] on [{}]
    pads the new list with empty dicts. *)
Example create_through_index :
  JsonPath.update_or_create [Fields "foo"; Index 5] (object []) (JInt 42)
  = Done (object [("foo", JList [JDict []; JDict []; JDict []; JDict [];
                                 JDict []; JInt 42])])
  /\ JsonPath.update_or_create [Fields "foo"; Index 0; Fields "bar"]
                               (object []) (JInt 42)
     = Done (object [("foo", JList [object [("bar", JInt 42)]])])
  /\ JsonPath.update_or_create [Fields "foo"; Index 1; Index 1]
                               (object []) (JInt 42)
     = Done (object [("foo", JList [JDict []; JList [JDict []; JInt 42]])]).
Proof. repeat split. Qed.

(** Scenario B of the specification: a new string field is created. *)
Example scenario_b_new_field json_loads :
  update_from_csv json_loads (object [("id", JStr "1")])
                  [("ID", "1"); ("tag", "new")]
                  [("tag", Parsed (dotted ["tag"]))]
  = Done (object [("id", JStr "1"); ("tag", JStr "new")]).
Proof. reflexivity. Qed.

(** Scenario D of the specification: a remove entry. *)
Example scenario_d_remove :
  update_from_static_config (object [("obsolete", JInt 1); ("x", JInt 2)])
                            [remove_entry (Parsed (dotted ["obsolete"]))]
  = Done (object [("x", JInt 2)]).
Proof. reflexivity. Qed.

(** The value of an update entry is one object in every document of a
    list.  With [update $.a := [1, 2, 3]] and [remove $.a[0]], each of the
    two documents gets the list, and each pass takes one element from
    it. *)
Example entry_value_is_shared :
  main rejecting_loads []
       [update_entry (Parsed [Fields "a"]) (JList [JInt 1; JInt 2; JInt 3]);
        remove_entry (Parsed [Fields "a"; Index 0])]
       (JList [object []; object []]) []
  = Saved (JList [object [("a", JList [JInt 3])];
                  object [("a", JList [JInt 3])]]).
Proof. reflexivity. Qed.

(** What the pass over the first document leaves in the value of an entry
    decides how the pass over the second goes: here [$.a.b] holds [5] when
    the second document gets the dict, and the write to [$.a.b.c] raises.
    On the first document alone the entries run through. *)
Example shared_value_makes_later_pass_raise :
  let static_config :=
    [update_entry (Parsed (dotted ["a"])) (object [("b", object [])]);
     update_entry (Parsed (dotted ["a"; "b"; "c"])) (JInt 1);
     remove_entry (Parsed (dotted ["a"; "b"]));
     update_entry (Parsed (dotted ["a"; "b"])) (JInt 5)] in
  main rejecting_loads [] static_config (JList [object []; object []]) []
  = Uncaught
  /\ main rejecting_loads [] static_config (JList [object []]) []
     = Saved (JList [object [("a", object [("b", JInt 5)])]])
  /\ main rejecting_loads [] static_config (object []) []
     = Saved (object [("a", object [("b", JInt 5)])]).
Proof. repeat split. Qed.

(* ================================================================== *)
(** * Facts about the containers *)

Lemma pykey_eqb_refl k : pykey_eqb k k = true.
Proof.
  destruct k; unfold pykey_eqb; auto using String.eqb_refl, Z.eqb_refl.
Qed.

Lemma pykey_eqb_eq a b : pykey_eqb a b = true <-> a = b.
Proof.
  destruct a, b; unfold pykey_eqb; split; intros H;
    try discriminate; try reflexivity.
  - apply String.eqb_eq in H. now subst.
  - inversion H. apply String.eqb_refl.
  - apply Z.eqb_eq in H. now subst.
  - inversion H. apply Z.eqb_refl.
Qed.

Arguments pykey_eqb : simpl never.

Lemma pytype_eqb_eq a b : pytype_eqb a b = true <-> a = b.
Proof. destruct a, b; simpl; split; intros H; congruence. Qed.

Section DictFacts.
Import Py.

Lemma dict_get_set_same k v d : dict_get k (dict_set k v d) = Some v.
Proof.
  induction d as [|[k' v'] d IH]; simpl.
  - now rewrite pykey_eqb_refl.
  - destruct (pykey_eqb k k') eqn:E; simpl; rewrite E; auto.
Qed.

Lemma dict_get_del_same k d : dict_get k (dict_del k d) = None.
Proof.
  induction d as [|[k' v'] d IH]; simpl; auto.
  destruct (pykey_eqb k k') eqn:E; simpl; auto. now rewrite E.
Qed.

Lemma dict_set_length k v d x :
  dict_get k d = Some x -> List.length (dict_set k v d) = List.length d.
Proof.
  induction d as [|[k' v'] d IH]; simpl; intros H; try discriminate.
  destruct (pykey_eqb k k'); simpl; auto.
Qed.

Lemma dict_set_not_nil k v d : dict_set k v d <> [].
Proof.
  destruct d as [|[k' v'] d]; simpl; try discriminate.
  destruct (pykey_eqb k k'); discriminate.
Qed.

Lemma dict_get_json k d x :
  is_json (JDict d) = true -> dict_get k d = Some x -> is_json x = true.
Proof.
  induction d as [|[k' v'] d IH]; simpl; intros Hj H; try discriminate.
  apply andb_true_iff in Hj as [Hk Hd].
  destruct (pykey_eqb k k').
  - inversion H; subst. destruct k'; auto; discriminate.
  - apply IH; auto.
Qed.

Lemma dict_set_json f v d :
  is_json (JDict d) = true -> is_json v = true ->
  is_json (JDict (dict_set (KStr f) v d)) = true.
Proof.
  induction d as [|[k' v'] d IH]; simpl; intros Hj Hv.
  - now rewrite Hv.
  - apply andb_true_iff in Hj as [Hk Hd].
    destruct (pykey_eqb (KStr f) k') eqn:E; simpl.
    + apply pykey_eqb_eq in E; subst. simpl. now rewrite Hv.
    + rewrite Hk. simpl. now apply IH.
Qed.

Lemma dict_get_int_json i d :
  is_json (JDict d) = true -> dict_get (KInt i) d = None.
Proof.
  induction d as [|[k' v'] d IH]; simpl; intros Hj; auto.
  apply andb_true_iff in Hj as [Hk Hd].
  destruct k'; simpl in *; try discriminate. now apply IH.
Qed.

Lemma dict_get_list_json d :
  is_json (JDict d) = true -> dict_get KList d = None.
Proof.
  induction d as [|[k' v'] d IH]; simpl; intros Hj; auto.
  apply andb_true_iff in Hj as [Hk Hd].
  destruct k'; simpl in *; try discriminate. now apply IH.
Qed.

End DictFacts.

Section ListFacts.
Import Py.
Context {A : Type}.

Lemma set_nth_length n (x : A) l : List.length (set_nth n x l) = List.length l.
Proof.
  revert n; induction l as [|y l IH]; intros [|n]; simpl; auto.
Qed.

Lemma nth_error_set_nth n (x : A) l :
  (n < List.length l)%nat -> nth_error (set_nth n x l) n = Some x.
Proof.
  revert n; induction l as [|y l IH]; intros [|n]; simpl; intros H;
    try lia; auto.
  apply IH. lia.
Qed.

Lemma position_bound n i k :
  position n i = Some k -> (k < Z.to_nat n)%nat.
Proof.
  unfold position.
  destruct ((0 <=? i) && (i <? n)) eqn:E1.
  - intros H; inversion H; subst. apply andb_true_iff in E1 as [H1 H2].
    apply Z.leb_le in H1. apply Z.ltb_lt in H2. lia.
  - destruct ((i <? 0) && (- n <=? i)) eqn:E2; try discriminate.
    intros H; inversion H; subst. apply andb_true_iff in E2 as [H1 H2].
    apply Z.ltb_lt in H1. apply Z.leb_le in H2. lia.
Qed.

Lemma len_set_nth n (x : A) l : len (set_nth n x l) = len l.
Proof. unfold len. now rewrite set_nth_length. Qed.

Lemma list_get_set (l l' : list A) i x :
  list_set l i x = Some l' -> list_get l' i = Some x /\ len l' = len l.
Proof.
  unfold list_set, list_get.
  destruct (position (len l) i) as [k|] eqn:E; try discriminate.
  intros H; inversion H; subst. rewrite len_set_nth, E. split; auto.
  apply nth_error_set_nth. apply position_bound in E.
  unfold len in E. now rewrite Nat2Z.id in E.
Qed.

Lemma list_get_some_set (l : list A) i y x :
  list_get l i = Some y -> exists l', list_set l i x = Some l'.
Proof.
  unfold list_set, list_get.
  destruct (position (len l) i) as [k|]; try discriminate.
  intros _. eauto.
Qed.


End ListFacts.

Lemma is_json_nth l n x :
  is_json (JList l) = true -> nth_error l n = Some x -> is_json x = true.
Proof.
  simpl. intros H Hn. rewrite forallb_forall in H. apply H.
  eapply nth_error_In; eauto.
Qed.

Lemma is_json_set_nth l n x :
  is_json (JList l) = true -> is_json x = true ->
  is_json (JList (Py.set_nth n x l)) = true.
Proof.
  simpl. revert n. induction l as [|y l IH]; intros [|n]; simpl; intros H Hx;
    auto; apply andb_true_iff in H as [H1 H2]; rewrite ?Hx, ?H1; simpl; auto.
Qed.

(* ================================================================== *)
(** * Facts about the path library *)

Section PathFacts.
Import Py JsonPath.

Lemma dict_set_get_same k d x :
  dict_get k d = Some x -> dict_set k x d = d.
Proof.
  induction d as [|[k' v'] d IH]; simpl; intros H; try discriminate.
  destruct (pykey_eqb k k') eqn:E.
  - now inversion H.
  - f_equal. now apply IH.
Qed.

Lemma set_nth_same {A} n (x : A) l :
  nth_error l n = Some x -> set_nth n x l = l.
Proof.
  revert n; induction l as [|y l IH]; intros [|n]; simpl; intros H;
    try discriminate; auto.
  - now inversion H.
  - f_equal. now apply IH.
Qed.

Lemma list_set_get_same {A} (l : list A) i x :
  list_get l i = Some x -> list_set l i x = Some l.
Proof.
  unfold list_get, list_set.
  destruct (position (len l) i); try discriminate.
  intros H. now rewrite set_nth_same.
Qed.

(** What a successful [Index.find] says about the datum. *)
Lemma find_index_inv i v x :
  find_step (Index i) v = Ok (Some x) ->
  truthy v = true /\
  exists n, length_of v = Ok n /\ (n >? i) = true /\ item v i = Ok x.
Proof.
  simpl. destruct (truthy v); try discriminate.
  destruct (length_of v) as [n|]; try discriminate.
  destruct (n >? i) eqn:E; try discriminate.
  destruct (item v i) as [y|]; try discriminate.
  intros H; inversion H; subst. eauto.
Qed.

Lemma pad_value_long i v n :
  length_of v = Ok n -> (n >? i) = true -> pad_value i v = Ok v.
Proof.
  unfold pad_value. intros -> H.
  destruct (n <=? i) eqn:E; auto.
  apply Z.leb_le in E. apply Z.gtb_lt in H. lia.
Qed.

(** Along a path that resolves, [find_or_create] creates nothing. *)
Lemma create_index_resolved i v x :
  find_step (Index i) v = Ok (Some x) ->
  create_index i v = (v, Ok (Some x)).
Proof.
  intros H. apply find_index_inv in H as (Ht & n & Hn & Hi & Hx).
  unfold create_index. rewrite (pad_value_long _ _ _ Hn Hi), Ht, Hn, Hi, Hx.
  reflexivity.
Qed.

End PathFacts.

Section Resolved.
Import Py JsonPath.

Lemma update_index_list i val l x :
  list_get l i = Some x -> l <> [] -> (len l >? i) = true ->
  exists l', list_set l i val = Some l' /\
             update_index i val (JList l) = Done (JList l').
Proof.
  intros Hx Hl Hi.
  destruct (list_get_some_set l i x val Hx) as [l' Hl'].
  exists l'. split; auto.
  unfold update_index.
  rewrite (pad_value_long i (JList l) (len l) eq_refl Hi).
  simpl. rewrite Hi, Hl'. reflexivity.
Qed.

Lemma update_index_str i val s :
  (len (chars s) >? i) = true ->
  update_index i val (JStr s) = Raised (JStr s).
Proof.
  intros Hi. unfold update_index.
  rewrite (pad_value_long i (JStr s) _ eq_refl Hi).
  simpl. now rewrite Hi.
Qed.

Lemma find_index_list l l' i x :
  l <> [] -> (len l >? i) = true -> list_set l i x = Some l' ->
  find_step (Index i) (JList l') = Ok (Some x).
Proof.
  intros Hl Hi Hs. apply list_get_set in Hs as [Hg Hlen].
  assert (l' <> []) as Hl'.
  { intros ->. destruct l; try congruence. unfold len in Hlen. simpl in Hlen. lia. }
  simpl. destruct l' as [|y l']; try congruence.
  rewrite Hlen, Hi, Hg. reflexivity.
Qed.

(** Writing along a path that resolves: the value is stored where [find]
    looks for it, unless the last container is a string, which raises
    and leaves everything as it was. *)
Lemma update_chain_resolved rest last val : forall v cur,
  is_json v = true -> is_json val = true ->
  find (rest ++ [last]) v = Ok (Some cur) ->
  (exists v', update_chain rest last val v = Done v' /\
              find (rest ++ [last]) v' = Ok (Some val) /\
              is_json v' = true /\
              (forall s, v <> JStr s))
  \/ (update_chain rest last val v = Raised v /\ exists s, cur = JStr s).
Proof.
  induction rest as [|s rest IH]; intros v cur Hv Hval Hf.
  - (* the last step *)
    simpl in Hf. destruct (find_step last v) as [[x|]|] eqn:E; try discriminate.
    inversion Hf; subst x; clear Hf.
    destruct last as [f|i].
    + destruct v; simpl in E; try discriminate.
      left. exists (JDict (dict_set (KStr f) val d)). simpl.
      rewrite dict_get_set_same. repeat split; auto.
      * now apply dict_set_json.
      * discriminate.
    + pose proof (find_index_inv _ _ _ E) as (Ht & n & Hn & Hi & Hx).
      destruct v; simpl in Hn, Hx; try discriminate.
      * (* a string *)
        right. inversion Hn; subst n. split.
        -- simpl. now apply update_index_str.
        -- destruct (str_get s i); try discriminate. inversion Hx. eauto.
      * (* a list *)
        left. inversion Hn; subst n.
        destruct (list_get l i) as [y|] eqn:Hg; try discriminate.
        assert (l <> []) as Hl by (intros ->; discriminate).
        destruct (update_index_list i val l y Hg Hl Hi) as (l' & Hs & Hu).
        exists (JList l'). simpl. rewrite Hu.
        pose proof (find_index_list l l' i val Hl Hi Hs) as Hf'.
        simpl in Hf'. rewrite Hf'. repeat split; auto.
        ++ unfold list_set in Hs. destruct (position (len l) i); try discriminate.
           inversion Hs. now apply is_json_set_nth.
        ++ discriminate.
      * (* a dict read with an integer *)
        rewrite (dict_get_int_json i d Hv) in Hx. discriminate.
  - (* a step of the left side *)
    simpl in Hf. destruct (find_step s v) as [[x|]|] eqn:E; try discriminate.
    destruct s as [f|i].
    + destruct v; simpl in E; try discriminate. inversion E as [Hd].
      assert (is_json x = true) as Hx by (eapply dict_get_json; eauto).
      simpl. rewrite Hd.
      destruct (IH x cur Hx Hval Hf) as [(x' & Hu & Hf' & Hj & _)|(Hu & Hs)].
      * left. exists (JDict (dict_set (KStr f) x' d)). rewrite Hu. simpl.
        rewrite dict_get_set_same. repeat split; auto.
        -- now apply dict_set_json.
        -- discriminate.
      * right. rewrite Hu. simpl. rewrite (dict_set_get_same _ _ _ Hd). auto.
    + pose proof (find_index_inv _ _ _ E) as (Ht & n & Hn & Hi & Hx).
      pose proof (create_index_resolved _ _ _ E) as Hc.
      destruct v; simpl in Hn, Hx; try discriminate.
      * (* below a string *)
        destruct (str_get s i) as [c|] eqn:Hc'; try discriminate.
        inversion Hx; subst x.
        simpl update_chain. rewrite Hc.
        destruct (IH (JStr c) cur eq_refl Hval Hf) as [(x' & _ & _ & _ & Hno)|(Hu & Hs)].
        -- exfalso. now apply (Hno c).
        -- right. rewrite Hu. simpl. auto.
      * (* below a list *)
        inversion Hn; subst n.
        destruct (list_get l i) as [y|] eqn:Hg; try discriminate.
        inversion Hx; subst y.
        assert (l <> []) as Hl by (intros ->; discriminate).
        assert (is_json x = true) as Hjx.
        { unfold list_get in Hg. destruct (position (len l) i); try discriminate.
          eapply is_json_nth; eauto. }
        simpl update_chain. rewrite Hc.
        destruct (IH x cur Hjx Hval Hf) as [(x' & Hu & Hf' & Hj & _)|(Hu & Hs)].
        -- left. destruct (list_get_some_set l i x x' Hg) as [l' Hs].
           exists (JList l'). rewrite Hu. simpl. rewrite Hs.
           pose proof (find_index_list l l' i x' Hl Hi Hs) as Hfi.
           simpl in Hfi. rewrite Hfi. repeat split; auto.
           ++ unfold list_set in Hs. destruct (position (len l) i); try discriminate.
              inversion Hs. now apply is_json_set_nth.
           ++ discriminate.
        -- right. rewrite Hu. simpl. rewrite (list_set_get_same _ _ _ Hg). auto.
      * rewrite (dict_get_int_json i d Hv) in Hx. discriminate.
Qed.
End Resolved.

(** Induction on a value with the hypothesis for every element of a list
    and every value of a dict. *)
Lemma json_induction (P : json -> Prop) :
  P JNull ->
  (forall b, P (JBool b)) ->
  (forall n, P (JInt n)) ->
  (forall x, P (JFloat x)) ->
  (forall s, P (JStr s)) ->
  (forall l, Forall P l -> P (JList l)) ->
  (forall d, Forall (fun kv => P (snd kv)) d -> P (JDict d)) ->
  forall v, P v.
Proof.
  intros Hnull Hbool Hint Hfloat Hstr Hlist Hdict.
  fix self 1. intros [ | b | n | x | s | l | d ].
  - exact Hnull.
  - apply Hbool.
  - apply Hint.
  - apply Hfloat.
  - apply Hstr.
  - apply Hlist. induction l as [|y l IHl]; constructor.
    + apply self.
    + exact IHl.
  - apply Hdict. induction d as [|[k y] d IHd]; constructor.
    + apply self.
    + exact IHd.
Qed.

Section CleanFacts.
Import Py JsonPath.

(** [_clean_list_keys] finds nothing to do in a value of [json.load]. *)
Lemma cleaned_json v : is_json v = true -> cleaned v = v.
Proof.
  induction v as [ | | | | | l IH | d IH ] using json_induction; auto;
    intros Hj; simpl in Hj; rewrite forallb_forall in Hj.
  - simpl. f_equal.
    induction l as [|y l IHl]; simpl; auto.
    inversion IH; subst. f_equal.
    + apply H1. apply Hj. now left.
    + apply IHl; auto. intros z Hz. apply Hj. now right.
  - assert (map (fun kv => (fst kv, cleaned (snd kv))) d = d) as Hd.
    { induction d as [|[k y] d IHd]; simpl; auto.
      inversion IH; subst. f_equal.
      - f_equal. apply H1. specialize (Hj (k, y) (or_introl eq_refl)).
        simpl in Hj. now destruct k.
      - apply IHd; auto. intros z Hz. apply Hj. now right. }
    simpl. rewrite Hd.
    rewrite dict_get_list_json; auto.
    simpl. now apply forallb_forall.
Qed.

Lemma clean_in_place_json v : is_json v = true -> clean_in_place v = v.
Proof.
  intros Hj. destruct v; auto; try (now apply cleaned_json).
  unfold clean_in_place. rewrite (dict_get_list_json d Hj).
  now apply cleaned_json.
Qed.

End CleanFacts.

(* ================================================================== *)
(** * Facts about the program *)

Section ProgramFacts.
Import Py JsonPath.

Lemma find_nonempty_split (p : jsonpath) s p' :
  p = s :: p' -> p = removelast p ++ [last p s].
Proof.
  intros ->. apply app_removelast_last. discriminate.
Qed.

(** [set_value_by_path] on a path that resolves. *)
Lemma set_resolved obj p val cur :
  is_json obj = true -> is_json val = true -> p <> [] ->
  find p obj = Ok (Some cur) ->
  (exists obj', set_value_by_path obj (Parsed p) val = Done obj' /\
                find p obj' = Ok (Some val) /\ is_json obj' = true)
  \/ (set_value_by_path obj (Parsed p) val = Raised obj /\
      exists s, cur = JStr s).
Proof.
  intros Hj Hv Hp Hf. destruct p as [|s p']; try congruence.
  pose proof (find_nonempty_split (s :: p') s p' eq_refl) as Hsplit.
  unfold set_value_by_path, update_or_create.
  rewrite Hsplit in Hf.
  destruct (update_chain_resolved _ _ val obj cur Hj Hv Hf)
    as [(obj' & Hu & Hf' & Hj' & _)|(Hu & Hs)].
  - left. exists obj'. rewrite Hu, (clean_in_place_json _ Hj').
    rewrite Hsplit. auto.
  - right. rewrite Hu. auto.
Qed.

Lemma get_value_resolved obj p v :
  find p obj = Ok (Some v) -> get_value_by_path obj (Parsed p) = v.
Proof. unfold get_value_by_path. now intros ->. Qed.

End ProgramFacts.

(* ================================================================== *)
(** * The properties of the specification *)

(** C3 (Scenario A).  The table merge of row [{"ID":"1","count":"9"}] under
    the mapping [{"count":"$.count"}] into [{"id":"1","count":5}] leaves
    exactly [{"id":"1","count":9}]: the text "9" is stored as the integer 9,
    the type of the field it replaces, and not as the string "9". *)
Theorem scenario_a_text_cast_to_integer :
  forall json_loads,
    let document := object [("id", JStr "1"); ("count", JInt 5)] in
    let row := [("ID", "1"); ("count", "9")] in
    let mapping := [("count", Parsed (dotted ["count"]))] in
    update_from_csv json_loads document row mapping
    = Done (object [("id", JStr "1"); ("count", JInt 9)])
    /\ update_from_csv json_loads document row mapping
       <> Done (object [("id", JStr "1"); ("count", JStr "9")]).
Proof.
  intros json_loads. split.
  - reflexivity.
  - discriminate.
Qed.

(** C4.  An update entry whose path resolves to a value that is not null
    and whose type differs from the type of the entry's value is skipped:
    the document stays as it was.  In Scenario C the value [true] meets the
    string "yes" at [$.flag]. *)
Theorem update_entry_type_mismatch_skipped :
  forall (obj : json) (path : parsed) (value : json),
    get_value_by_path obj path <> JNull ->
    get_type_from_value (get_value_by_path obj path)
      <> get_type_from_value value ->
    apply_entry obj (update_entry path value) = Done obj
    /\ update_from_static_config obj [update_entry path value] = Done obj.
Proof.
  intros obj path value Hnull Htype.
  assert (apply_entry obj (update_entry path value) = Done obj) as H.
  { unfold apply_entry, update_entry. simpl.
    revert Hnull Htype.
    destruct (get_value_by_path obj path) eqn:E; intros Hnull Htype;
      try congruence;
      match goal with
      | |- (if negb (pytype_eqb ?a ?b) then _ else _) = _ =>
          destruct (pytype_eqb a b) eqn:Et;
          [apply pytype_eqb_eq in Et; now elim Htype | reflexivity]
      end. }
  split; auto. simpl. now rewrite H.
Qed.

(** Scenario C: [{"path":"$.flag","operation":"update","value":true}] on
    [{"flag":"yes"}] changes nothing. *)
Lemma scenario_c_bool_over_string :
  update_from_static_config
    (object [("flag", JStr "yes")])
    [update_entry (Parsed (dotted ["flag"])) (JBool true)]
  = Done (object [("flag", JStr "yes")]).
Proof.
  apply (update_entry_type_mismatch_skipped
           (object [("flag", JStr "yes")])
           (Parsed (dotted ["flag"])) (JBool true)).
  - simpl. discriminate.
  - simpl. discriminate.
Defined.

(** C2.  The run does not always reach the save: [set_value_by_path] has no
    handler of its own, the two mergers call it outside any [try] when they
    create a path, and so an upsert that fails ends the run with an
    uncaught exception.  Here the document is [{"x":5}] and the entry is
    [{"path":"$.x.y","operation":"update","value":1}]; the same happens in
    the table merge, and with a path text that does not parse. *)
Theorem run_ends_in_uncaught_exception :
  let document := object [("x", JInt 5)] in
  let entry := update_entry (Parsed (dotted ["x"; "y"])) (JInt 1) in
  update_from_static_config document [entry] = Raised document
  /\ (forall json_loads, main json_loads [] [entry] document [] = Uncaught)
  /\ (forall json_loads,
        update_from_csv json_loads (object [("id", JStr "1"); ("x", JInt 5)])
                        [("ID", "1"); ("a", "t")]
                        [("a", Parsed (dotted ["x"; "y"]))]
        = Raised (object [("id", JStr "1"); ("x", JInt 5)]))
  /\ update_from_static_config document [update_entry ParseError (JInt 1)]
     = Raised document.
Proof.
  repeat split.
Qed.

Section CastFacts.
Variable json_loads : string -> option json.
Hypothesis loads_json : forall s v, json_loads s = Some v -> is_json v = true.

Lemma cast_value_json text t : is_json (cast_value json_loads text t) = true.
Proof.
  unfold cast_value, conversion.
  destruct t; simpl; auto.
  - destruct (Builtin.int text); auto.
  - destruct (Builtin.float text); auto.
  - destruct (String.eqb text ""); auto.
    destruct (json_loads text) eqn:E; auto. eapply loads_json; eauto.
  - destruct (String.eqb text ""); auto.
    destruct (json_loads text) eqn:E; auto. eapply loads_json; eauto.
Qed.
End CastFacts.

Lemma cast_value_unread json_loads text cur :
  unread_number text cur = true ->
  cast_value json_loads text (get_type_from_value cur) = JStr text
  /\ is_container cur = false
  /\ forall s, cur <> JStr s.
Proof.
  unfold cast_value, conversion, unread_number.
  destruct cur; try discriminate; simpl.
  - destruct (Builtin.int text); try discriminate. repeat split; discriminate.
  - destruct (Builtin.float text); try discriminate. repeat split; discriminate.
Qed.

Lemma cast_value_read json_loads text cur :
  unread_number text cur = false ->
  is_container cur = false -> cur <> JNull ->
  get_type_from_value (cast_value json_loads text (get_type_from_value cur))
  = get_type_from_value cur.
Proof.
  unfold cast_value, conversion, unread_number.
  destruct cur; simpl; intros Hu Hc Hn; try discriminate; try congruence; auto.
  - destruct (Builtin.int text); try discriminate. reflexivity.
  - destruct (Builtin.float text); try discriminate. reflexivity.
Qed.

(** C1, as amended.  One field update of the table merge, on a path whose
    current value is not null, leaves a value at that path.  That value has
    the type of the old one for an existing String, Boolean, List or Map,
    and for an existing Integer or Float whenever the row text reads as
    such a number; when it does not, the raw text is stored as a String.
    When the cast of the text for a List or Map field is not a List or Map,
    the document is left as it was. *)
Theorem field_update_type_preservation :
  forall json_loads (obj : json) (row : csv_row_t) (key text : string)
         (p : jsonpath) (cur : json),
    is_json obj = true ->
    (forall s v, json_loads s = Some v -> is_json v = true) ->
    row_get key row = Some text ->
    key <> "ID" ->
    JsonPath.find p obj = Ok (Some cur) ->
    cur <> JNull ->
    let casted := cast_value json_loads text (get_type_from_value cur) in
    exists obj' now,
      update_from_csv json_loads obj row [(key, Parsed p)] = Done obj'
      /\ JsonPath.find p obj' = Ok (Some now)
      /\ (unread_number text cur = false ->
          get_type_from_value now = get_type_from_value cur)
      /\ (unread_number text cur = true -> p <> [] -> now = JStr text)
      /\ (is_container cur = true ->
          get_type_from_value casted <> get_type_from_value cur ->
          obj' = obj).
Proof.
  intros json_loads obj row key text p cur Hj Hloads Hrow Hkey Hfind Hcur casted.
  assert (String.eqb key "ID" = false) as Hk by now apply String.eqb_neq.
  assert (update_from_csv json_loads obj row [(key, Parsed p)]
          = if is_container cur
               && negb (pytype_eqb (get_type_from_value casted)
                                   (get_type_from_value cur))
            then Done obj
            else Done (state_of (set_value_by_path obj (Parsed p) casted)))
    as Hstep.
  { unfold update_from_csv, update_field.
    rewrite Hrow, Hk, (get_value_resolved _ _ _ Hfind). fold casted.
    destruct cur; try congruence;
      match goal with
      | |- context [if ?c then _ else _] => destruct c; reflexivity
      end. }
  rewrite Hstep.
  assert (is_json casted = true) as Hjc by now apply cast_value_json.
  (* what the write does, when it is reached *)
  assert (exists obj' now,
             Done (state_of (set_value_by_path obj (Parsed p) casted)) = Done obj'
             /\ JsonPath.find p obj' = Ok (Some now)
             /\ (now = cur \/ (p <> [] /\ now = casted))
             /\ (p <> [] -> (forall s, cur <> JStr s) -> now = casted))
    as (obj1 & now1 & Hdone & Hfind1 & Hnow1 & Hwritten).
  { destruct p as [|s p'].
    - exists obj, cur. simpl. repeat split; auto. congruence.
    - destruct (set_resolved obj (s :: p') casted cur Hj Hjc ltac:(discriminate) Hfind)
        as [(obj' & Hs & Hf' & _)|(Hs & str & Hstr)].
      + exists obj', casted. rewrite Hs. simpl state_of.
        repeat split; auto. right. split; [discriminate | reflexivity].
      + exists obj, cur. rewrite Hs. simpl state_of.
        repeat split; auto. intros _ Hno. now elim (Hno str). }
  destruct (unread_number text cur) eqn:Eu.
  - (* a number that the text does not read as *)
    destruct (cast_value_unread json_loads text cur Eu) as (Hval & Hc & Hno).
    fold casted in Hval. rewrite Hc. simpl andb.
    exists obj1, now1. repeat split; auto; try discriminate.
    intros _ Hp. rewrite <- Hval. now apply Hwritten.
  - destruct (is_container cur) eqn:Ec.
    + destruct (pytype_eqb (get_type_from_value casted) (get_type_from_value cur))
        eqn:Et; simpl andb.
      * apply pytype_eqb_eq in Et.
        exists obj1, now1. repeat split; auto; try discriminate.
        -- intros _. destruct Hnow1 as [-> | [_ ->]]; auto.
        -- intros _ Hne. congruence.
      * exists obj, cur. repeat split; auto. discriminate.
    + pose proof (cast_value_read json_loads text cur Eu Ec Hcur) as Heq.
      fold casted in Heq. simpl andb.
      exists obj1, now1. repeat split; auto; try discriminate.
      intros _. destruct Hnow1 as [-> | [_ ->]]; auto.
Qed.

(** The table text "abc" for the integer field [count], whatever
    [json.loads] does. *)
Lemma integer_field_takes_unparsed_text json_loads :
  update_from_csv json_loads
    (object [("id", JStr "1"); ("count", JInt 5)])
    [("ID", "1"); ("count", "abc")]
    [("count", Parsed (dotted ["count"]))]
  = Done (object [("id", JStr "1"); ("count", JStr "abc")]).
Proof. reflexivity. Qed.

(** C1 as stated fails: the field [count] holds the integer 5 before the
    merge and the string "abc" after it. *)
Lemma table_merge_changes_integer_to_string :
  get_type_from_value
    (get_value_by_path (object [("id", JStr "1"); ("count", JInt 5)])
                       (Parsed (dotted ["count"]))) = TInt
  /\ update_from_csv rejecting_loads
       (object [("id", JStr "1"); ("count", JInt 5)])
       [("ID", "1"); ("count", "abc")]
       [("count", Parsed (dotted ["count"]))]
     = Done (object [("id", JStr "1"); ("count", JStr "abc")])
  /\ get_type_from_value
       (get_value_by_path (object [("id", JStr "1"); ("count", JStr "abc")])
                          (Parsed (dotted ["count"]))) = TStr.
Proof.
  split; [reflexivity|]. split; [|reflexivity].
  apply integer_field_takes_unparsed_text.
Qed.

(** The update of Scenario A, through the general statement. *)
Lemma field_update_type_preservation_witness :
  exists obj' now,
    update_from_csv rejecting_loads
      (object [("id", JStr "1"); ("count", JInt 5)])
      [("ID", "1"); ("count", "9")]
      [("count", Parsed (dotted ["count"]))] = Done obj'
    /\ JsonPath.find (dotted ["count"]) obj' = Ok (Some now)
    /\ (unread_number "9" (JInt 5) = false ->
        get_type_from_value now = get_type_from_value (JInt 5))
    /\ (unread_number "9" (JInt 5) = true -> dotted ["count"] <> [] ->
        now = JStr "9")
    /\ (is_container (JInt 5) = true ->
        get_type_from_value
          (cast_value rejecting_loads "9" (get_type_from_value (JInt 5)))
          <> get_type_from_value (JInt 5) ->
        obj' = object [("id", JStr "1"); ("count", JInt 5)]).
Proof.
  apply (field_update_type_preservation rejecting_loads
           (object [("id", JStr "1"); ("count", JInt 5)])
           [("ID", "1"); ("count", "9")] "count" "9"
           (dotted ["count"]) (JInt 5)).
  - reflexivity.
  - intros s v H. discriminate H.
  - reflexivity.
  - discriminate.
  - reflexivity.
  - discriminate.
Defined.

(** C10.  A path whose value is JSON null reads as [None], exactly like a
    path that matches nothing, so neither merger protects it: the table
    merge stores the row text there as a String, and an update entry stores
    its value there as it is, whatever its type. *)
Theorem null_leaf_is_overwritten :
  forall json_loads (d : pydict) (p : jsonpath),
    is_json (JDict d) = true ->
    JsonPath.find p (JDict d) = Ok (Some JNull) ->
    get_value_by_path (JDict d) (Parsed p) = JNull
    /\ (forall q, JsonPath.find q (JDict d) = Ok None ->
                  get_value_by_path (JDict d) (Parsed q) = JNull)
    /\ (forall (row : csv_row_t) (key text : string),
          row_get key row = Some text -> key <> "ID" ->
          exists obj',
            update_from_csv json_loads (JDict d) row [(key, Parsed p)] = Done obj'
            /\ JsonPath.find p obj' = Ok (Some (JStr text)))
    /\ (forall value, is_json value = true ->
          exists obj',
            update_from_static_config (JDict d) [update_entry (Parsed p) value]
            = Done obj'
            /\ JsonPath.find p obj' = Ok (Some value)).
Proof.
  intros json_loads d p Hj Hfind.
  assert (p <> []) as Hp by (intros ->; discriminate).
  pose proof (get_value_resolved _ _ _ Hfind) as Hget.
  split; [exact Hget|]. split.
  { intros q Hq. unfold get_value_by_path. now rewrite Hq. }
  split.
  - intros row key text Hrow Hkey.
    assert (String.eqb key "ID" = false) as Hk by now apply String.eqb_neq.
    destruct (set_resolved (JDict d) p (JStr text) JNull Hj eq_refl Hp Hfind)
      as [(obj' & Hs & Hf' & _)|(_ & s & Hs)]; try discriminate.
    exists obj'. unfold update_from_csv, update_field.
    rewrite Hrow, Hk, Hget. unfold cast_value, conversion.
    rewrite Hs. auto.
  - intros value Hv.
    destruct (set_resolved (JDict d) p value JNull Hj Hv Hp Hfind)
      as [(obj' & Hs & Hf' & _)|(_ & s & Hs)]; try discriminate.
    exists obj'. unfold update_from_static_config, apply_entry, update_entry.
    cbn -[get_value_by_path set_value_by_path]. rewrite Hget, Hs. auto.
Qed.

(** An update entry with the value 7 on [{"note":null}]. *)
Lemma null_leaf_is_overwritten_witness :
  is_json (object [("note", JNull)]) = true
  /\ JsonPath.find (dotted ["note"]) (object [("note", JNull)]) = Ok (Some JNull)
  /\ exists obj',
       update_from_static_config (object [("note", JNull)])
         [update_entry (Parsed (dotted ["note"])) (JInt 7)] = Done obj'
       /\ JsonPath.find (dotted ["note"]) obj' = Ok (Some (JInt 7)).
Proof.
  split; [reflexivity|]. split; [reflexivity|].
  apply (null_leaf_is_overwritten rejecting_loads
           [(KStr "note", JNull)] (dotted ["note"]) eq_refl eq_refl).
  reflexivity.
Defined.

Section RemoveFacts.
Import Py JsonPath.

Lemma remove_match_cons s p v :
  p <> [] ->
  remove_match (s :: p) v =
  match find_step s v with
  | Ok (Some x) =>
      match remove_match p x with
      | Some x' => Some (plug s x' v)
      | None => None
      end
  | _ => None
  end.
Proof. destruct p; [congruence | reflexivity]. Qed.

(** Nothing can be deleted inside a string. *)
Lemma remove_match_str p : forall s, remove_match p (JStr s) = None.
Proof.
  induction p as [|st p IH]; intros s; auto.
  destruct p as [|st' p].
  - destruct st as [f|i]; simpl; auto.
    repeat match goal with
           | |- context [if ?c then _ else _] => destruct c; auto
           | |- context [match str_get ?a ?b with _ => _ end] =>
               destruct (str_get a b); auto
           end.
  - rewrite remove_match_cons by discriminate.
    destruct st as [f|i]; simpl find_step; auto.
    repeat match goal with
           | |- context [if ?c then _ else _] => destruct c; auto
           | |- context [match str_get ?a ?b with _ => _ end] =>
               destruct (str_get a b); auto
           end.
    cbv beta iota. now rewrite IH.
Qed.

Lemma find_index_intro i v n x :
  truthy v = true -> length_of v = Ok n -> (n >? i) = true ->
  item v i = Ok x -> find_step (Index i) v = Ok (Some x).
Proof. intros Ht Hn Hi Hx. unfold find_step. now rewrite Ht, Hn, Hi, Hx. Qed.

(** A child put back where [find] met it is met there again. *)
Lemma find_step_plug s v x x' :
  find_step s v = Ok (Some x) ->
  (forall str, v <> JStr str) ->
  find_step s (plug s x' v) = Ok (Some x').
Proof.
  intros Hf Hstr. destruct s as [f|i].
  - destruct v; simpl in Hf; try discriminate. simpl.
    now rewrite dict_get_set_same.
  - pose proof (find_index_inv _ _ _ Hf) as (Ht & n & Hn & Hi & Hx).
    destruct v; simpl in Hn, Hx; try discriminate.
    + now elim (Hstr s).
    + inversion Hn; subst n.
      destruct (list_get l i) as [y|] eqn:Hg; try discriminate.
      assert (l <> []) as Hl by (intros ->; discriminate).
      destruct (list_get_some_set l i y x' Hg) as [l' Hs].
      simpl plug. rewrite Hs. eapply find_index_list; eauto.
    + inversion Hn; subst n.
      destruct (dict_get (KInt i) d) as [y|] eqn:Hg; try discriminate.
      simpl plug.
      assert (len (dict_set (KInt i) x' d) = len d) as Hlen.
      { unfold len. now rewrite (dict_set_length _ _ _ _ Hg). }
      apply find_index_intro with (n := len d).
      * pose proof (dict_set_not_nil (KInt i) x' d) as Hne.
        simpl. destruct (dict_set (KInt i) x' d); congruence.
      * simpl. now rewrite Hlen.
      * exact Hi.
      * simpl. now rewrite dict_get_set_same.
Qed.

(** After a deletion through a path that ends in a field name, the path
    matches nothing. *)
Lemma removed_field_not_found f init : forall v v',
  remove_match (init ++ [Fields f]) v = Some v' ->
  find (init ++ [Fields f]) v' = Ok None.
Proof.
  induction init as [|s init IH]; intros v v' H.
  - simpl in H. destruct v; try discriminate.
    destruct (dict_get (KStr f) d); try discriminate.
    inversion H; subst. simpl. now rewrite dict_get_del_same.
  - simpl app in H. rewrite remove_match_cons in H
      by (destruct init; discriminate).
    destruct (find_step s v) as [[x|]|] eqn:E; try discriminate.
    destruct (remove_match (init ++ [Fields f]) x) as [x'|] eqn:R;
      try discriminate.
    inversion H; subst v'.
    assert (forall str, v <> JStr str) as Hstr.
    { intros str ->. destruct s as [g|i]; simpl in E; try discriminate.
      destruct (negb (String.eqb str "")); try discriminate.
      destruct (len (chars str) >? i); try discriminate.
      destruct (str_get str i) as [c|]; try discriminate.
      inversion E; subst x. now rewrite remove_match_str in R. }
    simpl. rewrite (find_step_plug _ _ _ x' E Hstr). eauto.
Qed.

(** A path that ends in a field name and resolves is deleted. *)
Lemma resolved_field_removed f init : forall v y,
  find (init ++ [Fields f]) v = Ok (Some y) ->
  exists v', remove_match (init ++ [Fields f]) v = Some v'.
Proof.
  induction init as [|s init IH]; intros v y H.
  - simpl in H. destruct v; try discriminate. simpl.
    destruct (dict_get (KStr f) d); try discriminate. eauto.
  - simpl app. rewrite remove_match_cons by (destruct init; discriminate).
    simpl in H. destruct (find_step s v) as [[x|]|]; try discriminate.
    destruct (IH x y H) as [x' ->]. eauto.
Qed.

(** Where the path does not resolve, nothing is deleted. *)
Lemma unresolved_not_removed p : forall v,
  (forall y, find p v <> Ok (Some y)) -> remove_match p v = None.
Proof.
  induction p as [|s p IH]; intros v H; auto.
  destruct p as [|s' p].
  - simpl. simpl in H.
    destruct (find_step s v) as [[x|]|]; auto. now elim (H x).
  - rewrite remove_match_cons by discriminate.
    destruct (find_step s v) as [[x|]|] eqn:E; auto.
    rewrite IH; auto.
    intros y Hy. apply (H y).
    change (find (s :: s' :: p) v)
      with (match find_step s v with
            | Raise => Raise
            | Ok None => Ok None
            | Ok (Some x) => find (s' :: p) x
            end).
    now rewrite E.
Qed.

End RemoveFacts.

(** C6 as stated fails for a path that ends in a list index: deleting
    [$.a[0]] from [{"a":[1,2]}] moves the 2 to index 0, so the path resolves
    again and a second remove deletes again.  It fails for [$] too, which
    is never removed and always resolves. *)
Lemma remove_index_then_resolve_finds_next :
  remove_value_by_path (object [("a", JList [JInt 1; JInt 2])])
                       (Parsed [Fields "a"; Index 0])
  = object [("a", JList [JInt 2])]
  /\ get_value_by_path (object [("a", JList [JInt 2])])
                       (Parsed [Fields "a"; Index 0]) = JInt 2
  /\ remove_value_by_path (object [("a", JList [JInt 2])])
                          (Parsed [Fields "a"; Index 0])
     = object [("a", JList [])]
  /\ get_value_by_path
       (remove_value_by_path (object [("a", JInt 1)]) (Parsed []))
       (Parsed [])
     = object [("a", JInt 1)].
Proof. repeat split. Qed.

(** C6, as amended.  For a path that ends in a field name, after the remove
    the path reads as [None] and a second remove changes nothing; and for
    any path, a remove on a path that does not resolve changes nothing. *)
Theorem remove_field_then_resolve :
  forall (D : json) (init : jsonpath) (f : string),
    let P := Parsed (init ++ [Fields f]) in
    get_value_by_path (remove_value_by_path D P) P = JNull
    /\ remove_value_by_path (remove_value_by_path D P) P
       = remove_value_by_path D P
    /\ (forall q : jsonpath,
          (forall y, JsonPath.find q D <> Ok (Some y)) ->
          remove_value_by_path D (Parsed q) = D)
    /\ remove_value_by_path D ParseError = D.
Proof.
  intros D init f P. unfold P.
  assert (forall v, (forall y, JsonPath.find (init ++ [Fields f]) v <> Ok (Some y)) ->
                    get_value_by_path v (Parsed (init ++ [Fields f])) = JNull
                    /\ remove_value_by_path v (Parsed (init ++ [Fields f])) = v)
    as Hgone.
  { intros v Hv. split.
    - unfold get_value_by_path.
      destruct (JsonPath.find (init ++ [Fields f]) v) as [[y|]|]; auto.
      now elim (Hv y).
    - unfold remove_value_by_path. now rewrite unresolved_not_removed. }
  assert (forall y, JsonPath.find (init ++ [Fields f])
                      (remove_value_by_path D (Parsed (init ++ [Fields f])))
                    <> Ok (Some y)) as Hafter.
  { intros y. unfold remove_value_by_path.
    destruct (remove_match (init ++ [Fields f]) D) as [D'|] eqn:R.
    - rewrite (removed_field_not_found _ _ _ _ R). discriminate.
    - intros Hy. destruct (resolved_field_removed _ _ _ _ Hy) as [D' HD'].
      congruence. }
  destruct (Hgone _ Hafter) as [Hget Hrem].
  split; [exact Hget|]. split; [exact Hrem|]. split; [|reflexivity].
  intros q Hq. unfold remove_value_by_path.
  now rewrite unresolved_not_removed.
Qed.

(** Removing [$.gone] from [{"x":2}], where it does not resolve. *)
Lemma remove_field_then_resolve_witness :
  (forall y, JsonPath.find [Fields "gone"] (object [("x", JInt 2)]) <> Ok (Some y))
  /\ remove_value_by_path (object [("x", JInt 2)]) (Parsed [Fields "gone"])
     = object [("x", JInt 2)].
Proof.
  assert (forall y, JsonPath.find [Fields "gone"] (object [("x", JInt 2)])
                    <> Ok (Some y)) as H by (intros y; discriminate).
  split; [exact H|].
  exact (proj1 (proj2 (proj2
           (remove_field_then_resolve (object [("x", JInt 2)]) [] "x")))
           [Fields "gone"] H).
Defined.

Section UpsertFacts.
Import Py JsonPath.

Lemma map_shaped_empty names : map_shaped names empty_dict = true.
Proof. destruct names; reflexivity. Qed.

(** Writing along field names through maps: missing maps are created and
    the value is stored where [find] looks for it. *)
Lemma update_chain_fields val f init : forall v,
  is_json v = true -> is_json val = true ->
  map_shaped (init ++ [f]) v = true ->
  exists v', update_chain (dotted init) (Fields f) val v = Done v'
             /\ find (dotted (init ++ [f])) v' = Ok (Some val)
             /\ is_json v' = true.
Proof.
  induction init as [|g init IH]; intros v Hj Hval Hs.
  - simpl in Hs. destruct v; try discriminate.
    exists (JDict (dict_set (KStr f) val d)). simpl.
    rewrite dict_get_set_same. repeat split; auto.
    now apply dict_set_json.
  - simpl in Hs. destruct v; try discriminate.
    assert (exists x, is_json x = true
                      /\ map_shaped (init ++ [f]) x = true
                      /\ update_chain (dotted (g :: init)) (Fields f) val (JDict d)
                         = map_effect (fun c => JDict (dict_set (KStr g) c d))
                                      (update_chain (dotted init) (Fields f) val x))
      as (x & Hx & Hsx & Hu).
    { simpl. destruct (dict_get (KStr g) d) as [x|] eqn:Hg.
      - exists x. repeat split; auto. eapply dict_get_json; eauto.
      - exists empty_dict. repeat split; auto. apply map_shaped_empty. }
    destruct (IH x Hx Hval Hsx) as (x' & Hu' & Hf' & Hj').
    exists (JDict (dict_set (KStr g) x' d)).
    rewrite Hu, Hu'. simpl. rewrite dict_get_set_same.
    repeat split; auto. now apply dict_set_json.
Qed.

End UpsertFacts.

(** C7 as stated fails.  Where the existing prefix is not a map, the
    library finds no place to write and says nothing: after the upsert of 1
    at [$.a.b.c] into [{"a":5}] the document is as before and the path does
    not resolve.  And [$] itself is never replaced. *)
Lemma upsert_then_resolve_misses :
  set_value_by_path (object [("a", JInt 5)])
                    (Parsed (dotted ["a"; "b"; "c"])) (JInt 1)
  = Done (object [("a", JInt 5)])
  /\ get_value_by_path (object [("a", JInt 5)])
                       (Parsed (dotted ["a"; "b"; "c"])) = JNull
  /\ set_value_by_path (object [("a", JInt 5)]) (Parsed []) (JInt 1)
     = Done (object [("a", JInt 5)])
  /\ get_value_by_path (object [("a", JInt 5)]) (Parsed [])
     = object [("a", JInt 5)].
Proof. repeat split. Qed.

(** C7, as amended.  For a JSON document [D], a JSON value [V] and a path
    [$.f1...fn] of one or more field names whose existing part in [D] is
    map-shaped, the upsert returns and the path then resolves to [V]; the
    maps that were missing on the way have been created. *)
Theorem upsert_then_resolve :
  forall (D V : json) (names : list string),
    is_json D = true -> is_json V = true ->
    names <> [] ->
    map_shaped names D = true ->
    exists D',
      set_value_by_path D (Parsed (dotted names)) V = Done D'
      /\ JsonPath.find (dotted names) D' = Ok (Some V)
      /\ get_value_by_path D' (Parsed (dotted names)) = V.
Proof.
  intros D V names HD HV Hne Hs.
  destruct (exists_last Hne) as (init & f & ->).
  destruct (update_chain_fields V f init D HD HV Hs) as (D' & Hu & Hf & Hj).
  exists D'.
  assert (set_value_by_path D (Parsed (dotted (init ++ [f]))) V = Done D') as Hset.
  { unfold set_value_by_path, JsonPath.update_or_create, dotted.
    rewrite map_app. simpl map.
    destruct (map Fields init ++ [Fields f]) as [|s p] eqn:E.
    - destruct (map Fields init); discriminate.
    - rewrite <- E, removelast_last, last_last.
      fold (dotted init). rewrite Hu. now rewrite clean_in_place_json. }
  split; [exact Hset|]. split; [exact Hf|].
  now apply get_value_resolved.
Qed.

(** The upsert of 3 at [$.a.b] into [{"id":"1"}], which has no [a]. *)
Lemma upsert_then_resolve_witness :
  map_shaped ["a"; "b"] (object [("id", JStr "1")]) = true
  /\ exists D',
       set_value_by_path (object [("id", JStr "1")])
                         (Parsed (dotted ["a"; "b"])) (JInt 3) = Done D'
       /\ JsonPath.find (dotted ["a"; "b"]) D' = Ok (Some (JInt 3))
       /\ get_value_by_path D' (Parsed (dotted ["a"; "b"])) = JInt 3.
Proof.
  split; [reflexivity|].
  apply (upsert_then_resolve (object [("id", JStr "1")]) (JInt 3) ["a"; "b"]).
  - reflexivity.
  - reflexivity.
  - discriminate.
  - reflexivity.
Defined.

Section ListRunFacts.

Variable json_loads : string -> option json.
Variable mapping : mapping_t.
Variable static_config : list entry.





End ListRunFacts.


(** C9.  [cast_value] returns on every text and target type: the converted
    value when the conversion goes through, and the text itself, unchanged,
    when the conversion raises -- which is when the text is no integer for
    an Integer target, no float for a Float target, or a non-empty token
    that [json.loads] rejects for a List or Map target.  The empty token
    gives the empty list and the empty map. *)
Theorem cast_value_fail_soft :
  forall json_loads (s : string) (t : pytype),
    ((exists v, conversion json_loads s t = Ok v
                /\ cast_value json_loads s t = v)
     \/ (conversion json_loads s t = Raise
         /\ cast_value json_loads s t = JStr s))
    /\ (t = TInt -> Builtin.int s = None ->
        cast_value json_loads s t = JStr s)
    /\ (t = TFloat -> Builtin.float s = None ->
        cast_value json_loads s t = JStr s)
    /\ (t = TList \/ t = TDict -> s <> "" -> json_loads s = None ->
        cast_value json_loads s t = JStr s)
    /\ cast_value json_loads "" TList = JList []
    /\ cast_value json_loads "" TDict = JDict [].
Proof.
  intros json_loads s t. split.
  { unfold cast_value. destruct (conversion json_loads s t) as [v|]; eauto. }
  split; [|split; [|split; [|split; reflexivity]]].
  - intros -> H. unfold cast_value, conversion. now rewrite H.
  - intros -> H. unfold cast_value, conversion. now rewrite H.
  - intros Ht Hs H. apply String.eqb_neq in Hs.
    unfold cast_value, conversion. destruct Ht as [-> | ->]; now rewrite Hs, H.
Qed.

(** The text "abc" for an Integer target. *)
Lemma cast_value_fail_soft_witness :
  Builtin.int "abc" = None
  /\ cast_value rejecting_loads "abc" TInt = JStr "abc".
Proof.
  split; [reflexivity|].
  exact (proj1 (proj2 (cast_value_fail_soft rejecting_loads "abc" TInt))
               eq_refl eq_refl).
Defined.

Section IntRoundTrip.
Import Builtin.














End IntRoundTrip.





(* ================================================================== *)
(** * Further facts about the containers, the path library and the program *)

Section MoreDictFacts.

Import Py.

Lemma dict_get_set_other k k' v d :
  k <> k' -> dict_get k' (dict_set k v d) = dict_get k' d.
Proof.
  intros Hne. induction d as [|[k0 v0] d IH]; simpl.
  - destruct (pykey_eqb k' k) eqn:E; auto.
    apply pykey_eqb_eq in E. congruence.
  - destruct (pykey_eqb k k0) eqn:E; simpl.
    + apply pykey_eqb_eq in E; subst k0.
      destruct (pykey_eqb k' k) eqn:E'; auto.
      apply pykey_eqb_eq in E'. congruence.
    + now rewrite IH.
Qed.

Lemma dict_get_del_other k k' d :
  k <> k' -> dict_get k' (dict_del k d) = dict_get k' d.
Proof.
  intros Hne. induction d as [|[k0 v0] d IH]; simpl; auto.
  destruct (pykey_eqb k k0) eqn:E; simpl.
  - apply pykey_eqb_eq in E; subst k0.
    destruct (pykey_eqb k' k) eqn:E'; auto.
    apply pykey_eqb_eq in E'. congruence.
  - now rewrite IH.
Qed.

Lemma dict_set_set k v1 v2 d :
  dict_set k v2 (dict_set k v1 d) = dict_set k v2 d.
Proof.
  induction d as [|[k0 v0] d IH]; simpl.
  - now rewrite pykey_eqb_refl.
  - destruct (pykey_eqb k k0) eqn:E; simpl; rewrite E; auto.
    now rewrite IH.
Qed.

Lemma dict_del_absent k d : dict_get k d = None -> dict_del k d = d.
Proof.
  induction d as [|[k0 v0] d IH]; simpl; auto.
  destruct (pykey_eqb k k0); try discriminate.
  intros H. now rewrite IH.
Qed.

Lemma dict_del_set_absent k v d :
  dict_get k d = None -> dict_del k (dict_set k v d) = d.
Proof.
  induction d as [|[k0 v0] d IH]; simpl.
  - now rewrite pykey_eqb_refl.
  - destruct (pykey_eqb k k0) eqn:E; try discriminate.
    intros H. simpl. rewrite E. now rewrite IH.
Qed.

Lemma dict_del_json k d :
  is_json (JDict d) = true -> is_json (JDict (dict_del k d)) = true.
Proof.
  induction d as [|[k0 v0] d IH]; simpl; auto.
  intros H. apply andb_true_iff in H as [H1 H2].
  destruct (pykey_eqb k k0); simpl; auto.
  rewrite H1. simpl. now apply IH.
Qed.

End MoreDictFacts.

Section FindFacts.

Import Py JsonPath.

Lemma find_app p q : forall v,
  find (p ++ q) v =
  match find p v with
  | Ok (Some x) => find q x
  | Ok None => Ok None
  | Raise => Raise
  end.
Proof.
  induction p as [|s p IH]; intros v; simpl; auto.
  destruct (find_step s v) as [[x|]|]; auto.
Qed.

(** Nothing is found below [None]. *)
Lemma get_below_none q : get_value_by_path JNull (Parsed q) = JNull.
Proof. destruct q as [|[f|i] q]; reflexivity. Qed.

End FindFacts.

Section Along.

Import Py JsonPath.

Lemma map_effect_compose f g e :
  map_effect f (map_effect g e) = map_effect (fun c => f (g c)) e.
Proof. now destruct e. Qed.

Lemma map_effect_ext f g e :
  (forall c, f c = g c) -> map_effect f e = map_effect g e.
Proof. intros H. destruct e; simpl; now rewrite H. Qed.

Lemma find_index_not_empty i v x :
  find_step (Index i) v = Ok (Some x) -> v <> JDict [].
Proof.
  intros H ->. discriminate H.
Qed.

(** Along a prefix that resolves, [find_or_create] walks down without
    creating anything, and what the last step does to the value at the end
    of the prefix is put back into every container above. *)
Lemma update_chain_along init last val : forall v x,
  find init v = Ok (Some x) ->
  update_chain init last val v
  = map_effect (fun c => plug_path init c v) (update_step last val x).
Proof.
  induction init as [|s init IH]; intros v x Hf.
  - simpl in Hf. inversion Hf; subst x. simpl.
    now destruct (update_step last val v).
  - simpl in Hf. destruct (find_step s v) as [[y|]|] eqn:E; try discriminate.
    destruct s as [f|i].
    + destruct v; simpl in E; try discriminate. inversion E as [Hd].
      simpl update_chain. rewrite Hd, (IH y x Hf), map_effect_compose.
      apply map_effect_ext. intros c. simpl. now rewrite Hd.
    + pose proof (create_index_resolved _ _ _ E) as Hc.
      pose proof (find_index_not_empty _ _ _ E) as Hne.
      assert (update_chain (Index i :: init) last val v
              = map_effect (fun c => plug (Index i) c v)
                           (update_chain init last val y)) as ->.
      { destruct v as [ | | | | | |[|kv d]]; try congruence;
          cbn [update_chain]; rewrite Hc; reflexivity. }
      rewrite (IH y x Hf), map_effect_compose.
      apply map_effect_ext. intros c.
      change (plug_path (Index i :: init) c v)
        with (match find_step (Index i) v with
              | Ok (Some x) => plug (Index i) (plug_path init c x) v
              | _ => v
              end).
      now rewrite E.
Qed.

(** Below a string there are only strings. *)
Lemma find_step_str s str x :
  find_step s (JStr str) = Ok (Some x) -> exists c, x = JStr c.
Proof.
  destruct s as [f|i]; simpl; try discriminate.
  destruct (negb (String.eqb str "")); try discriminate.
  destruct (len (chars str) >? i); try discriminate.
  destruct (str_get str i) as [c|]; try discriminate.
  intros H; inversion H. eauto.
Qed.

Lemma find_below_str p : forall str x,
  find p (JStr str) = Ok (Some x) -> exists c, x = JStr c.
Proof.
  induction p as [|s p IH]; intros str x H.
  - inversion H. eauto.
  - simpl find in H.
    destruct (find_step s (JStr str)) as [[y|]|] eqn:E; try discriminate.
    destruct (find_step_str _ _ _ E) as [c ->]. eauto.
Qed.

Lemma plug_path_cons s p c v y :
  find_step s v = Ok (Some y) ->
  plug_path (s :: p) c v = plug s (plug_path p c y) v.
Proof. intros H. simpl. now rewrite H. Qed.

(** What has been put at the end of a path is found there. *)
Lemma find_plug_path p c : forall v x,
  find p v = Ok (Some x) -> (forall s, x <> JStr s) ->
  find p (plug_path p c v) = Ok (Some c).
Proof.
  induction p as [|s p IH]; intros v x Hf Hx; auto.
  simpl in Hf. destruct (find_step s v) as [[y|]|] eqn:E; try discriminate.
  rewrite (plug_path_cons _ _ _ _ _ E).
  assert (forall str, v <> JStr str) as Hv.
  { intros str ->. destruct (find_step_str _ _ _ E) as [c' ->].
    destruct (find_below_str _ _ _ Hf) as [c'' ->]. now elim (Hx c''). }
  simpl find. rewrite (find_step_plug _ _ _ _ E Hv). eauto.
Qed.

Lemma plug_same s v x : find_step s v = Ok (Some x) -> plug s x v = v.
Proof.
  intros H. destruct s as [f|i].
  - destruct v; simpl in H; try discriminate. inversion H as [Hd].
    simpl. now rewrite dict_set_get_same.
  - apply find_index_inv in H as (_ & n & Hn & _ & Hx).
    destruct v; simpl in Hx; try discriminate; simpl; auto.
    + destruct (list_get l i) eqn:Hg; try discriminate. inversion Hx; subst.
      now rewrite (list_set_get_same _ _ _ Hg).
    + destruct (dict_get (KInt i) d) eqn:Hg; try discriminate.
      inversion Hx; subst. now rewrite dict_set_get_same.
Qed.

(** Putting back what is there changes nothing. *)
Lemma plug_path_same p : forall v x,
  find p v = Ok (Some x) -> plug_path p x v = v.
Proof.
  induction p as [|s p IH]; intros v x Hf.
  - now inversion Hf.
  - simpl in Hf. destruct (find_step s v) as [[y|]|] eqn:E; try discriminate.
    rewrite (plug_path_cons _ _ _ _ _ E), (IH y x Hf).
    now apply plug_same.
Qed.

Lemma set_nth_set_nth {A} n (x y : A) l :
  set_nth n y (set_nth n x l) = set_nth n y l.
Proof.
  revert n; induction l as [|z l IH]; intros [|n]; simpl; auto.
  now rewrite IH.
Qed.

Lemma plug_plug s v x c1 c2 :
  find_step s v = Ok (Some x) ->
  plug s c2 (plug s c1 v) = plug s c2 v.
Proof.
  intros H. destruct s as [f|i].
  - destruct v; simpl in H; try discriminate. simpl.
    now rewrite dict_set_set.
  - apply find_index_inv in H as (_ & n & Hn & _ & Hx).
    destruct v; simpl in Hx; try discriminate; simpl; auto.
    + destruct (list_get l i) eqn:Hg; try discriminate.
      unfold list_set. unfold list_get in Hg.
      destruct (position (len l) i) as [k|] eqn:Hp; try discriminate.
      unfold list_set. rewrite len_set_nth, Hp. now rewrite set_nth_set_nth.
    + now rewrite dict_set_set.
Qed.

(** The later of two values put at the same place stays. *)
Lemma plug_path_twice p c1 c2 : forall v x,
  find p v = Ok (Some x) -> (forall s, x <> JStr s) ->
  plug_path p c2 (plug_path p c1 v) = plug_path p c2 v.
Proof.
  induction p as [|s p IH]; intros v x Hf Hx; auto.
  simpl in Hf. destruct (find_step s v) as [[y|]|] eqn:E; try discriminate.
  assert (forall str, v <> JStr str) as Hv.
  { intros str ->. destruct (find_step_str _ _ _ E) as [c' ->].
    destruct (find_below_str _ _ _ Hf) as [c'' ->]. now elim (Hx c''). }
  rewrite (plug_path_cons _ _ _ _ _ E).
  pose proof (find_step_plug _ _ _ (plug_path p c1 y) E Hv) as E1.
  rewrite (plug_path_cons _ _ _ _ _ E1).
  rewrite (IH y x Hf Hx), (plug_path_cons _ _ _ _ _ E).
  now apply (plug_plug _ _ _ _ _ E).
Qed.

Lemma find_step_json s v x :
  is_json v = true -> find_step s v = Ok (Some x) -> is_json x = true.
Proof.
  intros Hj H. destruct s as [f|i].
  - destruct v; simpl in H; try discriminate. inversion H.
    eapply dict_get_json; eauto.
  - apply find_index_inv in H as (_ & n & Hn & _ & Hx).
    destruct v; simpl in Hx; try discriminate.
    + destruct (str_get s i); try discriminate. now inversion Hx.
    + unfold list_get in Hx.
      destruct (position (len l) i); try discriminate.
      destruct (nth_error l n0) eqn:Hn0; try discriminate.
      inversion Hx; subst. eapply is_json_nth; eauto.
    + rewrite (dict_get_int_json i d Hj) in Hx. discriminate.
Qed.

Lemma find_json p : forall v x,
  is_json v = true -> find p v = Ok (Some x) -> is_json x = true.
Proof.
  induction p as [|s p IH]; intros v x Hj H.
  - now inversion H; subst.
  - simpl in H. destruct (find_step s v) as [[y|]|] eqn:E; try discriminate.
    apply (IH y x); auto. exact (find_step_json s v y Hj E).
Qed.

Lemma plug_json s v c x :
  is_json v = true -> is_json c = true ->
  find_step s v = Ok (Some x) -> is_json (plug s c v) = true.
Proof.
  intros Hv Hc H. destruct s as [f|i].
  - destruct v; simpl in H; try discriminate.
    simpl plug. now apply dict_set_json.
  - apply find_index_inv in H as (_ & n & Hn & _ & Hx).
    destruct v; simpl in Hx; try discriminate; simpl plug; auto.
    + unfold list_set. destruct (position (len l) i); auto.
      now apply is_json_set_nth.
    + rewrite (dict_get_int_json i d Hv) in Hx. discriminate.
Qed.

Lemma plug_path_json p c : forall v x,
  is_json v = true -> is_json c = true ->
  find p v = Ok (Some x) -> is_json (plug_path p c v) = true.
Proof.
  induction p as [|s p IH]; intros v x Hv Hc Hf; auto.
  simpl in Hf. destruct (find_step s v) as [[y|]|] eqn:E; try discriminate.
  rewrite (plug_path_cons _ _ _ _ _ E).
  assert (is_json y = true) as Hy by exact (find_step_json s v y Hv E).
  apply (plug_json s v _ y); auto. now apply (IH y x).
Qed.

End Along.

Section WriteFacts.

Import Py JsonPath.

(** The last step, writing the value that is already there. *)
Lemma update_step_same last x cur :
  find_step last x = Ok (Some cur) ->
  update_step last cur x = Done x
  \/ (update_step last cur x = Raised x /\ exists s, x = JStr s).
Proof.
  intros H. destruct last as [f|i].
  - destruct x; simpl in H; try discriminate. inversion H as [Hd].
    left. simpl. now rewrite dict_set_get_same.
  - pose proof (find_index_not_empty _ _ _ H) as Hne.
    pose proof (find_index_inv _ _ _ H) as (Ht & n & Hn & Hi & Hx).
    assert (update_step (Index i) cur x = update_index i cur x) as ->.
    { destruct x as [ | | | | | |[|kv d]]; try congruence; reflexivity. }
    unfold update_index. rewrite (pad_value_long _ _ _ Hn Hi), Hn, Hi.
    destruct x; simpl in Hx; try discriminate.
    + right. simpl. eauto.
    + left. destruct (list_get l i) eqn:Hg; try discriminate.
      inversion Hx; subst. simpl. now rewrite (list_set_get_same _ _ _ Hg).
    + left. destruct (dict_get (KInt i) d) eqn:Hg; try discriminate.
      inversion Hx; subst. simpl. now rewrite dict_set_get_same.
Qed.

Lemma path_split (p : jsonpath) :
  p <> [] -> exists init last, p = init ++ [last].
Proof. intros H. destruct (exists_last H) as (init & last & ->). eauto. Qed.

(** [update_or_create] on a path with a last step. *)
Lemma update_or_create_snoc init last obj val :
  update_or_create (init ++ [last]) obj val
  = match update_chain init last val obj with
    | Done obj' => Done (clean_in_place obj')
    | Raised obj' => Raised obj'
    end.
Proof.
  unfold update_or_create.
  destruct (init ++ [last]) as [|s p] eqn:E.
  - destruct init; discriminate.
  - rewrite <- E, removelast_last, last_last. reflexivity.
Qed.

End WriteFacts.

Section WriteBack.

Import Py JsonPath.

(** Writing the value that is there. *)
Lemma set_same_value obj p cur :
  is_json obj = true ->
  find p obj = Ok (Some cur) ->
  set_value_by_path obj (Parsed p) cur = Done obj
  \/ (set_value_by_path obj (Parsed p) cur = Raised obj
      /\ exists s, cur = JStr s).
Proof.
  intros Hj Hf.
  destruct p as [|s0 p0]; [now left|].
  destruct (path_split (s0 :: p0) ltac:(discriminate)) as (init & last & E).
  rewrite E in *. clear E s0 p0.
  rewrite find_app in Hf.
  destruct (find init obj) as [[x|]|] eqn:Hx; try discriminate.
  simpl in Hf.
  destruct (find_step last x) as [[y|]|] eqn:Hy; try discriminate.
  inversion Hf; subst y; clear Hf.
  unfold set_value_by_path. rewrite update_or_create_snoc.
  rewrite (update_chain_along _ _ _ _ _ Hx).
  destruct (update_step_same _ _ _ Hy) as [-> | [-> [s ->]]]; simpl.
  - left. rewrite (plug_path_same _ _ _ Hx).
    now rewrite clean_in_place_json.
  - right. rewrite (plug_path_same _ _ _ Hx). split; auto.
    destruct (find_step_str _ _ _ Hy) as [c ->]. eauto.
Qed.

End WriteBack.

Section RemoveAlong.

Import Py JsonPath.

(** Deleting below a prefix that resolves: the parent without the entry is
    put back into every container above. *)
Lemma remove_match_along init last : forall v x,
  find init v = Ok (Some x) ->
  remove_match (init ++ [last]) v
  = match remove_match [last] x with
    | Some c => Some (plug_path init c v)
    | None => None
    end.
Proof.
  induction init as [|s init IH]; intros v x Hf.
  - inversion Hf; subst x. simpl app.
    now destruct (remove_match [last] v).
  - simpl in Hf. destruct (find_step s v) as [[y|]|] eqn:E; try discriminate.
    simpl app. rewrite remove_match_cons by (destruct init; discriminate).
    rewrite E, (IH y x Hf).
    destruct (remove_match [last] x); auto.
    now rewrite (plug_path_cons _ _ _ _ _ E).
Qed.

Lemma set_nth_app_repeat {A} (a x : A) l k :
  set_nth (List.length l + k) x (l ++ repeat a (S k)) = l ++ repeat a k ++ [x].
Proof.
  induction l as [|y l IH]; simpl in *.
  - induction k as [|k IHk]; simpl in *; auto. now rewrite IHk.
  - now rewrite IH.
Qed.

Lemma del_nth_app {A} (x : A) l1 l2 :
  del_nth (List.length l1) (l1 ++ x :: l2) = l1 ++ l2.
Proof. induction l1 as [|y l1 IH]; simpl; auto. now rewrite IH. Qed.

Lemma nth_error_app_mid {A} (x : A) l1 l2 :
  nth_error (l1 ++ x :: l2) (List.length l1) = Some x.
Proof. induction l1 as [|y l1 IH]; simpl; auto. Qed.

(** The position of the element after [l1] in [l1 ++ x :: l2], addressed
    from the front or from the end. *)
Lemma position_mid {A} (x : A) l1 l2 i :
  i = len l1 \/ i = - len (x :: l2) ->
  position (len (l1 ++ x :: l2)) i = Some (List.length l1).
Proof.
  unfold position, len. rewrite length_app. simpl List.length.
  intros [-> | ->].
  - replace ((0 <=? Z.of_nat (List.length l1))
             && (Z.of_nat (List.length l1)
                 <? Z.of_nat (List.length l1 + S (List.length l2)))) with true.
    + now rewrite Nat2Z.id.
    + symmetry. apply andb_true_iff. split; [apply Z.leb_le | apply Z.ltb_lt]; lia.
  - replace ((0 <=? - Z.of_nat (S (List.length l2)))
             && (- Z.of_nat (S (List.length l2))
                 <? Z.of_nat (List.length l1 + S (List.length l2)))) with false.
    + replace ((- Z.of_nat (S (List.length l2)) <? 0)
               && (- Z.of_nat (List.length l1 + S (List.length l2))
                   <=? - Z.of_nat (S (List.length l2)))) with true.
      * f_equal. lia.
      * symmetry. apply andb_true_iff.
        split; [apply Z.ltb_lt | apply Z.leb_le]; lia.
    + symmetry. apply andb_false_iff. left. apply Z.leb_gt. lia.
Qed.

Lemma repeat_json n : forallb is_json (repeat empty_dict n) = true.
Proof. induction n; simpl; auto. Qed.

End RemoveAlong.

Section FieldChain.

Import Py JsonPath.

Lemma state_of_map_effect f e : state_of (map_effect f e) = f (state_of e).
Proof. now destruct e. Qed.

Lemma update_chain_field_step g rest last val v :
  update_chain (Fields g :: rest) last val v
  = match v with
    | JDict d =>
        map_effect (fun c => JDict (dict_set (KStr g) c d))
                   (update_chain rest last val (entered g d))
    | _ => Done v
    end.
Proof.
  destruct v; try reflexivity.
  unfold entered. simpl. now destruct (dict_get (KStr g) d).
Qed.

Lemma entered_json g d : is_json (JDict d) = true -> is_json (entered g d) = true.
Proof.
  intros H. unfold entered.
  destruct (dict_get (KStr g) d) eqn:E; auto. eapply dict_get_json; eauto.
Qed.

Lemma update_field_step_json f val v :
  is_json v = true -> is_json val = true ->
  is_json (state_of (update_step (Fields f) val v)) = true.
Proof.
  intros Hv Hval. destruct v; simpl; auto. now apply dict_set_json.
Qed.

(** Writing through field names keeps every key a string. *)
Lemma update_chain_fields_json val f init : forall v,
  is_json v = true -> is_json val = true ->
  is_json (state_of (update_chain (dotted init) (Fields f) val v)) = true.
Proof.
  induction init as [|g init IH]; intros v Hv Hval.
  - now apply update_field_step_json.
  - change (dotted (g :: init)) with (Fields g :: dotted init).
    rewrite update_chain_field_step. destruct v; auto.
    rewrite state_of_map_effect. apply dict_set_json; auto.
    apply IH; auto. now apply entered_json.
Qed.

Lemma dotted_snoc init f : dotted (init ++ [f]) = dotted init ++ [Fields f].
Proof. unfold dotted. now rewrite map_app. Qed.

(** The state [set_value_by_path] leaves behind on a path of field names. *)
Lemma set_fields_state obj init f val :
  is_json obj = true -> is_json val = true ->
  state_of (set_value_by_path obj (Parsed (dotted (init ++ [f]))) val)
  = state_of (update_chain (dotted init) (Fields f) val obj).
Proof.
  intros Hj Hv. unfold set_value_by_path.
  rewrite dotted_snoc, update_or_create_snoc.
  pose proof (update_chain_fields_json val f init obj Hj Hv) as H.
  destruct (update_chain (dotted init) (Fields f) val obj); simpl in *; auto.
  now apply clean_in_place_json.
Qed.

Lemma update_chain_fields_twice V1 V2 f init : forall v,
  state_of (update_chain (dotted init) (Fields f) V2
              (state_of (update_chain (dotted init) (Fields f) V1 v)))
  = state_of (update_chain (dotted init) (Fields f) V2 v).
Proof.
  induction init as [|g init IH]; intros v.
  - destruct v; simpl; auto. now rewrite dict_set_set.
  - change (dotted (g :: init)) with (Fields g :: dotted init).
    rewrite (update_chain_field_step g _ _ V1 v). destruct v; auto.
    rewrite !state_of_map_effect, update_chain_field_step, state_of_map_effect.
    unfold entered at 1. rewrite dict_get_set_same, dict_set_set.
    now rewrite IH, update_chain_field_step, state_of_map_effect.
Qed.

(** Where the existing part of the path is not map-shaped, nothing is
    written and the path matches nothing. *)
Lemma update_chain_not_map_shaped V f init : forall v,
  map_shaped (init ++ [f]) v = false ->
  state_of (update_chain (dotted init) (Fields f) V v) = v
  /\ find (dotted (init ++ [f])) v = Ok None.
Proof.
  induction init as [|g init IH]; intros v Hs.
  - simpl in Hs. destruct v; try discriminate; auto.
    destruct (dict_get (KStr f) d); discriminate.
  - change (dotted (g :: init)) with (Fields g :: dotted init).
    rewrite update_chain_field_step. simpl in Hs.
    destruct v; auto.
    destruct (dict_get (KStr g) d) as [x|] eqn:Hg; try discriminate.
    destruct (IH x Hs) as [Hst Hf].
    rewrite state_of_map_effect. unfold entered. rewrite Hg, Hst.
    split.
    + now rewrite dict_set_get_same.
    + simpl. rewrite Hg. exact Hf.
Qed.

Lemma find_fields_empty names x :
  find (dotted names) empty_dict = Ok (Some x) -> names = [] /\ x = empty_dict.
Proof.
  destruct names; simpl; intros H; [now inversion H | discriminate].
Qed.

(** Writing a field raises only where the parent is there and is neither
    [None] nor a dict. *)
Lemma update_chain_fields_raised V f init : forall v v',
  update_chain (dotted init) (Fields f) V v = Raised v' ->
  exists x, find (dotted init) v = Ok (Some x) /\ rejects_fields x = true.
Proof.
  induction init as [|g init IH]; intros v v' H.
  - exists v. destruct v; simpl in H; try discriminate; auto.
  - change (dotted (g :: init)) with (Fields g :: dotted init) in H.
    rewrite update_chain_field_step in H. destruct v; try discriminate.
    destruct (update_chain (dotted init) (Fields f) V (entered g d))
      as [c|c] eqn:E; try discriminate.
    destruct (IH _ _ E) as (x & Hx & Hr).
    unfold entered in Hx. simpl.
    destruct (dict_get (KStr g) d); eauto.
    apply find_fields_empty in Hx as [_ ->]. discriminate.
Qed.

End FieldChain.

Section FieldsRaise.

Import Py JsonPath.

(** When the upsert at a path of field names raises. *)
Lemma set_fields_raised D V init f :
  ((exists D', set_value_by_path D (Parsed (dotted (init ++ [f]))) V
               = Raised D')
   <-> exists x, find (dotted init) D = Ok (Some x)
                 /\ rejects_fields x = true)
  /\ (forall D', set_value_by_path D (Parsed (dotted (init ++ [f]))) V
                 = Raised D' -> D' = D).
Proof.
  unfold set_value_by_path.
  rewrite dotted_snoc, update_or_create_snoc.
  assert (forall x, find (dotted init) D = Ok (Some x) ->
                    rejects_fields x = true ->
                    update_chain (dotted init) (Fields f) V D = Raised D)
    as Hback.
  { intros x Hx Hr. rewrite (update_chain_along _ _ _ _ _ Hx).
    destruct x; try discriminate; simpl;
      now rewrite (plug_path_same _ _ _ Hx). }
  split; [split|].
  - intros [D' H].
    destruct (update_chain (dotted init) (Fields f) V D) eqn:E;
      try discriminate.
    eapply update_chain_fields_raised; eauto.
  - intros (x & Hx & Hr). exists D. now rewrite (Hback x Hx Hr).
  - intros D' H.
    destruct (update_chain (dotted init) (Fields f) V D) eqn:E;
      try discriminate.
    destruct (update_chain_fields_raised _ _ _ _ _ E) as (x & Hx & Hr).
    specialize (Hback x Hx Hr). congruence.
Qed.

End FieldsRaise.

Section Frame.

Import Py JsonPath.

Lemma get_field_cons g q d :
  get_value_by_path (JDict d) (Parsed (Fields g :: q))
  = match dict_get (KStr g) d with
    | Some x => get_value_by_path x (Parsed q)
    | None => JNull
    end.
Proof.
  unfold get_value_by_path. simpl. now destruct (dict_get (KStr g) d).
Qed.

Lemma get_fields_empty c g q :
  get_value_by_path empty_dict (Parsed (dotted c ++ Fields g :: q)) = JNull.
Proof. destruct c; reflexivity. Qed.

(** A write below the field [f] is not seen through another field [g]. *)
Lemma update_chain_other_field f g rest last V q v :
  f <> g ->
  get_value_by_path (state_of (update_chain (Fields f :: rest) last V v))
                    (Parsed (Fields g :: q))
  = get_value_by_path v (Parsed (Fields g :: q)).
Proof.
  intros Hne. rewrite update_chain_field_step. destruct v; auto.
  rewrite state_of_map_effect, !get_field_cons.
  rewrite dict_get_set_other; auto. congruence.
Qed.

Lemma update_step_other_field f g V q v :
  f <> g ->
  get_value_by_path (state_of (update_step (Fields f) V v))
                    (Parsed (Fields g :: q))
  = get_value_by_path v (Parsed (Fields g :: q)).
Proof.
  intros Hne. destruct v; auto. simpl state_of.
  rewrite !get_field_cons, dict_get_set_other; auto. congruence.
Qed.

(** Below a common prefix of field names. *)
Lemma update_chain_frame c rest last V g q :
  (forall x, get_value_by_path (state_of (update_chain rest last V x))
                               (Parsed (Fields g :: q))
             = get_value_by_path x (Parsed (Fields g :: q))) ->
  forall v,
    get_value_by_path (state_of (update_chain (dotted c ++ rest) last V v))
                      (Parsed (dotted c ++ Fields g :: q))
    = get_value_by_path v (Parsed (dotted c ++ Fields g :: q)).
Proof.
  intros Hbase. induction c as [|h c IH]; intros v; [apply Hbase|].
  change (dotted (h :: c) ++ rest) with (Fields h :: (dotted c ++ rest)).
  change (dotted (h :: c) ++ Fields g :: q)
    with (Fields h :: (dotted c ++ Fields g :: q)).
  rewrite update_chain_field_step. destruct v; auto.
  rewrite state_of_map_effect, !get_field_cons, dict_get_set_same, IH.
  unfold entered. destruct (dict_get (KStr h) d); auto.
  apply get_fields_empty.
Qed.

Lemma remove_value_field_step h p d :
  p <> [] ->
  remove_value_by_path (JDict d) (Parsed (Fields h :: p))
  = match dict_get (KStr h) d with
    | Some x =>
        JDict (dict_set (KStr h) (remove_value_by_path x (Parsed p)) d)
    | None => JDict d
    end.
Proof.
  intros Hp. unfold remove_value_by_path.
  rewrite remove_match_cons by exact Hp. simpl find_step.
  destruct (dict_get (KStr h) d) as [x|] eqn:E; auto.
  destruct (remove_match p x); simpl; auto.
  now rewrite dict_set_get_same.
Qed.

Lemma remove_value_not_dict h p v :
  (forall d, v <> JDict d) ->
  remove_value_by_path v (Parsed (Fields h :: p)) = v.
Proof.
  intros H. unfold remove_value_by_path.
  destruct p as [|s p].
  - destruct v; try reflexivity. now elim (H d).
  - rewrite remove_match_cons by discriminate.
    destruct v; try reflexivity. now elim (H d).
Qed.

Lemma remove_value_last_field f d :
  remove_value_by_path (JDict d) (Parsed [Fields f])
  = JDict (dict_del (KStr f) d).
Proof.
  unfold remove_value_by_path. simpl.
  destruct (dict_get (KStr f) d) eqn:E; auto.
  now rewrite dict_del_absent.
Qed.

(** A removal below the field [f] is not seen through another field. *)
Lemma remove_other_field f g p q v :
  f <> g ->
  get_value_by_path (remove_value_by_path v (Parsed (Fields f :: p)))
                    (Parsed (Fields g :: q))
  = get_value_by_path v (Parsed (Fields g :: q)).
Proof.
  intros Hne.
  destruct v; try (rewrite remove_value_not_dict; [reflexivity | discriminate]).
  destruct p as [|s p].
  - rewrite remove_value_last_field.
    rewrite !get_field_cons, dict_get_del_other; auto. congruence.
  - rewrite remove_value_field_step by discriminate.
    destruct (dict_get (KStr f) d); auto.
    rewrite !get_field_cons, dict_get_set_other; auto. congruence.
Qed.

Lemma remove_frame c f g p q : f <> g -> forall v,
  get_value_by_path
    (remove_value_by_path v (Parsed (dotted c ++ Fields f :: p)))
    (Parsed (dotted c ++ Fields g :: q))
  = get_value_by_path v (Parsed (dotted c ++ Fields g :: q)).
Proof.
  intros Hne. induction c as [|h c IH]; intros v.
  - now apply remove_other_field.
  - change (dotted (h :: c) ++ Fields f :: p)
      with (Fields h :: (dotted c ++ Fields f :: p)).
    change (dotted (h :: c) ++ Fields g :: q)
      with (Fields h :: (dotted c ++ Fields g :: q)).
    destruct v;
      try (rewrite remove_value_not_dict; [reflexivity | discriminate]).
    rewrite remove_value_field_step by (destruct (dotted c); discriminate).
    destruct (dict_get (KStr h) d) as [x|] eqn:E; auto.
    rewrite !get_field_cons, dict_get_set_same, E. apply IH.
Qed.

End Frame.

Section KeepJson.

Import Py JsonPath.

Lemma fields_dotted l :
  forallb is_field l = true -> exists names, l = dotted names.
Proof.
  induction l as [|[f|i] l IH]; simpl; intros H; try discriminate.
  - now exists [].
  - destruct (IH H) as [names ->]. now exists (f :: names).
Qed.

Lemma set_no_index_json obj p val :
  is_json obj = true -> is_json val = true -> no_index p = true ->
  is_json (state_of (set_value_by_path obj p val)) = true.
Proof.
  intros Hj Hv Hp. destruct p as [l|]; auto.
  destruct (fields_dotted l Hp) as [names ->].
  destruct names as [|n names]; auto.
  destruct (exists_last (l := n :: names) ltac:(discriminate))
    as (init & f & ->).
  rewrite set_fields_state; auto. now apply update_chain_fields_json.
Qed.

Lemma del_nth_json n : forall l,
  is_json (JList l) = true -> is_json (JList (del_nth n l)) = true.
Proof.
  simpl. induction n as [|n IH]; intros [|y l] H; simpl in *; auto;
    apply andb_true_iff in H as [H1 H2]; auto.
  rewrite H1. simpl. now apply IH.
Qed.

Lemma remove_last_json last v v' :
  is_json v = true -> remove_match [last] v = Some v' -> is_json v' = true.
Proof.
  intros Hj H. cbn [remove_match] in H.
  destruct (find_step last v) as [[x|]|]; try discriminate.
  destruct v; try discriminate; destruct last as [f|i]; try discriminate.
  - unfold list_del in H. destruct (position (len l) i); try discriminate.
    inversion H. now apply del_nth_json.
  - inversion H. now apply dict_del_json.
Qed.

(** A removal keeps every key a string. *)
Lemma remove_value_json obj p :
  is_json obj = true -> is_json (remove_value_by_path obj p) = true.
Proof.
  intros Hj. destruct p as [l|]; auto. unfold remove_value_by_path.
  destruct (remove_match l obj) as [obj'|] eqn:R; auto.
  destruct l as [|s0 l0]; try discriminate.
  destruct (path_split (s0 :: l0) ltac:(discriminate)) as (init & last & E).
  rewrite E in R.
  destruct (find init obj) as [[x|]|] eqn:Hx.
  - rewrite (remove_match_along _ _ _ _ Hx) in R.
    destruct (remove_match [last] x) as [c|] eqn:Rc; try discriminate.
    inversion R; subst obj'.
    apply (plug_path_json _ _ _ x); auto.
    apply (remove_last_json last x); auto.
    exact (find_json _ _ _ Hj Hx).
  - rewrite unresolved_not_removed in R; try discriminate.
    intros y. rewrite find_app, Hx. discriminate.
  - rewrite unresolved_not_removed in R; try discriminate.
    intros y. rewrite find_app, Hx. discriminate.
Qed.

End KeepJson.

Section MergeKeepsJson.

Variable json_loads : string -> option json.

Hypothesis loads_json : forall s v, json_loads s = Some v -> is_json v = true.

Lemma update_field_json obj row key p :
  is_json obj = true -> no_index p = true ->
  is_json (state_of (update_field json_loads obj row key p)) = true.
Proof.
  intros Hj Hp. unfold update_field.
  destruct (row_get key row) as [text|]; auto.
  destruct (String.eqb key "ID"); auto.
  assert (forall t, is_json (cast_value json_loads text t) = true) as Hc
      by (intros t; now apply cast_value_json).
  destruct (get_value_by_path obj p) eqn:E;
    try (apply set_no_index_json; now auto);
    match goal with
    | |- context [if ?c then _ else _] => destruct c; auto
    end;
    simpl state_of; apply set_no_index_json; auto.
Qed.

Lemma update_from_csv_json row mapping : forall obj,
  is_json obj = true ->
  forallb (fun kp => no_index (snd kp)) mapping = true ->
  is_json (state_of (update_from_csv json_loads obj row mapping)) = true.
Proof.
  induction mapping as [|[key p] mapping IH]; intros obj Hj Hm; auto.
  simpl in Hm. apply andb_true_iff in Hm as [Hp Hm].
  pose proof (update_field_json obj row key p Hj Hp) as H.
  simpl. destruct (update_field json_loads obj row key p); auto.
Qed.

End MergeKeepsJson.

Lemma apply_entry_json obj e :
  is_json obj = true -> plain_entry e = true ->
  is_json (state_of (apply_entry obj e)) = true.
Proof.
  intros Hj He. unfold apply_entry, plain_entry in *.
  destruct (e_path e) as [p|]; auto.
  destruct (Py.truthy (e_operation e)); auto. simpl negb. cbv iota.
  destruct (e_operation e) as [ | | | |op| | ]; auto.
  destruct (String.eqb op "update").
  - destruct (e_value e) as [v|]; auto.
    apply andb_true_iff in He as [Hp Hv].
    destruct (get_value_by_path obj p);
      try (apply set_no_index_json; now auto);
      match goal with
      | |- context [if ?c then _ else _] => destruct c; auto
      end;
      apply set_no_index_json; auto.
  - destruct (String.eqb op "remove"); auto.
    simpl. now apply remove_value_json.
Qed.

Section StepFacts.

Import Py JsonPath.

(** The last step on a value that is there, in a container that is not a
    string: the value is replaced. *)
Lemma update_step_resolved last val x cur :
  is_json x = true -> is_json val = true ->
  find_step last x = Ok (Some cur) ->
  (forall s, x <> JStr s) ->
  exists c, update_step last val x = Done c
            /\ find_step last c = Ok (Some val)
            /\ is_json c = true.
Proof.
  intros Hj Hval Hf Hs. destruct last as [f|i].
  - destruct x; simpl in Hf; try discriminate.
    exists (JDict (dict_set (KStr f) val d)). simpl.
    rewrite dict_get_set_same. repeat split; auto.
    now apply dict_set_json.
  - pose proof (find_index_inv _ _ _ Hf) as (Ht & n & Hn & Hi & Hx).
    destruct x; simpl in Hn, Hx; try discriminate.
    + now elim (Hs s).
    + inversion Hn; subst n.
      destruct (list_get l i) as [y|] eqn:Hg; try discriminate.
      assert (l <> []) as Hl by (intros ->; discriminate).
      destruct (update_index_list i val l y Hg Hl Hi) as (l' & Hset & Hu).
      exists (JList l'). split; [exact Hu|]. split.
      * exact (find_index_list l l' i val Hl Hi Hset).
      * unfold list_set in Hset.
        destruct (position (len l) i); try discriminate.
        inversion Hset. now apply is_json_set_nth.
    + rewrite (dict_get_int_json i d Hj) in Hx. discriminate.
Qed.

End StepFacts.

Section SetInContainer.

Import Py JsonPath.

(** Writing at a path that resolves, the last step in a container that is
    not a string. *)
Lemma set_in_container obj p val cur :
  is_json obj = true -> is_json val = true ->
  p <> [] ->
  find p obj = Ok (Some cur) ->
  (forall s, find (removelast p) obj <> Ok (Some (JStr s))) ->
  exists obj', set_value_by_path obj (Parsed p) val = Done obj'
               /\ get_value_by_path obj' (Parsed p) = val
               /\ is_json obj' = true.
Proof.
  intros Hj Hval Hp Hf Hs.
  destruct (path_split p Hp) as (init & last & ->).
  rewrite removelast_last in Hs.
  rewrite find_app in Hf.
  destruct (find init obj) as [[x|]|] eqn:Hx; try discriminate.
  simpl in Hf.
  destruct (find_step last x) as [[y|]|] eqn:Hy; try discriminate.
  inversion Hf; subst y; clear Hf.
  assert (forall s, x <> JStr s) as Hxs by (intros s ->; now apply (Hs s)).
  destruct (update_step_resolved last val x cur
              (find_json _ _ _ Hj Hx) Hval Hy Hxs) as (c & Hu & Hfc & Hjc).
  exists (plug_path init c obj).
  assert (is_json (plug_path init c obj) = true) as Hjp
      by now apply (plug_path_json _ _ _ x).
  split; [|split; auto].
  - unfold set_value_by_path. rewrite update_or_create_snoc.
    rewrite (update_chain_along _ _ _ _ _ Hx), Hu. simpl.
    now rewrite clean_in_place_json.
  - unfold get_value_by_path.
    rewrite find_app, (find_plug_path _ _ _ _ Hx Hxs). simpl.
    now rewrite Hfc.
Qed.

End SetInContainer.

Section MergeFacts.

Variable json_loads : string -> option json.

Lemma update_field_skipped obj row kp :
  merged_column row kp = false ->
  update_field json_loads obj row (fst kp) (snd kp) = Done obj.
Proof.
  unfold merged_column, update_field.
  destruct (row_get (fst kp) row); auto.
  destruct (String.eqb (fst kp) "ID"); auto. discriminate.
Qed.

Lemma update_field_same_cell obj row row' key p :
  row_get key row = row_get key row' ->
  update_field json_loads obj row key p
  = update_field json_loads obj row' key p.
Proof. unfold update_field. now intros ->. Qed.

(** A field update on a value that is there and is not null. *)
Lemma update_field_existing obj row key text p cur :
  row_get key row = Some text -> key <> "ID" ->
  get_value_by_path obj p = cur -> cur <> JNull ->
  update_field json_loads obj row key p
  = let casted := cast_value json_loads text (get_type_from_value cur) in
    if is_container cur
       && negb (pytype_eqb (get_type_from_value casted)
                           (get_type_from_value cur))
    then Done obj
    else Done (state_of (set_value_by_path obj p casted)).
Proof.
  intros Hrow Hkey Hget Hcur. apply String.eqb_neq in Hkey.
  unfold update_field. rewrite Hrow, Hkey, Hget.
  destruct cur; try congruence; reflexivity.
Qed.

Lemma update_field_absent obj row key text p :
  row_get key row = Some text -> key <> "ID" ->
  get_value_by_path obj p = JNull ->
  update_field json_loads obj row key p
  = set_value_by_path obj p (JStr text).
Proof.
  intros Hrow Hkey Hget. apply String.eqb_neq in Hkey.
  unfold update_field. now rewrite Hrow, Hkey, Hget.
Qed.

Lemma update_from_csv_one obj row key p :
  update_from_csv json_loads obj row [(key, p)]
  = update_field json_loads obj row key p.
Proof. simpl. now destruct (update_field json_loads obj row key p). Qed.

End MergeFacts.

Section MergeExisting.

Variable json_loads : string -> option json.

Hypothesis loads_json : forall s v, json_loads s = Some v -> is_json v = true.

(** The table merge of one column on a value that is there. *)
Lemma merge_existing_value obj row key text p cur :
  is_json obj = true ->
  row_get key row = Some text -> key <> "ID" ->
  p <> [] ->
  JsonPath.find p obj = Ok (Some cur) -> cur <> JNull ->
  (forall s, JsonPath.find (removelast p) obj <> Ok (Some (JStr s))) ->
  (is_container cur = true ->
   get_type_from_value (cast_value json_loads text (get_type_from_value cur))
   = get_type_from_value cur) ->
  exists obj',
    update_from_csv json_loads obj row [(key, Parsed p)] = Done obj'
    /\ get_value_by_path obj' (Parsed p)
       = cast_value json_loads text (get_type_from_value cur)
    /\ is_json obj' = true.
Proof.
  intros Hj Hrow Hkey Hp Hf Hcur Hs Hc.
  set (casted := cast_value json_loads text (get_type_from_value cur)) in *.
  rewrite update_from_csv_one.
  rewrite (update_field_existing json_loads obj row key text (Parsed p) cur
             Hrow Hkey (get_value_resolved _ _ _ Hf) Hcur).
  cbv zeta. fold casted.
  assert (is_container cur
          && negb (pytype_eqb (get_type_from_value casted)
                              (get_type_from_value cur)) = false) as ->.
  { destruct (is_container cur); auto.
    rewrite (proj2 (pytype_eqb_eq _ _) (Hc eq_refl)). reflexivity. }
  assert (is_json casted = true) as Hjc by now apply cast_value_json.
  destruct (set_in_container obj p casted cur Hj Hjc Hp Hf Hs)
    as (obj' & Hset & Hget & Hj').
  exists obj'. now rewrite Hset.
Qed.

End MergeExisting.

Section MainFacts.

Variable json_loads : string -> option json.

Variable mapping : mapping_t.

Variable static_config : list entry.

Lemma csv_first_match_skip d rows1 : forall rows2,
  (forall r, In r rows1 -> same_id r d = false) ->
  csv_first_match json_loads mapping d (rows1 ++ rows2)
  = csv_first_match json_loads mapping d rows2.
Proof.
  induction rows1 as [|r rows1 IH]; intros rows2 H; auto.
  simpl. rewrite (H r (or_introl eq_refl)). apply IH.
  intros r' Hr'. apply H. now right.
Qed.

Lemma id_not_text_no_match d row :
  id_not_text (JDict d) = true -> same_id row d = false.
Proof.
  unfold id_not_text, same_id.
  destruct (Py.dict_get (KStr "id") d) as [[ | | | | | | ]|];
    try discriminate; intros _; now destruct (row_get "ID" row).
Qed.

Lemma csv_row_over_no_match row : forall objs,
  forallb id_not_text objs = true ->
  csv_row_over json_loads mapping row objs = Ok objs.
Proof.
  induction objs as [|o objs IH]; intros H; auto.
  simpl in H. apply andb_true_iff in H as [Ho H].
  destruct o; try discriminate.
  simpl. rewrite (id_not_text_no_match d row Ho), (IH H). reflexivity.
Qed.

Lemma csv_row_over_non_object row : forall objs,
  forallb is_object objs = false ->
  csv_row_over json_loads mapping row objs = Raise.
Proof.
  induction objs as [|o objs IH]; intros H; try discriminate.
  simpl in H. destruct o; try reflexivity. simpl in H.
  simpl. rewrite (IH H).
  destruct (if same_id row d
            then update_from_csv json_loads (JDict d) row mapping
            else Done (JDict d)); reflexivity.
Qed.

End MainFacts.

Section ReadFacts.

Import Py JsonPath.

Lemma get_value_found obj p v :
  get_value_by_path obj (Parsed p) = v -> v <> JNull ->
  find p obj = Ok (Some v).
Proof.
  unfold get_value_by_path.
  destruct (find p obj) as [[x|]|]; intros H Hv; congruence.
Qed.

Lemma find_one s v : find [s] v = find_step s v.
Proof. simpl. now destruct (find_step s v) as [[x|]|]. Qed.

Lemma position_out n i :
  0 <= n -> n <= i \/ i < - n -> position n i = None.
Proof.
  intros Hn H. unfold position.
  replace ((0 <=? i) && (i <? n)) with false
    by (symmetry; apply andb_false_iff; destruct H;
        [right; apply Z.ltb_ge | left; apply Z.leb_gt]; lia).
  replace ((i <? 0) && (- n <=? i)) with false; auto.
  symmetry. apply andb_false_iff. destruct H;
    [left; apply Z.ltb_ge | right; apply Z.leb_gt]; lia.
Qed.

(** Reading an index in a list. *)
Lemma get_index_list l i :
  get_value_by_path (JList l) (Parsed [Index i])
  = match list_get l i with Some x => x | None => JNull end.
Proof.
  unfold get_value_by_path. rewrite find_one.
  destruct l as [|y l].
  - unfold list_get. rewrite position_out; [reflexivity | reflexivity |].
    change (len []) with 0. lia.
  - cbn [find_step truthy length_of item].
    destruct (len (y :: l) >? i) eqn:E.
    + now destruct (list_get (y :: l) i).
    + unfold list_get. rewrite position_out; auto.
      * unfold len. lia.
      * left. rewrite Z.gtb_ltb in E. apply Z.ltb_ge in E. lia.
Qed.

End ReadFacts.

Section StringIndex.

Import Py JsonPath.

(** Writing at an index of a string raises and changes nothing. *)
Lemma set_in_string obj init s i cur val :
  find init obj = Ok (Some (JStr s)) ->
  find_step (Index i) (JStr s) = Ok (Some cur) ->
  set_value_by_path obj (Parsed (init ++ [Index i])) val = Raised obj.
Proof.
  intros Hf Hs. unfold set_value_by_path.
  rewrite update_or_create_snoc, (update_chain_along _ _ _ _ _ Hf).
  apply find_index_inv in Hs as (_ & n & Hn & Hi & _).
  simpl in Hn. inversion Hn; subst n.
  cbn [update_step]. rewrite (update_index_str i val s Hi). simpl.
  now rewrite (plug_path_same _ _ _ Hf).
Qed.

End StringIndex.

Section Again.

Variable json_loads : string -> option json.

Hypothesis loads_json : forall s v, json_loads s = Some v -> is_json v = true.

(** The cast of a text to the type of its own cast. *)
Lemma cast_value_stable text cur :
  cur <> JNull ->
  (is_container cur = true ->
   get_type_from_value (cast_value json_loads text (get_type_from_value cur))
   = get_type_from_value cur) ->
  let casted := cast_value json_loads text (get_type_from_value cur) in
  cast_value json_loads text (get_type_from_value casted) = casted
  /\ casted <> JNull.
Proof.
  intros Hcur Hc casted. unfold casted.
  destruct cur; try congruence; simpl get_type_from_value in *.
  - split; [reflexivity | discriminate].
  - unfold cast_value, conversion.
    destruct (Builtin.int text) eqn:E; simpl; rewrite ?E;
      split; try reflexivity; discriminate.
  - unfold cast_value, conversion.
    destruct (Builtin.float text) eqn:E; simpl; rewrite ?E;
      split; try reflexivity; discriminate.
  - split; [reflexivity | discriminate].
  - specialize (Hc eq_refl). rewrite Hc. split; auto.
    intros H. rewrite H in Hc. discriminate.
  - specialize (Hc eq_refl). rewrite Hc. split; auto.
    intros H. rewrite H in Hc. discriminate.
Qed.

(** A field update that writes what is there. *)
Lemma update_field_settled obj row key text p cur :
  is_json obj = true ->
  row_get key row = Some text -> key <> "ID" ->
  JsonPath.find p obj = Ok (Some cur) -> cur <> JNull ->
  cast_value json_loads text (get_type_from_value cur) = cur ->
  update_field json_loads obj row key (Parsed p) = Done obj.
Proof.
  intros Hj Hrow Hkey Hf Hcur Hcast.
  rewrite (update_field_existing json_loads obj row key text (Parsed p) cur
             Hrow Hkey (get_value_resolved _ _ _ Hf) Hcur).
  cbv zeta. rewrite Hcast.
  rewrite (proj2 (pytype_eqb_eq _ _) eq_refl), andb_false_r.
  destruct (set_same_value obj p cur Hj Hf) as [-> | [-> _]]; reflexivity.
Qed.

Lemma find_field_parent init f obj cur :
  JsonPath.find (dotted init ++ [Fields f]) obj = Ok (Some cur) ->
  forall s, JsonPath.find (dotted init) obj <> Ok (Some (JStr s)).
Proof.
  intros H s Hs. rewrite find_app, Hs in H. discriminate H.
Qed.

End Again.

Section Shape.

Import Py JsonPath.

Lemma dict_get_cleaned_values k d :
  dict_get k d = None ->
  dict_get k (map (fun kv => (fst kv, cleaned (snd kv))) d) = None.
Proof.
  induction d as [|[k' v] d IH]; simpl; auto.
  destruct (pykey_eqb k k'); try discriminate. exact IH.
Qed.

Lemma clean_in_place_dict d : is_object (clean_in_place (JDict d)) = true.
Proof.
  unfold clean_in_place. destruct (dict_get KList d) eqn:E; auto.
  simpl. now rewrite (dict_get_cleaned_values _ _ E).
Qed.

Lemma update_index_dict i val d :
  is_object (state_of (update_index i val (JDict d))) = true.
Proof.
  unfold update_index, pad_value. simpl.
  destruct (len d <=? i); auto. simpl.
  destruct (len d >? i); auto.
Qed.

Lemma update_step_dict last val d :
  is_object (state_of (update_step last val (JDict d))) = true.
Proof.
  destruct last as [f|i]; auto.
  destruct d as [|kv d].
  - simpl. now destruct (update_index i val (JList [empty_dict])).
  - apply update_index_dict.
Qed.

(** Whatever an upsert does below, the object it starts from stays an
    object. *)
Lemma update_chain_dict init last val d :
  is_object (state_of (update_chain init last val (JDict d))) = true.
Proof.
  destruct init as [|[f|i] rest].
  - apply update_step_dict.
  - rewrite update_chain_field_step. now rewrite state_of_map_effect.
  - destruct d as [|kv d].
    + cbn [update_chain].
      destruct (create_index i (JList [empty_dict])) as [w [[x|]|]]; auto.
      now rewrite state_of_map_effect.
    + cbn [update_chain]. unfold create_index, pad_value.
      cbn [length_of]. destruct (len (kv :: d) <=? i); auto.
      cbn [truthy length_of]. destruct (len (kv :: d) >? i); auto.
      destruct (item (JDict (kv :: d)) i); auto.
      now rewrite state_of_map_effect.
Qed.

Lemma set_value_dict d p val :
  is_object (state_of (set_value_by_path (JDict d) p val)) = true.
Proof.
  destruct p as [l|]; auto. destruct l as [|s0 l0]; auto.
  destruct (path_split (s0 :: l0) ltac:(discriminate)) as (init & last & ->).
  unfold set_value_by_path. rewrite update_or_create_snoc.
  pose proof (update_chain_dict init last val d) as H.
  destruct (update_chain init last val (JDict d)) as [o|o]; auto.
  simpl in H. destruct o; try discriminate. apply clean_in_place_dict.
Qed.

Lemma remove_value_dict d p :
  is_object (remove_value_by_path (JDict d) p) = true.
Proof.
  destruct p as [l|]; auto. unfold remove_value_by_path.
  destruct (remove_match l (JDict d)) as [o|] eqn:R; auto.
  destruct l as [|s l]; try discriminate.
  destruct l as [|s' l].
  - simpl in R. destruct (find_step s (JDict d)) as [[x|]|]; try discriminate.
    destruct s; try discriminate. now inversion R.
  - rewrite remove_match_cons in R by discriminate.
    destruct (find_step s (JDict d)) as [[x|]|]; try discriminate.
    destruct (remove_match (s' :: l) x); try discriminate.
    inversion R. now destruct s.
Qed.

End Shape.

Section MergersShape.

Variable json_loads : string -> option json.

Lemma update_field_dict d row key p :
  is_object (state_of (update_field json_loads (JDict d) row key p)) = true.
Proof.
  unfold update_field.
  destruct (row_get key row); auto.
  destruct (String.eqb key "ID"); auto.
  destruct (get_value_by_path (JDict d) p);
    try apply set_value_dict;
    match goal with
    | |- context [if ?c then _ else _] => destruct c; auto
    end;
    apply set_value_dict.
Qed.

Lemma update_from_csv_dict row mapping : forall obj,
  is_object obj = true ->
  is_object (state_of (update_from_csv json_loads obj row mapping)) = true.
Proof.
  induction mapping as [|[key p] mapping IH]; intros obj Ho; auto.
  destruct obj; try discriminate.
  pose proof (update_field_dict d row key p) as H.
  simpl. destruct (update_field json_loads (JDict d) row key p); auto.
Qed.

Lemma apply_entry_dict d e :
  is_object (state_of (apply_entry (JDict d) e)) = true.
Proof.
  unfold apply_entry.
  destruct (e_path e); auto.
  destruct (negb (Py.truthy (e_operation e))); auto.
  destruct (e_operation e) as [ | | | |op| | ]; auto.
  destruct (String.eqb op "update").
  - destruct (e_value e); auto.
    destruct (get_value_by_path (JDict d) p);
      try apply set_value_dict;
      match goal with
      | |- context [if ?c then _ else _] => destruct c; auto
      end;
      apply set_value_dict.
  - destruct (String.eqb op "remove"); auto. apply remove_value_dict.
Qed.

Lemma update_from_static_config_dict static_config : forall obj,
  is_object obj = true ->
  is_object (state_of (update_from_static_config obj static_config)) = true.
Proof.
  induction static_config as [|e cfg IH]; intros obj Ho; auto.
  destruct obj; try discriminate.
  pose proof (apply_entry_dict d e) as H.
  simpl. destruct (apply_entry (JDict d) e); auto.
Qed.

Variable mapping : mapping_t.

Variable static_config : list entry.

Lemma csv_first_match_dict d rows :
  is_object (state_of (csv_first_match json_loads mapping d rows)) = true.
Proof.
  induction rows as [|r rows IH]; auto.
  simpl. destruct (same_id r d); auto. now apply update_from_csv_dict.
Qed.

Lemma csv_row_over_length row : forall objs objs',
  csv_row_over json_loads mapping row objs = Ok objs' ->
  List.length objs' = List.length objs.
Proof.
  induction objs as [|o objs IH]; intros objs' H.
  - now inversion H.
  - simpl in H. destruct o; try discriminate.
    destruct (if same_id row d
              then update_from_csv json_loads (JDict d) row mapping
              else Done (JDict d)); try discriminate.
    destruct (csv_row_over json_loads mapping row objs) as [rest|];
      try discriminate.
    inversion H. simpl. now rewrite (IH rest).
Qed.

Lemma csv_over_length rows : forall objs objs',
  csv_over json_loads mapping rows objs = Ok objs' ->
  List.length objs' = List.length objs.
Proof.
  induction rows as [|r rows IH]; intros objs objs' H.
  - now inversion H.
  - simpl in H.
    destruct (csv_row_over json_loads mapping r objs) as [objs1|] eqn:E;
      try discriminate.
    rewrite (IH _ _ H). now apply (csv_row_over_length r).
Qed.

Lemma dump_all_length st : forall held objs',
  Heap.dump_all held st = Some objs' ->
  List.length objs' = List.length held.
Proof.
  induction held as [|v held IH]; intros objs' H; cbn [Heap.dump_all] in H.
  - now inversion H.
  - destruct (Heap.dump (S (List.length st)) v st); try discriminate.
    destruct (Heap.dump_all held st) as [ys|]; try discriminate.
    inversion H. simpl. f_equal. now apply IH.
Qed.

Lemma load_all_length : forall objs st,
  List.length (fst (Heap.load_all objs st)) = List.length objs.
Proof.
  induction objs as [|o objs IH]; intros st; simpl; auto.
  destruct (Heap.load o st) as [x st1].
  specialize (IH st1).
  destruct (Heap.load_all objs st1) as [xs st2]. simpl in *. now rewrite IH.
Qed.

Lemma static_over_length : forall objs objs',
  static_over static_config objs = Ok objs' ->
  List.length objs' = List.length objs.
Proof.
  intros objs objs' H. unfold static_over in H.
  pose proof (load_all_length objs []) as Hl.
  destruct (Heap.load_all objs []) as [held st0].
  destruct (Heap.load_config static_config st0) as [config st1].
  destruct (static_loop held config st1) as [st2|]; try discriminate.
  destruct (Heap.dump_all held st2) as [l|] eqn:Ed; try discriminate.
  inversion H; subst. rewrite (dump_all_length _ _ _ Ed). exact Hl.
Qed.

End MergersShape.

Section ParentRejects.

Import Py JsonPath.

(** Below a parent that takes no field, the field reads as [None]. *)
Lemma get_below_rejecting init f obj x :
  find (dotted init) obj = Ok (Some x) -> rejects_fields x = true ->
  get_value_by_path obj (Parsed (dotted (init ++ [f]))) = JNull.
Proof.
  intros Hx Hr. unfold get_value_by_path.
  rewrite dotted_snoc, find_app, Hx. now destruct x.
Qed.

(** A field in an object: writing it does not raise. *)
Lemma set_field_found init f obj cur val :
  find (dotted (init ++ [f])) obj = Ok (Some cur) ->
  forall o, set_value_by_path obj (Parsed (dotted (init ++ [f]))) val
            <> Raised o.
Proof.
  intros Hf o H.
  destruct (proj1 (proj1 (set_fields_raised obj val init f))
                  (ex_intro _ o H)) as (x & Hx & Hr).
  rewrite dotted_snoc, find_app, Hx in Hf. destruct x; discriminate.
Qed.

End ParentRejects.

(* ================================================================== *)
(** * Further properties of the program *)

(** ** Reading, writing and removing by path *)

(** X1.  Reading a path in two stages gives what reading it at once gives:
    the value at [p ++ q] in the document is the value at [q] in the value
    at [p].  A first stage that matches nothing, or raises, reads as
    [None], and everything below [None] reads as [None]. *)
Theorem get_value_by_path_composes :
  forall (obj : json) (p q : jsonpath),
    get_value_by_path obj (Parsed (p ++ q))
    = get_value_by_path (get_value_by_path obj (Parsed p)) (Parsed q).
Proof.
  intros obj p q. unfold get_value_by_path at 1 3.
  rewrite find_app.
  destruct (JsonPath.find p obj) as [[x|]|].
  - reflexivity.
  - now rewrite get_below_none.
  - now rewrite get_below_none.
Qed.

(** X2.  Reading an index of a list never raises and never fails: an index
    from 0 counts from the front, a negative one from the end, and an index
    outside the list reads as [None]. *)
Theorem list_index_read :
  forall (obj : json) (init : jsonpath) (l : list json) (i : Z),
    JsonPath.find init obj = Ok (Some (JList l)) ->
    let n := Py.len l in
    let read := get_value_by_path obj (Parsed (init ++ [Index i])) in
    (0 <= i < n -> Some read = nth_error l (Z.to_nat i))
    /\ (- n <= i < 0 -> Some read = nth_error l (Z.to_nat (n + i)))
    /\ (n <= i \/ i < - n -> read = JNull).
Proof.
  intros obj init l i Hf n read.
  assert (read = match Py.list_get l i with Some x => x | None => JNull end)
    as Hread.
  { unfold read, get_value_by_path. rewrite find_app, Hf.
    apply get_index_list. }
  rewrite Hread. unfold Py.list_get, Py.position. fold n.
  split; [|split].
  - intros [H0 H1].
    replace ((0 <=? i) && (i <? n)) with true
      by (symmetry; apply andb_true_iff;
          split; [apply Z.leb_le | apply Z.ltb_lt]; lia).
    destruct (nth_error l (Z.to_nat i)) eqn:E; auto.
    apply nth_error_None in E. unfold n, Py.len in *. lia.
  - intros [H0 H1].
    replace ((0 <=? i) && (i <? n)) with false
      by (symmetry; apply andb_false_iff; left; apply Z.leb_gt; lia).
    replace ((i <? 0) && (- n <=? i)) with true
      by (symmetry; apply andb_true_iff;
          split; [apply Z.ltb_lt | apply Z.leb_le]; lia).
    destruct (nth_error l (Z.to_nat (n + i))) eqn:E; auto.
    apply nth_error_None in E. unfold n, Py.len in *. lia.
  - intros H.
    assert (0 <= n) as Hn by (unfold n, Py.len; lia).
    replace ((0 <=? i) && (i <? n)) with false
      by (symmetry; apply andb_false_iff; destruct H;
          [right; apply Z.ltb_ge | left; apply Z.leb_gt]; lia).
    replace ((i <? 0) && (- n <=? i)) with false; auto.
    symmetry. apply andb_false_iff. destruct H;
      [left; apply Z.ltb_ge | right; apply Z.leb_gt]; lia.
Qed.

(** The last of three elements, read with the index -1. *)
Lemma list_index_read_witness :
  JsonPath.find [Fields "a"] (object [("a", JList [JInt 10; JInt 20; JInt 30])])
  = Ok (Some (JList [JInt 10; JInt 20; JInt 30]))
  /\ Some (get_value_by_path (object [("a", JList [JInt 10; JInt 20; JInt 30])])
                             (Parsed ([Fields "a"] ++ [Index (-1)])))
     = Some (JInt 30).
Proof.
  split; [reflexivity|].
  pose proof (list_index_read
                (object [("a", JList [JInt 10; JInt 20; JInt 30])])
                [Fields "a"] [JInt 10; JInt 20; JInt 30] (-1) eq_refl) as H.
  cbv zeta in H. destruct H as (_ & H & _).
  rewrite H; [reflexivity | unfold Py.len; simpl; lia].
Defined.

(** X3.  Writing back the value that a path reads leaves the document as it
    is.  The write returns, unless the value was read out of a string. *)
Theorem write_back_changes_nothing :
  forall (obj : json) (p : jsonpath) (cur : json),
    is_json obj = true ->
    JsonPath.find p obj = Ok (Some cur) ->
    state_of (set_value_by_path obj (Parsed p) cur) = obj
    /\ (set_value_by_path obj (Parsed p) cur = Done obj
        \/ exists s, cur = JStr s).
Proof.
  intros obj p cur Hj Hf.
  destruct (set_same_value obj p cur Hj Hf) as [H | [H Hs]];
    rewrite H; simpl; auto.
Qed.

(** Writing 5 back to [$.count] of [{"id":"1","count":5}]. *)
Lemma write_back_changes_nothing_witness :
  JsonPath.find (dotted ["count"]) (object [("id", JStr "1"); ("count", JInt 5)])
  = Ok (Some (JInt 5))
  /\ state_of (set_value_by_path (object [("id", JStr "1"); ("count", JInt 5)])
                                 (Parsed (dotted ["count"])) (JInt 5))
     = object [("id", JStr "1"); ("count", JInt 5)].
Proof.
  split; [reflexivity|].
  apply (write_back_changes_nothing
           (object [("id", JStr "1"); ("count", JInt 5)])
           (dotted ["count"]) (JInt 5) eq_refl eq_refl).
Defined.

(** X4.  Of two values written at the same path of field names, the later
    one stays, as if the first had never been written. *)
Theorem last_write_wins :
  forall (D V1 V2 : json) (names : list string),
    is_json D = true -> is_json V1 = true -> is_json V2 = true ->
    let P := Parsed (dotted names) in
    state_of (set_value_by_path (state_of (set_value_by_path D P V1)) P V2)
    = state_of (set_value_by_path D P V2).
Proof.
  intros D V1 V2 names HD H1 H2 P. unfold P.
  destruct names as [|n names]; [reflexivity|].
  destruct (exists_last (l := n :: names) ltac:(discriminate))
    as (init & f & ->).
  rewrite (set_fields_state D init f V1 HD H1).
  rewrite (set_fields_state D init f V2 HD H2).
  rewrite set_fields_state; auto.
  - apply update_chain_fields_twice.
  - now apply update_chain_fields_json.
Qed.

(** 1 and then 2 at [$.a.b] of [{}]. *)
Lemma last_write_wins_witness :
  state_of (set_value_by_path
              (state_of (set_value_by_path (object []) (Parsed (dotted ["a"; "b"]))
                                           (JInt 1)))
              (Parsed (dotted ["a"; "b"])) (JInt 2))
  = object [("a", object [("b", JInt 2)])].
Proof.
  rewrite (last_write_wins (object []) (JInt 1) (JInt 2) ["a"; "b"]
             eq_refl eq_refl eq_refl).
  reflexivity.
Defined.

(** X5.  An upsert at a path of field names is not seen through any path
    that leaves it at a different field name: whatever is read there is
    what was read before. *)
Theorem upsert_leaves_other_fields :
  forall (D V : json) (c : list string) (f g : string)
         (r : list string) (q : jsonpath),
    is_json D = true -> is_json V = true ->
    f <> g ->
    get_value_by_path
      (state_of (set_value_by_path D (Parsed (dotted (c ++ f :: r))) V))
      (Parsed (dotted c ++ Fields g :: q))
    = get_value_by_path D (Parsed (dotted c ++ Fields g :: q)).
Proof.
  intros D V c f g r q HD HV Hne.
  destruct (exists_last (l := c ++ f :: r) ltac:(destruct c; discriminate))
    as (init & last & E).
  rewrite E, (set_fields_state D init last V HD HV).
  destruct r as [|r0 r].
  - apply app_inj_tail in E as [<- <-].
    rewrite <- (app_nil_r (dotted c)) at 1.
    apply update_chain_frame. intros x.
    now apply update_step_other_field.
  - destruct (exists_last (l := r0 :: r) ltac:(discriminate))
      as (r' & last' & E').
    rewrite E' in E.
    replace (c ++ f :: r' ++ [last']) with ((c ++ f :: r') ++ [last']) in E
      by now rewrite <- app_assoc.
    apply app_inj_tail in E as [<- <-].
    unfold dotted at 1. rewrite map_app. fold (dotted c).
    apply update_chain_frame. intros x.
    now apply update_chain_other_field.
Qed.

(** Writing [$.a.b] of [{"a":{"c":7}}] is not seen at [$.a.c]. *)
Lemma upsert_leaves_other_fields_witness :
  "b" <> "c"
  /\ get_value_by_path
       (state_of (set_value_by_path (object [("a", object [("c", JInt 7)])])
                                    (Parsed (dotted (["a"] ++ "b" :: []))) (JInt 1)))
       (Parsed (dotted ["a"] ++ Fields "c" :: []))
     = JInt 7.
Proof.
  assert ("b" <> "c") as H by discriminate.
  split; [exact H|].
  rewrite (upsert_leaves_other_fields
             (object [("a", object [("c", JInt 7)])]) (JInt 1)
             ["a"] "b" "c" [] [] eq_refl eq_refl H).
  reflexivity.
Defined.

(** X6.  Where the existing part of a path of field names is not
    map-shaped, the upsert writes nothing: the document is as before and
    the path still reads as [None]. *)
Theorem upsert_below_non_map_writes_nothing :
  forall (D V : json) (names : list string),
    is_json D = true ->
    map_shaped names D = false ->
    state_of (set_value_by_path D (Parsed (dotted names)) V) = D
    /\ get_value_by_path D (Parsed (dotted names)) = JNull.
Proof.
  intros D V names HD Hs.
  destruct names as [|n names]; [discriminate|].
  destruct (exists_last (l := n :: names) ltac:(discriminate))
    as (init & f & E). rewrite E in *. clear E n names.
  destruct (update_chain_not_map_shaped V f init D Hs) as [Hst Hf].
  split.
  - unfold set_value_by_path.
    rewrite dotted_snoc, update_or_create_snoc.
    destruct (JsonPath.update_chain (dotted init) (Fields f) V D);
      simpl in *; subst; auto.
    now apply clean_in_place_json.
  - unfold get_value_by_path. now rewrite Hf.
Qed.

(** [$.a.b.c] in [{"a":5}]. *)
Lemma upsert_below_non_map_writes_nothing_witness :
  map_shaped ["a"; "b"; "c"] (object [("a", JInt 5)]) = false
  /\ state_of (set_value_by_path (object [("a", JInt 5)])
                                 (Parsed (dotted ["a"; "b"; "c"])) (JInt 1))
     = object [("a", JInt 5)]
  /\ get_value_by_path (object [("a", JInt 5)]) (Parsed (dotted ["a"; "b"; "c"]))
     = JNull.
Proof.
  split; [reflexivity|].
  apply (upsert_below_non_map_writes_nothing
           (object [("a", JInt 5)]) (JInt 1) ["a"; "b"; "c"] eq_refl eq_refl).
Defined.

(** X7.  The upsert at a path of field names raises exactly when the parent
    of the last name is there and is neither [None] nor an object; the
    document is then as before. *)
Theorem upsert_raises_iff_parent_rejects :
  forall (D V : json) (init : list string) (f : string),
    let P := Parsed (dotted (init ++ [f])) in
    ((exists D', set_value_by_path D P V = Raised D')
     <-> exists x, JsonPath.find (dotted init) D = Ok (Some x)
                   /\ rejects_fields x = true)
    /\ (forall D', set_value_by_path D P V = Raised D' -> D' = D).
Proof.
  intros D V init f P. apply set_fields_raised.
Qed.

(** [$.x.y] in [{"x":5}]: the parent is the number 5. *)
Lemma upsert_raises_iff_parent_rejects_witness :
  JsonPath.find (dotted ["x"]) (object [("x", JInt 5)]) = Ok (Some (JInt 5))
  /\ rejects_fields (JInt 5) = true
  /\ exists D', set_value_by_path (object [("x", JInt 5)])
                                  (Parsed (dotted (["x"] ++ ["y"]))) (JInt 1)
                = Raised D'.
Proof.
  split; [reflexivity|]. split; [reflexivity|].
  apply (proj2 (proj1 (upsert_raises_iff_parent_rejects
                         (object [("x", JInt 5)]) (JInt 1) ["x"] "y"))).
  exists (JInt 5). split; reflexivity.
Defined.

(** X8.  Writing at an index past the end of a list pads the list with
    empty objects up to that index. *)
Theorem write_past_end_pads_list :
  forall (obj : json) (init : jsonpath) (l : list json) (i : Z) (V : json),
    is_json obj = true -> is_json V = true ->
    JsonPath.find init obj = Ok (Some (JList l)) ->
    Py.len l <= i ->
    exists obj',
      set_value_by_path obj (Parsed (init ++ [Index i])) V = Done obj'
      /\ JsonPath.find init obj'
         = Ok (Some (JList (l ++ repeat JsonPath.empty_dict
                                        (Z.to_nat (i - Py.len l)) ++ [V])))
      /\ get_value_by_path obj' (Parsed (init ++ [Index i])) = V.
Proof.
  intros obj init l i V Hj HV Hf Hi.
  set (k := Z.to_nat (i - Py.len l)).
  set (l' := l ++ repeat JsonPath.empty_dict k ++ [V]).
  assert (JsonPath.update_step (Index i) V (JList l) = Done (JList l')) as Hstep.
  { simpl. unfold JsonPath.update_index, JsonPath.pad_value. simpl.
    apply Z.leb_le in Hi as Hi'. rewrite Hi'.
    replace (Z.to_nat (i - Py.len l + 1)) with (S k) by (unfold k; lia).
    assert (Py.len (l ++ repeat JsonPath.empty_dict (S k)) = i + 1) as Hlen.
    { unfold Py.len. rewrite length_app, repeat_length. unfold Py.len in *. lia. }
    cbn [Py.length_of JsonPath.store_item]. rewrite Hlen.
    replace (i + 1 >? i) with true by (symmetry; apply Z.gtb_lt; lia).
    unfold Py.list_set, Py.position. rewrite Hlen.
    assert (0 <= i) as H0 by (unfold Py.len in Hi; lia).
    replace ((0 <=? i) && (i <? i + 1)) with true
      by (symmetry; apply andb_true_iff;
          split; [apply Z.leb_le | apply Z.ltb_lt]; lia).
    replace (Z.to_nat i) with (List.length l + k)%nat
      by (unfold k, Py.len in *; lia).
    now rewrite set_nth_app_repeat. }
  assert (is_json (JList l') = true) as Hl'.
  { pose proof (find_json _ _ _ Hj Hf) as Hl. simpl in Hl. simpl. unfold l'.
    rewrite !forallb_app, Hl. simpl. rewrite HV.
    now rewrite repeat_json. }
  exists (plug_path init (JList l') obj).
  assert (JsonPath.find init (plug_path init (JList l') obj)
          = Ok (Some (JList l'))) as Hfound
      by (apply (find_plug_path _ _ _ _ Hf); discriminate).
  split; [|split].
  - unfold set_value_by_path. rewrite update_or_create_snoc.
    rewrite (update_chain_along _ _ _ _ _ Hf), Hstep. simpl.
    rewrite clean_in_place_json; auto.
    now apply (plug_path_json _ _ _ _ Hj Hl' Hf).
  - exact Hfound.
  - unfold get_value_by_path. rewrite find_app, Hfound.
    assert (JsonPath.find [Index i] (JList l') = Ok (Some V)) as ->; auto.
    assert (Py.len l' = i + 1) as Hlen.
    { unfold l', Py.len. rewrite !length_app, repeat_length. simpl.
      unfold k, Py.len in *. lia. }
    assert (Py.list_get l' i = Some V) as Hget.
    { unfold Py.list_get, Py.position. rewrite Hlen.
      assert (0 <= i) as H0 by (unfold Py.len in Hi; lia).
      replace ((0 <=? i) && (i <? i + 1)) with true
        by (symmetry; apply andb_true_iff;
            split; [apply Z.leb_le | apply Z.ltb_lt]; lia).
      unfold l'. rewrite app_assoc.
      replace (Z.to_nat i)
        with (List.length (l ++ repeat JsonPath.empty_dict k))
        by (rewrite length_app, repeat_length; unfold k, Py.len in *; lia).
      apply nth_error_app_mid. }
    simpl. unfold l' at 1. destruct l; simpl app.
    + destruct k; simpl; fold l'; rewrite Hlen;
        replace (i + 1 >? i) with true by (symmetry; apply Z.gtb_lt; lia);
        now rewrite Hget.
    + fold l'. rewrite Hlen.
      replace (i + 1 >? i) with true by (symmetry; apply Z.gtb_lt; lia).
      now rewrite Hget.
Qed.

(** 9 at [$.a[3]] of [{"a":[1]}]. *)
Lemma write_past_end_pads_list_witness :
  Py.len [JInt 1] <= 3
  /\ exists obj',
       set_value_by_path (object [("a", JList [JInt 1])])
                         (Parsed ([Fields "a"] ++ [Index 3])) (JInt 9)
       = Done obj'
       /\ JsonPath.find [Fields "a"] obj'
          = Ok (Some (JList ([JInt 1]
                             ++ repeat JsonPath.empty_dict
                                       (Z.to_nat (3 - Py.len [JInt 1]))
                             ++ [JInt 9])))
       /\ get_value_by_path obj' (Parsed ([Fields "a"] ++ [Index 3])) = JInt 9.
Proof.
  assert (Py.len [JInt 1] <= 3) as H by (vm_compute; discriminate).
  split; [exact H|].
  apply (write_past_end_pads_list (object [("a", JList [JInt 1])])
           [Fields "a"] [JInt 1] 3 (JInt 9) eq_refl eq_refl eq_refl H).
Defined.

(** X9.  Removing the index [i] of a list takes out exactly the element at
    that position, counted from the front, or from the end for a negative
    index; the elements after it move up by one. *)
Theorem remove_index_deletes_that_element :
  forall (obj : json) (init : jsonpath) (l1 l2 : list json) (x : json) (i : Z),
    JsonPath.find init obj = Ok (Some (JList (l1 ++ x :: l2))) ->
    i = Py.len l1 \/ i = - Py.len (x :: l2) ->
    get_value_by_path obj (Parsed (init ++ [Index i])) = x
    /\ get_value_by_path
         (remove_value_by_path obj (Parsed (init ++ [Index i])))
         (Parsed init)
       = JList (l1 ++ l2).
Proof.
  intros obj init l1 l2 x i Hf Hi.
  pose proof (position_mid x l1 l2 i Hi) as Hpos.
  assert (Py.list_get (l1 ++ x :: l2) i = Some x) as Hget.
  { unfold Py.list_get. rewrite Hpos. apply nth_error_app_mid. }
  assert ((Py.len (l1 ++ x :: l2) >? i) = true) as Hlen.
  { apply Z.gtb_lt. unfold Py.len in *. rewrite length_app. simpl List.length.
    simpl List.length in Hi. lia. }
  assert (JsonPath.find_step (Index i) (JList (l1 ++ x :: l2)) = Ok (Some x))
    as Hstep.
  { apply find_index_intro with (n := Py.len (l1 ++ x :: l2)); auto.
    - destruct l1; reflexivity.
    - simpl. now rewrite Hget. }
  split.
  - unfold get_value_by_path. rewrite find_app, Hf. cbn [JsonPath.find].
    now rewrite Hstep.
  - unfold remove_value_by_path.
    rewrite (remove_match_along _ _ _ _ Hf).
    assert (remove_match [Index i] (JList (l1 ++ x :: l2))
            = Some (JList (l1 ++ l2))) as ->.
    { cbn [remove_match]. rewrite Hstep. unfold Py.list_del. rewrite Hpos.
      now rewrite del_nth_app. }
    unfold get_value_by_path.
    rewrite (find_plug_path _ _ _ _ Hf); [reflexivity | discriminate].
Qed.

(** Removing [$.a[1]] from [{"a":[1,2,3]}]. *)
Lemma remove_index_deletes_that_element_witness :
  get_value_by_path (object [("a", JList ([JInt 1] ++ JInt 2 :: [JInt 3]))])
                    (Parsed ([Fields "a"] ++ [Index 1])) = JInt 2
  /\ get_value_by_path
       (remove_value_by_path
          (object [("a", JList ([JInt 1] ++ JInt 2 :: [JInt 3]))])
          (Parsed ([Fields "a"] ++ [Index 1])))
       (Parsed [Fields "a"])
     = JList ([JInt 1] ++ [JInt 3]).
Proof.
  apply (remove_index_deletes_that_element
           (object [("a", JList ([JInt 1] ++ JInt 2 :: [JInt 3]))])
           [Fields "a"] [JInt 1] [JInt 3] (JInt 2) 1 eq_refl).
  left. reflexivity.
Defined.

(** X10.  A removal at a path is not seen through any path that leaves it at
    a different field name. *)
Theorem remove_leaves_other_fields :
  forall (D : json) (c : list string) (f g : string) (p q : jsonpath),
    f <> g ->
    get_value_by_path
      (remove_value_by_path D (Parsed (dotted c ++ Fields f :: p)))
      (Parsed (dotted c ++ Fields g :: q))
    = get_value_by_path D (Parsed (dotted c ++ Fields g :: q)).
Proof.
  intros D c f g p q Hne. now apply remove_frame.
Qed.

(** Removing [$.a.b] from [{"a":{"b":1,"c":7}}] is not seen at [$.a.c]. *)
Lemma remove_leaves_other_fields_witness :
  "b" <> "c"
  /\ get_value_by_path
       (remove_value_by_path
          (object [("a", object [("b", JInt 1); ("c", JInt 7)])])
          (Parsed (dotted ["a"] ++ Fields "b" :: [])))
       (Parsed (dotted ["a"] ++ Fields "c" :: []))
     = JInt 7.
Proof.
  assert ("b" <> "c") as H by discriminate.
  split; [exact H|].
  rewrite (remove_leaves_other_fields
             (object [("a", object [("b", JInt 1); ("c", JInt 7)])])
             ["a"] "b" "c" [] [] H).
  reflexivity.
Defined.

(** X11.  A field created in an object that did not have it, and removed
    again, leaves the document as it was. *)
Theorem create_then_remove_restores :
  forall (obj : json) (init : jsonpath) (d : pydict) (f : string) (V : json),
    is_json obj = true -> is_json V = true ->
    JsonPath.find init obj = Ok (Some (JDict d)) ->
    Py.dict_get (KStr f) d = None ->
    exists obj',
      set_value_by_path obj (Parsed (init ++ [Fields f])) V = Done obj'
      /\ get_value_by_path obj' (Parsed (init ++ [Fields f])) = V
      /\ remove_value_by_path obj' (Parsed (init ++ [Fields f])) = obj.
Proof.
  intros obj init d f V Hj HV Hf Hd.
  set (d' := Py.dict_set (KStr f) V d).
  assert (is_json (JDict d') = true) as Hd'.
  { apply dict_set_json; auto. exact (find_json _ _ _ Hj Hf). }
  assert (JsonPath.find init (plug_path init (JDict d') obj)
          = Ok (Some (JDict d'))) as Hfound
      by (apply (find_plug_path _ _ _ _ Hf); discriminate).
  exists (plug_path init (JDict d') obj). split; [|split].
  - unfold set_value_by_path. rewrite update_or_create_snoc.
    rewrite (update_chain_along _ _ _ _ _ Hf). simpl.
    rewrite clean_in_place_json; auto.
    now apply (plug_path_json _ _ _ _ Hj Hd' Hf).
  - unfold get_value_by_path. rewrite find_app, Hfound. simpl.
    unfold d'. now rewrite dict_get_set_same.
  - unfold remove_value_by_path.
    rewrite (remove_match_along _ _ _ _ Hfound).
    cbn [remove_match JsonPath.find_step]. unfold d' at 1.
    rewrite dict_get_set_same. unfold d' at 1.
    rewrite (dict_del_set_absent _ _ _ Hd).
    rewrite (plug_path_twice _ _ _ _ _ Hf) by discriminate.
    now apply plug_path_same.
Qed.

(** [$.a.b] created in [{"a":{}}] and removed again. *)
Lemma create_then_remove_restores_witness :
  exists obj',
    set_value_by_path (object [("a", object [])])
                      (Parsed ([Fields "a"] ++ [Fields "b"])) (JInt 1)
    = Done obj'
    /\ get_value_by_path obj' (Parsed ([Fields "a"] ++ [Fields "b"])) = JInt 1
    /\ remove_value_by_path obj' (Parsed ([Fields "a"] ++ [Fields "b"]))
       = object [("a", object [])].
Proof.
  apply (create_then_remove_restores (object [("a", object [])])
           [Fields "a"] [] "b" (JInt 1) eq_refl eq_refl eq_refl eq_refl).
Defined.

(** ** The table merge *)

(** X12.  The text of a mapped column whose path holds a value that is not
    null is stored there as [cast_value] makes it from the type of that
    value, provided that for a list or a dict the cast is one too and that
    the value is not a character of a string. *)
Theorem merged_value_is_cast_of_text :
  forall json_loads (obj : json) (row : csv_row_t) (key text : string)
         (p : jsonpath) (cur : json),
    is_json obj = true ->
    (forall s v, json_loads s = Some v -> is_json v = true) ->
    row_get key row = Some text -> key <> "ID" ->
    p <> [] ->
    JsonPath.find p obj = Ok (Some cur) -> cur <> JNull ->
    (forall s, JsonPath.find (removelast p) obj <> Ok (Some (JStr s))) ->
    let casted := cast_value json_loads text (get_type_from_value cur) in
    (is_container cur = true ->
     get_type_from_value casted = get_type_from_value cur) ->
    exists obj',
      update_from_csv json_loads obj row [(key, Parsed p)] = Done obj'
      /\ get_value_by_path obj' (Parsed p) = casted.
Proof.
  intros json_loads obj row key text p cur Hj Hl Hrow Hkey Hp Hf Hcur Hs
         casted Hc.
  destruct (merge_existing_value json_loads Hl obj row key text p cur
              Hj Hrow Hkey Hp Hf Hcur Hs Hc) as (obj' & H1 & H2 & _).
  now exists obj'.
Qed.

(** The text " 12 " for the integer field [$.count]. *)
Lemma merged_value_is_cast_of_text_witness :
  exists obj',
    update_from_csv rejecting_loads
      (object [("id", JStr "1"); ("count", JInt 5)])
      [("ID", "1"); ("count", " 12 ")]
      [("count", Parsed [Fields "count"])]
    = Done obj'
    /\ get_value_by_path obj' (Parsed [Fields "count"]) = JInt 12.
Proof.
  apply (merged_value_is_cast_of_text rejecting_loads
           (object [("id", JStr "1"); ("count", JInt 5)])
           [("ID", "1"); ("count", " 12 ")] "count" " 12 " [Fields "count"]
           (JInt 5)).
  - reflexivity.
  - intros s v H. discriminate H.
  - reflexivity.
  - discriminate.
  - discriminate.
  - reflexivity.
  - discriminate.
  - intros s H. discriminate H.
  - intros H. discriminate H.
Defined.

(** X13.  A mapped column whose path reads as [None] in the document -- the
    field is missing or null -- is stored there as the text itself, a
    string, whatever the text looks like; the objects missing on the way
    are created. *)
Theorem new_field_is_created_as_text :
  forall json_loads (obj : json) (row : csv_row_t) (key text : string)
         (names : list string),
    is_json obj = true ->
    row_get key row = Some text -> key <> "ID" ->
    names <> [] ->
    map_shaped names obj = true ->
    get_value_by_path obj (Parsed (dotted names)) = JNull ->
    exists obj',
      update_from_csv json_loads obj row [(key, Parsed (dotted names))]
      = Done obj'
      /\ get_value_by_path obj' (Parsed (dotted names)) = JStr text.
Proof.
  intros json_loads obj row key text names Hj Hrow Hkey Hne Hs Hget.
  rewrite update_from_csv_one.
  rewrite (update_field_absent json_loads obj row key text _ Hrow Hkey Hget).
  destruct (exists_last Hne) as (init & f & ->).
  destruct (update_chain_fields (JStr text) f init obj Hj eq_refl Hs)
    as (obj' & Hu & Hf & Hj').
  exists obj'. split.
  - unfold set_value_by_path. rewrite dotted_snoc, update_or_create_snoc, Hu.
    now rewrite clean_in_place_json.
  - now apply get_value_resolved.
Qed.

(** The text "42" for the missing field [$.meta.code]. *)
Lemma new_field_is_created_as_text_witness :
  exists obj',
    update_from_csv rejecting_loads (object [("id", JStr "1")])
      [("ID", "1"); ("code", "42")]
      [("code", Parsed (dotted ["meta"; "code"]))]
    = Done obj'
    /\ get_value_by_path obj' (Parsed (dotted ["meta"; "code"])) = JStr "42".
Proof.
  apply (new_field_is_created_as_text rejecting_loads
           (object [("id", JStr "1")]) [("ID", "1"); ("code", "42")]
           "code" "42" ["meta"; "code"]).
  - reflexivity.
  - reflexivity.
  - discriminate.
  - discriminate.
  - reflexivity.
  - reflexivity.
Defined.

(** X14.  An empty cell in a mapped column resets a field that holds a value:
    a string becomes the empty string, a boolean becomes false, a list and
    an object become empty, and a number becomes the empty string, since
    the empty text reads as no number. *)
Theorem empty_cell_resets_field :
  forall json_loads (obj : json) (row : csv_row_t) (key : string)
         (p : jsonpath) (cur : json),
    is_json obj = true ->
    (forall s v, json_loads s = Some v -> is_json v = true) ->
    row_get key row = Some "" -> key <> "ID" ->
    p <> [] ->
    JsonPath.find p obj = Ok (Some cur) -> cur <> JNull ->
    (forall s, JsonPath.find (removelast p) obj <> Ok (Some (JStr s))) ->
    exists obj',
      update_from_csv json_loads obj row [(key, Parsed p)] = Done obj'
      /\ get_value_by_path obj' (Parsed p) = emptied cur.
Proof.
  intros json_loads obj row key p cur Hj Hl Hrow Hkey Hp Hf Hcur Hs.
  assert (cast_value json_loads "" (get_type_from_value cur) = emptied cur)
    as Hcast by (destruct cur; try reflexivity; congruence).
  destruct (merge_existing_value json_loads Hl obj row key "" p cur
              Hj Hrow Hkey Hp Hf Hcur Hs) as (obj' & H1 & H2 & _).
  - rewrite Hcast. now destruct cur.
  - exists obj'. now rewrite <- Hcast.
Qed.

(** An empty cell for the integer field [$.count]. *)
Lemma empty_cell_resets_field_witness :
  exists obj',
    update_from_csv rejecting_loads
      (object [("id", JStr "1"); ("count", JInt 5)])
      [("ID", "1"); ("count", "")]
      [("count", Parsed [Fields "count"])]
    = Done obj'
    /\ get_value_by_path obj' (Parsed [Fields "count"]) = emptied (JInt 5).
Proof.
  apply (empty_cell_resets_field rejecting_loads
           (object [("id", JStr "1"); ("count", JInt 5)])
           [("ID", "1"); ("count", "")] "count" [Fields "count"] (JInt 5)).
  - reflexivity.
  - intros s v H. discriminate H.
  - reflexivity.
  - discriminate.
  - discriminate.
  - reflexivity.
  - discriminate.
  - intros s H. discriminate H.
Defined.

(** X15.  Merging the same row a second time changes nothing: what the table
    merge of one column at a path of field names leaves is left as it is
    by the same merge. *)
Theorem merging_a_row_again_changes_nothing :
  forall json_loads (obj obj' : json) (row : csv_row_t) (key : string)
         (names : list string),
    (forall s v, json_loads s = Some v -> is_json v = true) ->
    is_json obj = true ->
    update_from_csv json_loads obj row [(key, Parsed (dotted names))]
    = Done obj' ->
    update_from_csv json_loads obj' row [(key, Parsed (dotted names))]
    = Done obj'.
Proof.
  intros json_loads obj obj' row key names Hl Hj H.
  assert (obj' = obj ->
          update_from_csv json_loads obj' row [(key, Parsed (dotted names))]
          = Done obj') as Hsame by (intros ->; exact H).
  rewrite update_from_csv_one in *.
  destruct (row_get key row) as [text|] eqn:Hrow;
    [|apply Hsame; unfold update_field in H; rewrite Hrow in H; congruence].
  destruct (String.eqb key "ID") eqn:Hk;
    [apply Hsame; unfold update_field in H; rewrite Hrow, Hk in H; congruence|].
  apply String.eqb_neq in Hk.
  destruct names as [|n0 names0];
    [apply Hsame; unfold update_field in H; rewrite Hrow in H;
     apply String.eqb_neq in Hk; rewrite Hk in H;
     destruct (get_value_by_path obj (Parsed (dotted [])));
     try match type of H with
         | context [if ?c then _ else _] => destruct c
         end; simpl in H; congruence|].
  destruct (exists_last (l := n0 :: names0) ltac:(discriminate))
    as (init & f & E). rewrite E in *. clear E n0 names0.
  destruct (get_value_by_path obj (Parsed (dotted (init ++ [f])))) eqn:Hget.
  1: { (* the field reads as None *)
    rewrite (update_field_absent json_loads obj row key text _ Hrow Hk Hget) in H.
    destruct (map_shaped (init ++ [f]) obj) eqn:Hs.
    - destruct (update_chain_fields (JStr text) f init obj Hj eq_refl Hs)
        as (obj1 & Hu & Hf & Hj1).
      unfold set_value_by_path in H.
      rewrite dotted_snoc, update_or_create_snoc, Hu in H.
      rewrite clean_in_place_json in H by exact Hj1.
      inversion H; subst obj1.
      apply (update_field_settled json_loads obj' row key text _ (JStr text));
        auto. discriminate.
    - apply Hsame.
      destruct (update_chain_not_map_shaped (JStr text) f init obj Hs)
        as [Hst _].
      unfold set_value_by_path in H.
      rewrite dotted_snoc, update_or_create_snoc in H.
      destruct (JsonPath.update_chain (dotted init) (Fields f) (JStr text) obj);
        try discriminate.
      simpl in Hst. subst. rewrite clean_in_place_json in H by exact Hj.
      congruence. }
  all: match type of Hget with _ = ?c => set (cur := c) in * end.
  all: assert (cur <> JNull) as Hcur by discriminate.
  all: pose proof (get_value_found _ _ _ Hget Hcur) as Hf.
  all: rewrite (update_field_existing json_loads obj row key text _ cur
                  Hrow Hk Hget Hcur) in H; cbv zeta in H.
  all: destruct (is_container cur
                 && negb (pytype_eqb
                            (get_type_from_value
                               (cast_value json_loads text
                                           (get_type_from_value cur)))
                            (get_type_from_value cur))) eqn:Hm;
    [apply Hsame; congruence|].
  all: assert (is_container cur = true ->
               get_type_from_value
                 (cast_value json_loads text (get_type_from_value cur))
               = get_type_from_value cur) as Hc
      by (intros Hcont; destruct (is_container cur); [|discriminate];
          apply negb_false_iff in Hm; now apply pytype_eqb_eq).
  all: rewrite dotted_snoc in Hf.
  all: destruct (merge_existing_value json_loads Hl obj row key text
                   (dotted init ++ [Fields f]) cur Hj Hrow Hk
                   ltac:(destruct (dotted init); discriminate) Hf Hcur)
      as (obj1 & H1 & H2 & Hj1);
    [rewrite removelast_last; now apply (find_field_parent init f obj cur)
    | exact Hc |].
  all: rewrite update_from_csv_one in H1.
  all: rewrite (update_field_existing json_loads obj row key text _ cur
                  Hrow Hk (get_value_resolved _ _ _ Hf) Hcur) in H1;
    cbv zeta in H1; rewrite Hm in H1.
  all: rewrite dotted_snoc in H.
  all: assert (obj1 = obj') as -> by congruence.
  all: destruct (cast_value_stable json_loads text cur Hcur Hc) as [Hst Hnn].
  all: rewrite dotted_snoc.
  all: apply (update_field_settled json_loads obj' row key text _
                (cast_value json_loads text (get_type_from_value cur)));
    auto.
  all: now apply get_value_found.
Qed.

(** The row of Scenario A, merged into what its merge left. *)
Lemma merging_a_row_again_changes_nothing_witness :
  update_from_csv rejecting_loads
    (object [("id", JStr "1"); ("count", JInt 9)])
    [("ID", "1"); ("count", "9")]
    [("count", Parsed (dotted ["count"]))]
  = Done (object [("id", JStr "1"); ("count", JInt 9)]).
Proof.
  apply (merging_a_row_again_changes_nothing rejecting_loads
           (object [("id", JStr "1"); ("count", JInt 5)])
           (object [("id", JStr "1"); ("count", JInt 9)])
           [("ID", "1"); ("count", "9")] "count" ["count"]).
  - intros s v H. discriminate H.
  - reflexivity.
  - reflexivity.
Defined.

(** X16.  The table merge reads the row only at the columns the mapping
    names: two rows that agree on those columns are merged alike. *)
Theorem unmapped_columns_are_ignored :
  forall json_loads (mapping : mapping_t) (obj : json) (row row' : csv_row_t),
    (forall key p, In (key, p) mapping -> row_get key row = row_get key row') ->
    update_from_csv json_loads obj row mapping
    = update_from_csv json_loads obj row' mapping.
Proof.
  intros json_loads mapping.
  induction mapping as [|[key p] mapping IH]; intros obj row row' H; auto.
  simpl. rewrite (update_field_same_cell json_loads obj row row' key p)
    by (apply (H key p); now left).
  destruct (update_field json_loads obj row' key p); auto.
  apply IH. intros k q Hin. apply (H k q). now right.
Qed.

(** A row with a column [note] more. *)
Lemma unmapped_columns_are_ignored_witness :
  update_from_csv rejecting_loads
    (object [("id", JStr "1"); ("count", JInt 5)])
    [("ID", "1"); ("count", "9"); ("note", "n")]
    [("count", Parsed (dotted ["count"]))]
  = update_from_csv rejecting_loads
      (object [("id", JStr "1"); ("count", JInt 5)])
      [("ID", "1"); ("count", "9")]
      [("count", Parsed (dotted ["count"]))].
Proof.
  apply (unmapped_columns_are_ignored rejecting_loads
           [("count", Parsed (dotted ["count"]))]
           (object [("id", JStr "1"); ("count", JInt 5)])
           [("ID", "1"); ("count", "9"); ("note", "n")]
           [("ID", "1"); ("count", "9")]).
  intros key p [H | []]. inversion H. reflexivity.
Defined.

(** X17.  A mapping entry for the column [ID], or for a column the row does
    not have, is passed over: the merge is the merge under the mapping
    without these entries. *)
Theorem id_and_absent_columns_are_skipped :
  forall json_loads (mapping : mapping_t) (obj : json) (row : csv_row_t),
    update_from_csv json_loads obj row mapping
    = update_from_csv json_loads obj row (filter (merged_column row) mapping).
Proof.
  intros json_loads mapping.
  induction mapping as [|[key p] mapping IH]; intros obj row; auto.
  simpl filter. destruct (merged_column row (key, p)) eqn:E.
  - simpl. destruct (update_field json_loads obj row key p); auto.
  - pose proof (update_field_skipped json_loads obj row (key, p) E) as H.
    simpl in H. simpl. rewrite H. apply IH.
Qed.

(** X18.  The table merge through paths without index keeps the document a
    JSON document: every key of every object in it is a string, whether the
    merge returns or raises. *)
Theorem table_merge_keeps_string_keys :
  forall json_loads (obj : json) (row : csv_row_t) (mapping : mapping_t),
    (forall s v, json_loads s = Some v -> is_json v = true) ->
    is_json obj = true ->
    forallb (fun kp => no_index (snd kp)) mapping = true ->
    is_json (state_of (update_from_csv json_loads obj row mapping)) = true.
Proof.
  intros json_loads obj row mapping Hl Hj Hm.
  now apply update_from_csv_json.
Qed.

(** The merge of Scenario A. *)
Lemma table_merge_keeps_string_keys_witness :
  is_json (state_of (update_from_csv rejecting_loads
                       (object [("id", JStr "1"); ("count", JInt 5)])
                       [("ID", "1"); ("count", "9")]
                       [("count", Parsed (dotted ["count"]))]))
  = true.
Proof.
  apply (table_merge_keeps_string_keys rejecting_loads
           (object [("id", JStr "1"); ("count", JInt 5)])
           [("ID", "1"); ("count", "9")]
           [("count", Parsed (dotted ["count"]))]).
  - intros s v H. discriminate H.
  - reflexivity.
  - reflexivity.
Defined.

(** ** The override entries *)

(** X19.  An update entry whose value has the type of the value at its path
    replaces that value. *)
Theorem update_entry_same_type_replaces :
  forall (obj : json) (p : jsonpath) (cur value : json),
    is_json obj = true -> is_json value = true ->
    p <> [] ->
    JsonPath.find p obj = Ok (Some cur) -> cur <> JNull ->
    get_type_from_value cur = get_type_from_value value ->
    (forall s, JsonPath.find (removelast p) obj <> Ok (Some (JStr s))) ->
    exists obj',
      update_from_static_config obj [update_entry (Parsed p) value] = Done obj'
      /\ get_value_by_path obj' (Parsed p) = value.
Proof.
  intros obj p cur value Hj Hv Hp Hf Hcur Ht Hs.
  destruct (set_in_container obj p value cur Hj Hv Hp Hf Hs)
    as (obj' & Hset & Hget & _).
  exists obj'. split; auto.
  unfold update_from_static_config, apply_entry, update_entry.
  cbn -[get_value_by_path set_value_by_path].
  rewrite (get_value_resolved _ _ _ Hf), Ht.
  assert (pytype_eqb (get_type_from_value value) (get_type_from_value value)
          = true) as -> by now apply pytype_eqb_eq.
  rewrite Hset. now destruct cur.
Qed.

(** The value 7 over the value 5 at [$.count]. *)
Lemma update_entry_same_type_replaces_witness :
  exists obj',
    update_from_static_config (object [("count", JInt 5)])
      [update_entry (Parsed [Fields "count"]) (JInt 7)]
    = Done obj'
    /\ get_value_by_path obj' (Parsed [Fields "count"]) = JInt 7.
Proof.
  apply (update_entry_same_type_replaces (object [("count", JInt 5)])
           [Fields "count"] (JInt 5) (JInt 7)).
  - reflexivity.
  - reflexivity.
  - discriminate.
  - reflexivity.
  - discriminate.
  - reflexivity.
  - intros s H. discriminate H.
Defined.

(** X20.  An update entry never changes the type of a value that is there
    and is not null: it replaces the value by one of the same type, or it
    leaves the document as it was. *)
Theorem update_entry_keeps_type :
  forall (obj : json) (p : jsonpath) (cur value : json),
    is_json obj = true -> is_json value = true ->
    JsonPath.find p obj = Ok (Some cur) -> cur <> JNull ->
    let after :=
      state_of (update_from_static_config obj [update_entry (Parsed p) value]) in
    get_type_from_value (get_value_by_path after (Parsed p))
    = get_type_from_value cur
    /\ (get_value_by_path after (Parsed p) = value \/ after = obj).
Proof.
  intros obj p cur value Hj Hv Hf Hcur after.
  assert (update_from_static_config obj [update_entry (Parsed p) value]
          = if negb (pytype_eqb (get_type_from_value cur)
                                (get_type_from_value value))
            then Done obj
            else set_value_by_path obj (Parsed p) value) as Hrun.
  { unfold update_from_static_config, apply_entry, update_entry.
    cbn -[get_value_by_path set_value_by_path].
    rewrite (get_value_resolved _ _ _ Hf).
    destruct cur; try congruence;
      match goal with
      | |- context [if ?c then _ else _] => destruct c
      end;
      try reflexivity;
      now destruct (set_value_by_path obj (Parsed p) value). }
  unfold after. rewrite Hrun.
  destruct (pytype_eqb (get_type_from_value cur) (get_type_from_value value))
    eqn:Et; simpl negb; cbv iota.
  - apply pytype_eqb_eq in Et.
    destruct p as [|s p'].
    + simpl. inversion Hf; subst. auto.
    + destruct (set_resolved obj (s :: p') value cur Hj Hv
                  ltac:(discriminate) Hf)
        as [(obj' & -> & Hf' & _) | (-> & _)]; simpl state_of.
      * rewrite (get_value_resolved _ _ _ Hf'). auto.
      * rewrite (get_value_resolved _ _ _ Hf). auto.
  - simpl state_of. rewrite (get_value_resolved _ _ _ Hf). auto.
Qed.

(** The value [true] for the string "yes" at [$.flag]. *)
Lemma update_entry_keeps_type_witness :
  get_type_from_value
    (get_value_by_path
       (state_of (update_from_static_config (object [("flag", JStr "yes")])
                    [update_entry (Parsed [Fields "flag"]) (JBool true)]))
       (Parsed [Fields "flag"]))
  = get_type_from_value (JStr "yes").
Proof.
  apply (update_entry_keeps_type (object [("flag", JStr "yes")])
           [Fields "flag"] (JStr "yes") (JBool true)).
  - reflexivity.
  - reflexivity.
  - reflexivity.
  - discriminate.
Defined.

(** X21.  An entry without path, without operation, with an operation other
    than [update] and [remove], or an [update] without value, is passed
    over: the run over the entries is the run over those that are carried
    out. *)
Theorem invalid_entries_are_skipped :
  forall (static_config : list entry) (obj : json),
    update_from_static_config obj static_config
    = update_from_static_config obj (filter carried_out static_config).
Proof.
  induction static_config as [|e cfg IH]; intros obj; auto.
  simpl filter. destruct (carried_out e) eqn:E.
  - simpl. destruct (apply_entry obj e); auto.
  - assert (apply_entry obj e = Done obj) as H.
    { unfold carried_out in E. unfold apply_entry.
      destruct (e_path e); auto.
      destruct (negb (Py.truthy (e_operation e))); auto.
      destruct (e_operation e) as [ | | | |op| | ]; auto.
      destruct (String.eqb op "update"); simpl in E.
      - destruct (e_value e); [discriminate | reflexivity].
      - now rewrite E. }
    simpl. rewrite H. apply IH.
Qed.

(** X22.  A static configuration without update entries never raises. *)
Theorem remove_entries_never_raise :
  forall (static_config : list entry) (obj : json),
    (forall e, In e static_config -> e_operation e <> JStr "update") ->
    exists obj', update_from_static_config obj static_config = Done obj'.
Proof.
  induction static_config as [|e cfg IH]; intros obj H.
  - now exists obj.
  - assert (exists obj1, apply_entry obj e = Done obj1) as [obj1 H1].
    { pose proof (H e (or_introl eq_refl)) as He.
      unfold apply_entry.
      destruct (e_path e); eauto.
      destruct (negb (Py.truthy (e_operation e))); eauto.
      destruct (e_operation e) as [ | | | |op| | ]; eauto.
      destruct (String.eqb op "update") eqn:E.
      - apply String.eqb_eq in E. subst. congruence.
      - destruct (String.eqb op "remove"); eauto. }
    simpl. rewrite H1. apply IH. intros e' He'. apply H. now right.
Qed.

(** Two remove entries, one with an index. *)
Lemma remove_entries_never_raise_witness :
  exists obj',
    update_from_static_config (object [("a", JList [JInt 1]); ("b", JInt 2)])
      [remove_entry (Parsed [Fields "a"; Index 0]);
       remove_entry (Parsed [Fields "zz"])]
    = Done obj'.
Proof.
  apply (remove_entries_never_raise
           [remove_entry (Parsed [Fields "a"; Index 0]);
            remove_entry (Parsed [Fields "zz"])]
           (object [("a", JList [JInt 1]); ("b", JInt 2)])).
  intros e [<- | [<- | []]]; discriminate.
Defined.

(** X23.  The override entries keep the document a JSON document when the
    update entries write JSON values at paths without index; remove
    entries may use any path. *)
Theorem overrides_keep_string_keys :
  forall (obj : json) (static_config : list entry),
    is_json obj = true ->
    forallb plain_entry static_config = true ->
    is_json (state_of (update_from_static_config obj static_config)) = true.
Proof.
  intros obj static_config. revert obj.
  induction static_config as [|e cfg IH]; intros obj Hj Hc; auto.
  simpl in Hc. apply andb_true_iff in Hc as [He Hc].
  pose proof (apply_entry_json obj e Hj He) as H.
  simpl. destruct (apply_entry obj e); auto.
Qed.

(** An update entry and a remove entry with an index. *)
Lemma overrides_keep_string_keys_witness :
  is_json (state_of (update_from_static_config
                       (object [("a", JList [JInt 1])])
                       [update_entry (Parsed (dotted ["m"; "n"])) (JInt 1);
                        remove_entry (Parsed [Fields "a"; Index 0])]))
  = true.
Proof.
  apply (overrides_keep_string_keys (object [("a", JList [JInt 1])])
           [update_entry (Parsed (dotted ["m"; "n"])) (JInt 1);
            remove_entry (Parsed [Fields "a"; Index 0])]).
  - reflexivity.
  - reflexivity.
Defined.

(** ** Both mergers *)

(** X24.  With a path of field names, either merger raises exactly when the
    parent of the last name is there and is neither [None] nor an object
    -- the table merge if the column is one it goes on with, the update
    entry in any case. *)
Theorem mergers_raise_iff_parent_rejects :
  forall json_loads (obj : json) (row : csv_row_t) (key : string)
         (init : list string) (f : string) (value : json),
    let P := Parsed (dotted (init ++ [f])) in
    let rejected :=
      exists x, JsonPath.find (dotted init) obj = Ok (Some x)
                /\ rejects_fields x = true in
    ((exists o, update_from_csv json_loads obj row [(key, P)] = Raised o)
     <-> merged_column row (key, P) = true /\ rejected)
    /\ ((exists o, update_from_static_config obj [update_entry P value]
                   = Raised o)
        <-> rejected).
Proof.
  intros json_loads obj row key init f value P rejected.
  unfold P, rejected. clear P rejected.
  pose proof (set_fields_raised obj) as Hset.
  split.
  - rewrite update_from_csv_one. unfold merged_column. simpl fst.
    destruct (row_get key row) as [text|] eqn:Hrow.
    2: { unfold update_field. rewrite Hrow. split.
         - intros [o H]. discriminate.
         - intros [H _]. discriminate. }
    destruct (String.eqb key "ID") eqn:Hk.
    1: { unfold update_field. rewrite Hrow, Hk. split.
         - intros [o H]. discriminate.
         - intros [H _]. discriminate. }
    apply String.eqb_neq in Hk.
    destruct (get_value_by_path obj (Parsed (dotted (init ++ [f])))) eqn:Hget.
    1: { rewrite (update_field_absent json_loads obj row key text _
                    Hrow Hk Hget).
         split.
         - intros H. split; [reflexivity|]. now apply (Hset (JStr text) init f).
         - intros [_ H]. now apply (Hset (JStr text) init f). }
    all: match type of Hget with _ = ?c => set (cur := c) in * end.
    all: assert (cur <> JNull) as Hcur by discriminate.
    all: rewrite (update_field_existing json_loads obj row key text _ cur
                    Hrow Hk Hget Hcur); cbv zeta.
    all: split;
      [intros [o H];
       match type of H with
       | context [if ?c then _ else _] => destruct c
       end; discriminate
      |intros [_ (x & Hx & Hr)];
       rewrite (get_below_rejecting init f obj x Hx Hr) in Hget;
       discriminate].
  - unfold update_from_static_config, apply_entry, update_entry.
    cbn -[get_value_by_path set_value_by_path].
    destruct (get_value_by_path obj (Parsed (dotted (init ++ [f])))) eqn:Hget.
    1: { split.
         - intros [o H]. apply (Hset value init f).
           destruct (set_value_by_path obj (Parsed (dotted (init ++ [f]))) value)
             eqn:E; try discriminate. eauto.
         - intros H. apply (Hset value init f) in H as [o H].
           exists o. now rewrite H. }
    all: match type of Hget with _ = ?c => set (cur := c) in * end.
    all: assert (cur <> JNull) as Hcur by discriminate.
    all: pose proof (get_value_found _ _ _ Hget Hcur) as Hf.
    all: split;
      [intros [o H];
       match type of H with
       | context [if ?c then _ else _] => destruct c
       end; try discriminate;
       destruct (set_value_by_path obj (Parsed (dotted (init ++ [f]))) value)
         eqn:E; try discriminate;
       now elim (set_field_found init f obj cur value Hf _ E)
      |intros (x & Hx & Hr);
       rewrite (get_below_rejecting init f obj x Hx Hr) in Hget;
       discriminate].
Qed.

(** The table text "t" and the entry value 1 for [$.x.y] in [{"x":5}]. *)
Lemma mergers_raise_iff_parent_rejects_witness :
  merged_column [("ID", "1"); ("a", "t")] ("a", Parsed (dotted (["x"] ++ ["y"])))
  = true
  /\ (exists o, update_from_csv rejecting_loads (object [("x", JInt 5)])
                  [("ID", "1"); ("a", "t")]
                  [("a", Parsed (dotted (["x"] ++ ["y"])))]
                = Raised o)
  /\ (exists o, update_from_static_config (object [("x", JInt 5)])
                  [update_entry (Parsed (dotted (["x"] ++ ["y"]))) (JInt 1)]
                = Raised o).
Proof.
  assert (exists x, JsonPath.find (dotted ["x"]) (object [("x", JInt 5)])
                    = Ok (Some x) /\ rejects_fields x = true) as H
      by (exists (JInt 5); split; reflexivity).
  pose proof (mergers_raise_iff_parent_rejects rejecting_loads
                (object [("x", JInt 5)]) [("ID", "1"); ("a", "t")] "a"
                ["x"] "y" (JInt 1)) as T.
  cbv zeta in T. destruct T as [T1 T2].
  split; [reflexivity|]. split.
  - apply (proj2 T1). split; [reflexivity | exact H].
  - apply (proj2 T2). exact H.
Defined.

(** X25.  A path that ends in an index into a string reads one character of
    it.  Writing there raises: the table merge catches that and leaves the
    document as it was, an update entry with a string value does not and
    the exception leaves [update_from_static_config]. *)
Theorem index_into_string :
  forall json_loads (obj : json) (init : jsonpath) (s : string) (i : Z)
         (cur : json),
    get_value_by_path obj (Parsed init) = JStr s ->
    get_value_by_path obj (Parsed (init ++ [Index i])) = cur ->
    cur <> JNull ->
    (exists c, cur = JStr c /\ Py.str_get s i = Some c)
    /\ (forall row key text,
          row_get key row = Some text -> key <> "ID" ->
          update_from_csv json_loads obj row [(key, Parsed (init ++ [Index i]))]
          = Done obj)
    /\ (forall value,
          update_from_static_config
            obj [update_entry (Parsed (init ++ [Index i])) (JStr value)]
          = Raised obj).
Proof.
  intros json_loads obj init s i cur Hs Hc Hcur.
  assert (JsonPath.find init obj = Ok (Some (JStr s))) as Hf
      by (apply get_value_found; [exact Hs | discriminate]).
  pose proof (get_value_found _ _ _ Hc Hcur) as Hfc.
  rewrite find_app, Hf, find_one in Hfc.
  assert (exists c, cur = JStr c /\ Py.str_get s i = Some c) as (c & -> & Hget).
  { apply find_index_inv in Hfc as (_ & n & _ & _ & Hx). simpl in Hx.
    destruct (Py.str_get s i) as [c|]; try discriminate.
    inversion Hx. eauto. }
  split; [eauto|]. split.
  - intros row key text Hrow Hkey.
    rewrite update_from_csv_one.
    rewrite (update_field_existing json_loads obj row key text _ (JStr c)
               Hrow Hkey Hc Hcur).
    cbn -[set_value_by_path].
    now rewrite (set_in_string obj init s i (JStr c) _ Hf Hfc).
  - intros value.
    unfold update_from_static_config, apply_entry, update_entry.
    cbn -[get_value_by_path set_value_by_path].
    rewrite Hc. cbn -[set_value_by_path].
    now rewrite (set_in_string obj init s i (JStr c) _ Hf Hfc).
Qed.

(** [$.name[0]] in [{"name":"abc"}]. *)
Lemma index_into_string_witness :
  get_value_by_path (object [("name", JStr "abc")]) (Parsed [Fields "name"])
  = JStr "abc"
  /\ get_value_by_path (object [("name", JStr "abc")])
                       (Parsed ([Fields "name"] ++ [Index 0])) = JStr "a"
  /\ update_from_static_config (object [("name", JStr "abc")])
       [update_entry (Parsed ([Fields "name"] ++ [Index 0])) (JStr "X")]
     = Raised (object [("name", JStr "abc")]).
Proof.
  split; [reflexivity|]. split; [reflexivity|].
  apply (proj2 (proj2 (index_into_string rejecting_loads
                         (object [("name", JStr "abc")]) [Fields "name"]
                         "abc" 0 (JStr "a") eq_refl eq_refl
                         ltac:(discriminate)))).
Defined.

(** X26.  Both mergers work through their list in order and stop at the
    first exception: the run over a list in two parts is the run over the
    first part and, when that returns, the run over the second part on the
    document it left. *)
Theorem mergers_run_in_sequence :
  forall json_loads (obj : json) (row : csv_row_t) (m1 m2 : mapping_t)
         (c1 c2 : list entry),
    update_from_csv json_loads obj row (m1 ++ m2)
    = match update_from_csv json_loads obj row m1 with
      | Done obj' => update_from_csv json_loads obj' row m2
      | Raised obj' => Raised obj'
      end
    /\ update_from_static_config obj (c1 ++ c2)
       = match update_from_static_config obj c1 with
         | Done obj' => update_from_static_config obj' c2
         | Raised obj' => Raised obj'
         end.
Proof.
  intros json_loads obj row m1 m2 c1 c2. split.
  - revert obj. induction m1 as [|[key p] m1 IH]; intros obj; auto.
    simpl. destruct (update_field json_loads obj row key p); auto.
  - revert obj. induction c1 as [|e c1 IH]; intros obj; auto.
    simpl. destruct (apply_entry obj e); auto.
Qed.

(** ** The run *)

(** X27.  On a document that is one object, the table merge takes the first
    row whose [ID] equals the object's [id] and no other: the rows before
    it do not match, and the rows after it are not looked at, whether they
    match or not. *)
Theorem object_run_takes_first_matching_row :
  forall json_loads (mapping : mapping_t) (static_config : list entry)
         (d : pydict) (rows1 rows2 : list csv_row_t) (row : csv_row_t),
    (forall r, In r rows1 -> same_id r d = false) ->
    same_id row d = true ->
    main json_loads mapping static_config (JDict d) (rows1 ++ row :: rows2)
    = main json_loads mapping static_config (JDict d) [row].
Proof.
  intros json_loads mapping static_config d rows1 rows2 row H1 H2.
  unfold main. rewrite (csv_first_match_skip _ _ _ _ _ H1).
  simpl. now rewrite H2.
Qed.

(** Two rows with the ID of the object: the first one is merged. *)
Lemma object_run_takes_first_matching_row_witness :
  main rejecting_loads [("count", Parsed (dotted ["count"]))] []
       (JDict [(KStr "id", JStr "1"); (KStr "count", JInt 5)])
       ([[("ID", "2"); ("count", "7")]]
          ++ [("ID", "1"); ("count", "8")] :: [[("ID", "1"); ("count", "9")]])
  = Saved (object [("id", JStr "1"); ("count", JInt 8)]).
Proof.
  refine (eq_trans (object_run_takes_first_matching_row rejecting_loads
                      [("count", Parsed (dotted ["count"]))] []
                      [(KStr "id", JStr "1"); (KStr "count", JInt 5)]
                      [[("ID", "2"); ("count", "7")]]
                      [[("ID", "1"); ("count", "9")]]
                      [("ID", "1"); ("count", "8")] _ _) _).
  - intros r [<- | []]. reflexivity.
  - reflexivity.
  - reflexivity.
Defined.

(** X28.  An object whose [id] is neither a string nor null is not matched
    by any row, since the table holds text: the run, on one such object or
    on a list of them, is the run without table. *)
Theorem id_that_is_not_text_never_matches :
  forall json_loads (mapping : mapping_t) (static_config : list entry)
         (rows : list csv_row_t),
    (forall d, id_not_text (JDict d) = true ->
               main json_loads mapping static_config (JDict d) rows
               = main json_loads mapping static_config (JDict d) [])
    /\ (forall objs, forallb id_not_text objs = true ->
                     main json_loads mapping static_config (JList objs) rows
                     = main json_loads mapping static_config (JList objs) []).
Proof.
  intros json_loads mapping static_config rows. split.
  - intros d Hd. unfold main.
    rewrite <- (app_nil_r rows).
    rewrite (csv_first_match_skip json_loads mapping d rows []); auto.
    intros r _. now apply id_not_text_no_match.
  - intros objs Ho. unfold main.
    assert (csv_over json_loads mapping rows objs = Ok objs) as ->; auto.
    induction rows as [|r rows IH]; auto.
    simpl. now rewrite csv_row_over_no_match.
Qed.

(** The id 1, a number, and a row with the ID "1". *)
Lemma id_that_is_not_text_never_matches_witness :
  id_not_text (JDict [(KStr "id", JInt 1); (KStr "count", JInt 5)]) = true
  /\ main rejecting_loads [("count", Parsed (dotted ["count"]))] []
          (JDict [(KStr "id", JInt 1); (KStr "count", JInt 5)])
          [[("ID", "1"); ("count", "9")]]
     = Saved (object [("id", JInt 1); ("count", JInt 5)]).
Proof.
  split; [reflexivity|].
  rewrite (proj1 (id_that_is_not_text_never_matches rejecting_loads
                    [("count", Parsed (dotted ["count"]))] []
                    [[("ID", "1"); ("count", "9")]])
                 [(KStr "id", JInt 1); (KStr "count", JInt 5)] eq_refl).
  reflexivity.
Defined.

(** X29.  On a list that holds anything but objects, a table with at least
    one row ends the run in an exception: nothing is saved. *)
Theorem list_with_non_object_raises :
  forall json_loads (mapping : mapping_t) (static_config : list entry)
         (objs : list json) (row : csv_row_t) (rows : list csv_row_t),
    forallb is_object objs = false ->
    main json_loads mapping static_config (JList objs) (row :: rows)
    = Uncaught.
Proof.
  intros json_loads mapping static_config objs row rows H.
  unfold main. simpl. now rewrite csv_row_over_non_object.
Qed.

(** A list with an object and a number. *)
Lemma list_with_non_object_raises_witness :
  main rejecting_loads [("count", Parsed (dotted ["count"]))] []
       (JList [object [("id", JStr "1")]; JInt 3])
       ([("ID", "1"); ("count", "9")] :: [])
  = Uncaught.
Proof.
  apply (list_with_non_object_raises rejecting_loads
           [("count", Parsed (dotted ["count"]))] []
           [object [("id", JStr "1")]; JInt 3]
           [("ID", "1"); ("count", "9")] []).
  reflexivity.
Defined.

(** X30.  A run that saves keeps the shape of the document: an object is
    saved as an object, and a list as a list of as many elements. *)
Theorem run_keeps_top_level_shape :
  forall json_loads (mapping : mapping_t) (static_config : list entry)
         (json_data out : json) (csv_data : list csv_row_t),
    main json_loads mapping static_config json_data csv_data = Saved out ->
    match json_data with
    | JDict _ => exists d', out = JDict d'
    | JList l => exists l', out = JList l' /\ List.length l' = List.length l
    | _ => False
    end.
Proof.
  intros json_loads mapping static_config json_data out csv_data H.
  unfold main in H. destruct json_data; try discriminate.
  - destruct (csv_over json_loads mapping csv_data l) as [l1|] eqn:E1;
      try discriminate.
    destruct (static_over static_config l1) as [l2|] eqn:E2; try discriminate.
    inversion H. exists l2. split; auto.
    rewrite (static_over_length _ _ _ E2).
    now apply (csv_over_length json_loads mapping csv_data).
  - pose proof (csv_first_match_dict json_loads mapping d csv_data) as H1.
    destruct (csv_first_match json_loads mapping d csv_data) as [o1|];
      try discriminate.
    pose proof (update_from_static_config_dict static_config o1 H1) as H2.
    destruct (update_from_static_config o1 static_config) as [o2|];
      try discriminate.
    inversion H; subst. simpl in H2. destruct out; try discriminate. eauto.
Qed.

(** The run of Scenario E over two objects. *)
Lemma run_keeps_top_level_shape_witness :
  exists l',
    JList [object [("id", JStr "1"); ("count", JInt 9)];
           object [("id", JStr "1"); ("count", JInt 9)]] = JList l'
    /\ List.length l'
       = List.length [object [("id", JStr "1"); ("count", JInt 5)];
                      object [("id", JStr "1"); ("count", JInt 7)]].
Proof.
  apply (run_keeps_top_level_shape rejecting_loads
           [("count", Parsed (dotted ["count"]))] []
           (JList [object [("id", JStr "1"); ("count", JInt 5)];
                   object [("id", JStr "1"); ("count", JInt 7)]])
           (JList [object [("id", JStr "1"); ("count", JInt 9)];
                   object [("id", JStr "1"); ("count", JInt 9)]])
           [[("ID", "1"); ("count", "9")]]).
  reflexivity.
Defined.
